(** * event-service: the event lifecycle and its store, embedded in Rocq

    The development follows the Go packages of the repository:

    - [package event], model: [State], [Event], [EventResponse];
    - the document store the repository talks to ([bson], [mongo]): a
      collection is the list of its documents in natural (insertion) order,
      every driver call is one atomic step on it;
    - [EventRepository] (FindActive, Create, Finish, List);
    - [EventService] (Start, Finish, List);
    - [EventHandler] with request validation ([regexp], [strconv]).

    Stateful code is written in explicit state-passing style over [World]:
    the collection, the ObjectID generator, the clock read by [time.Now], a
    script of storage faults and the trace of driver calls made so far. *)

From Stdlib Require Import ZArith NArith String Ascii List Lia Sorted Permutation Bool.
From stdpp Require Import gmap strings list fin_maps.

(* ===================================================================== *)
(** ** Model (package event) *)
(* ===================================================================== *)

(** [primitive.ObjectID] is a 12-byte value; it is read here as the number
    it encodes.  The zero value is [primitive.NilObjectID]. *)
Definition ObjectID := N.
Definition NilObjectID : ObjectID := 0%N.

(** [time.Time] as the instant it denotes, in nanoseconds since the
    epoch.  Its location is not modelled ([time.Now] is local, a date
    read back from the store is UTC): two equal times are two times that
    denote the same instant, as [Time.Equal] has it. *)
Definition Time := Z.

(** [type State int] with its two named constants. *)
Definition State := Z.
Definition Active : State := 0%Z.
Definition Finished : State := 1%Z.

Definition State_String (s : State) : string :=
  if (s =? Active)%Z then "started"
  else if (s =? Finished)%Z then "finished"
  else "unknown".

Record Event := mkEvent {
  ID : ObjectID;
  Type_ : string;
  State_ : State;
  StartedAt : Time;
  FinishedAt : option Time
}.

Record EventResponse := mkEventResponse {
  resp_ID : string;
  resp_Type : string;
  resp_State : string;
  resp_StartedAt : Time;
  resp_FinishedAt : option Time
}.

(** [ObjectID.Hex]: the 24 lowercase hexadecimal digits of the 12 bytes. *)
Definition hex_digit (n : N) : ascii :=
  match n with
  | 0%N => "0" | 1%N => "1" | 2%N => "2" | 3%N => "3" | 4%N => "4"
  | 5%N => "5" | 6%N => "6" | 7%N => "7" | 8%N => "8" | 9%N => "9"
  | 10%N => "a" | 11%N => "b" | 12%N => "c" | 13%N => "d" | 14%N => "e"
  | _ => "f"
  end%char.

Fixpoint hex_digits (k : nat) (n : N) (acc : string) : string :=
  match k with
  | O => acc
  | S k' => hex_digits k' (n / 16)%N (String (hex_digit (n mod 16)%N) acc)
  end.

Definition Hex (id : ObjectID) : string := hex_digits 24 id EmptyString.

Definition ToResponse (e : Event) : EventResponse :=
  {| resp_ID := Hex (ID e);
     resp_Type := Type_ e;
     resp_State := State_String (State_ e);
     resp_StartedAt := StartedAt e;
     resp_FinishedAt := FinishedAt e |}.

(* ===================================================================== *)
(** ** BSON documents, filters, updates and sort specifications *)
(* ===================================================================== *)

Module bson.

Inductive value :=
| VInt (z : Z)
| VString (s : string)
| VObjectID (o : ObjectID)
| VDate (t : Time).

(** A BSON date keeps milliseconds: [date t] is the instant that is read
    back when the instant [t] has been stored. *)
Definition date (t : Time) : Time := (t / 1000000 * 1000000)%Z.

(** [bson.M]: an unordered map from field names to values. *)
Abbreviation M := (gmap string value).

(** [bson.D]: an ordered list of key/value pairs; used for sort
    specifications, where the value is the direction (1 or -1). *)
Definition D := list (string * Z).

(** The fields of a stored event under the struct's [bson] tags;
    [finished_at] is [omitempty]: absent while the pointer is nil. *)
Definition field (e : Event) (key : string) : option value :=
  if String.eqb key "_id" then Some (VObjectID (ID e))
  else if String.eqb key "type" then Some (VString (Type_ e))
  else if String.eqb key "state" then Some (VInt (State_ e))
  else if String.eqb key "started_at" then Some (VDate (StartedAt e))
  else if String.eqb key "finished_at" then VDate <$> FinishedAt e
  else None.

Definition value_eqb (a b : value) : bool :=
  match a, b with
  | VInt x, VInt y => (x =? y)%Z
  | VString x, VString y => String.eqb x y
  | VObjectID x, VObjectID y => (x =? y)%N
  | VDate x, VDate y => (x =? y)%Z
  | _, _ => false
  end.

(** An equality filter [{k1: v1, ..., kn: vn}] selects the documents
    that carry every listed field with the listed value. *)
Definition matches (filter : M) (e : Event) : bool :=
  forallb (fun kv => match field e kv.1 with
                     | Some v => value_eqb v kv.2
                     | None => false
                     end)
          (map_to_list filter).

(** An event as it is read back after it has been stored: its times
    are BSON dates. *)
Definition stored (e : Event) : Event :=
  {| ID := ID e; Type_ := Type_ e; State_ := State_ e;
     StartedAt := date (StartedAt e);
     FinishedAt := date <$> FinishedAt e |}.

(** [{"$set": fields}]: overwrite the listed fields, keep the others; a
    time is stored as a BSON date. *)
Inductive update := Set_ (fields : M).

Definition apply_update (u : update) (e : Event) : Event :=
  match u with
  | Set_ m =>
    {| ID := ID e;
       Type_ := match m !! "type" with Some (VString s) => s | _ => Type_ e end;
       State_ := match m !! "state" with Some (VInt z) => z | _ => State_ e end;
       StartedAt := match m !! "started_at" with
                    | Some (VDate t) => date t | _ => StartedAt e end;
       FinishedAt := match m !! "finished_at" with
                     | Some (VDate t) => Some (date t) | _ => FinishedAt e end |}
  end.

(** Comparison of values for sorting: values of one type by their
    natural order, values of different types by the type's rank; a
    missing field sorts before every value. *)
Definition type_rank (v : value) : nat :=
  match v with VInt _ => 1 | VString _ => 2 | VObjectID _ => 3 | VDate _ => 4 end.

Definition value_compare (a b : value) : comparison :=
  match a, b with
  | VInt x, VInt y => (x ?= y)%Z
  | VString x, VString y => String.compare x y
  | VObjectID x, VObjectID y => (x ?= y)%N
  | VDate x, VDate y => (x ?= y)%Z
  | _, _ => Nat.compare (type_rank a) (type_rank b)
  end.

Definition field_compare (a b : option value) : comparison :=
  match a, b with
  | None, None => Eq
  | None, Some _ => Lt
  | Some _, None => Gt
  | Some x, Some y => value_compare x y
  end.

Fixpoint doc_compare (spec : D) (a b : Event) : comparison :=
  match spec with
  | [] => Eq
  | (key, dir) :: rest =>
    match field_compare (field a key) (field b key) with
    | Eq => doc_compare rest a b
    | c => if (dir <? 0)%Z then CompOpp c else c
    end
  end.

(** [a] may come before [b] in a result sorted by [spec]. *)
Definition precedes (spec : D) (a b : Event) : bool :=
  match doc_compare spec a b with Gt => false | _ => true end.

End bson.

(* ===================================================================== *)
(** ** Stable sorting *)
(* ===================================================================== *)

Section StableSort.
Context {A : Type} (le : A -> A -> bool).

Fixpoint insert_sorted (x : A) (l : list A) : list A :=
  match l with
  | [] => [x]
  | y :: l' => if le x y then x :: l else y :: insert_sorted x l'
  end.

(** Insertion sort; an element stays in front of the later elements it
    ties with, so the sort is stable. *)
Fixpoint stable_sort (l : list A) : list A :=
  match l with
  | [] => []
  | x :: l' => insert_sorted x (stable_sort l')
  end.
End StableSort.

(* ===================================================================== *)
(** ** The document store (mongo driver and server, as one collection) *)
(* ===================================================================== *)

Inductive error :=
| ErrNoDocuments                 (* mongo.ErrNoDocuments *)
| ErrDriver (msg : string)       (* any other failure of a storage call *)
| ErrInsertedID.                 (* Create: InsertedID is not an ObjectID *)

Inductive result (A : Type) :=
| Ok (a : A)
| Err (e : error).
Arguments Ok {A} a.
Arguments Err {A} e.

Module mongo.

Inductive ReturnDocument := Before | After.

(** [options.FindOptions]: what [SetSort], [SetSkip] and [SetLimit] set. *)
Record FindOptions := mkFindOptions {
  Sort : bson.D;
  Skip : option Z;
  Limit : option Z
}.

Definition Find_ : FindOptions := {| Sort := []; Skip := None; Limit := None |}.
Definition SetSort (s : bson.D) (o : FindOptions) : FindOptions :=
  {| Sort := s; Skip := Skip o; Limit := Limit o |}.
Definition SetSkip (k : Z) (o : FindOptions) : FindOptions :=
  {| Sort := Sort o; Skip := Some k; Limit := Limit o |}.
Definition SetLimit (m : Z) (o : FindOptions) : FindOptions :=
  {| Sort := Sort o; Skip := Skip o; Limit := Some m |}.

(** The identifier reported by [InsertOne]; the driver reports what the
    document carries, an ObjectID when it generated one itself. *)
Inductive InsertedID :=
| IdObjectID (o : ObjectID)
| IdOther.

(** The driver calls the repository makes. *)
Inductive Call :=
| CFindOne (filter : bson.M)
| CInsertOne (doc : Event)
| CFindOneAndUpdate (filter : bson.M) (u : bson.update) (rd : ReturnDocument)
| CFind (filter : bson.M) (opts : FindOptions)
| CCursorAll.

(** - [docs]: the collection, in natural order, each document as it
      decodes into an [Event];
    - [next_oid]: the next ObjectID the driver generates;
    - [clock]: what [time.Now] returns;
    - [faults]: for each coming driver call, whether it fails
      (connectivity, cancelled context, timeout) and with which message;
      when the script is used up, calls do not fail;
    - [trace]: the driver calls made so far, oldest first. *)
Record World := mkWorld {
  docs : list Event;
  next_oid : ObjectID;
  clock : Time;
  faults : list (option string);
  trace : list Call
}.

(** Every driver call is recorded and consumes one entry of the fault
    script; a failing call leaves the collection as it is. *)
Definition enter (c : Call) (w : World) : option string * World :=
  (hd None (faults w),
   {| docs := docs w; next_oid := next_oid w; clock := clock w;
      faults := tl (faults w); trace := trace w ++ [c] |}).

Definition set_docs (d : list Event) (w : World) : World :=
  {| docs := d; next_oid := next_oid w; clock := clock w;
     faults := faults w; trace := trace w |}.

(** [FindOne(ctx, filter).Decode(&event)]: the first matching document in
    natural order, [ErrNoDocuments] when there is none. *)
Definition FindOne (filter : bson.M) (w : World) : result Event * World :=
  let '(fault, w1) := enter (CFindOne filter) w in
  match fault with
  | Some msg => (Err (ErrDriver msg), w1)
  | None =>
    match List.find (bson.matches filter) (docs w1) with
    | Some e => (Ok e, w1)
    | None => (Err ErrNoDocuments, w1)
    end
  end.

Definition has_id (o : ObjectID) (l : list Event) : bool :=
  existsb (fun e => (ID e =? o)%N) l.

Definition with_id (o : ObjectID) (e : Event) : Event :=
  {| ID := o; Type_ := Type_ e; State_ := State_ e;
     StartedAt := StartedAt e; FinishedAt := FinishedAt e |}.

(** [InsertOne(ctx, doc)]: a document without [_id] (the field is
    [omitempty], so: with the zero ObjectID) gets a generated one; [_id]
    is unique in a collection.  What the collection holds is the encoded
    document, so the times of the row read back are BSON dates; the
    caller's struct is not touched. *)
Definition InsertOne (doc : Event) (w : World) : result InsertedID * World :=
  let '(fault, w1) := enter (CInsertOne doc) w in
  match fault with
  | Some msg => (Err (ErrDriver msg), w1)
  | None =>
    let generated := (ID doc =? NilObjectID)%N in
    let oid := if generated then next_oid w1 else ID doc in
    if has_id oid (docs w1)
    then (Err (ErrDriver "E11000 duplicate key error"), w1)
    else (Ok (IdObjectID oid),
          {| docs := docs w1 ++ [with_id oid (bson.stored doc)];
             next_oid := if generated then (next_oid w1 + 1)%N else next_oid w1;
             clock := clock w1; faults := faults w1; trace := trace w1 |})
  end.

(** Replace the first element satisfying [p] by its image under [f];
    returns the element found and the new list. *)
Fixpoint update_first (p : Event -> bool) (f : Event -> Event) (l : list Event)
  : option (Event * list Event) :=
  match l with
  | [] => None
  | e :: l' =>
    if p e then Some (e, f e :: l')
    else match update_first p f l' with
         | Some (found, l'') => Some (found, e :: l'')
         | None => None
         end
  end.

(** [FindOneAndUpdate(ctx, filter, update, opts).Decode(&updated)]: one
    atomic step that updates the first matching document and returns it,
    as it was before or as it is after the update. *)
Definition FindOneAndUpdate (filter : bson.M) (u : bson.update) (rd : ReturnDocument)
    (w : World) : result Event * World :=
  let '(fault, w1) := enter (CFindOneAndUpdate filter u rd) w in
  match fault with
  | Some msg => (Err (ErrDriver msg), w1)
  | None =>
    match update_first (bson.matches filter) (bson.apply_update u) (docs w1) with
    | Some (found, l) =>
      (Ok (match rd with Before => found | After => bson.apply_update u found end),
       set_docs l w1)
    | None => (Err ErrNoDocuments, w1)
    end
  end.

(** The repository sets a skip and a limit only when they are positive.
    For the server a limit of 0 is no limit, and a negative limit is a
    limit of its absolute value. *)
Definition skip_docs (s : option Z) (l : list Event) : list Event :=
  match s with Some k => drop (Z.to_nat k) l | None => l end.

Definition limit_docs (m : option Z) (l : list Event) : list Event :=
  match m with
  | Some n => if (n =? 0)%Z then l else take (Z.to_nat (Z.abs n)) l
  | None => l
  end.

Definition sort_docs (spec : bson.D) (l : list Event) : list Event :=
  match spec with
  | [] => l
  | _ => stable_sort (bson.precedes spec) l
  end.

(** The documents a query selects: filter, then sort, then skip, then
    limit. *)
Definition query (filter : bson.M) (opts : FindOptions) (l : list Event) : list Event :=
  limit_docs (Limit opts)
    (skip_docs (Skip opts)
       (sort_docs (Sort opts) (List.filter (bson.matches filter) l))).

(** [Find(ctx, filter, opts)] returns a cursor over the selected
    documents; [cursor.All] reads them all.  Both can fail. *)
Definition Find (filter : bson.M) (opts : FindOptions) (w : World)
  : result (list Event) * World :=
  let '(fault, w1) := enter (CFind filter opts) w in
  match fault with
  | Some msg => (Err (ErrDriver msg), w1)
  | None => (Ok (query filter opts (docs w1)), w1)
  end.

Definition cursor_All (cursor : list Event) (w : World) : result (list Event) * World :=
  let '(fault, w1) := enter CCursorAll w in
  match fault with
  | Some msg => (Err (ErrDriver msg), w1)
  | None => (Ok cursor, w1)
  end.

(** [time.Now()]. *)
Definition time_Now (w : World) : Time := clock w.

End mongo.
Import mongo.

(* ===================================================================== *)
(** ** EventRepository *)
(* ===================================================================== *)

Module EventRepository.

(** [bson.M{"type": eventType, "state": Active}] *)
Definition active_filter (eventType : string) : bson.M :=
  {[ "type" := bson.VString eventType; "state" := bson.VInt Active ]}.

(** A nil [*Event] is [None]. *)
Definition FindActive (eventType : string) (w : World) : result (option Event) * World :=
  let '(r, w1) := FindOne (active_filter eventType) w in
  match r with
  | Err ErrNoDocuments => (Ok None, w1)
  | Err e => (Err e, w1)
  | Ok event => (Ok (Some event), w1)
  end.

Definition Create (eventType : string) (w : World) : result Event * World :=
  let event := {| ID := NilObjectID; Type_ := eventType; State_ := Active;
                  StartedAt := time_Now w; FinishedAt := None |} in
  let '(r, w1) := InsertOne event w in
  match r with
  | Err e => (Err e, w1)
  | Ok (IdObjectID oid) => (Ok (with_id oid event), w1)
  | Ok IdOther => (Err ErrInsertedID, w1)
  end.

Definition Finish (eventType : string) (w : World) : result Event * World :=
  let now := time_Now w in
  let filter := active_filter eventType in
  let update :=
    bson.Set_ {[ "state" := bson.VInt Finished; "finished_at" := bson.VDate now ]} in
  let '(r, w1) := FindOneAndUpdate filter update After w in
  match r with
  | Err ErrNoDocuments => (Err ErrNoDocuments, w1)
  | Err e => (Err e, w1)
  | Ok updated => (Ok updated, w1)
  end.

Definition List_ (offset limit : Z) (eventType : string) (w : World)
  : result (list Event) * World :=
  let filter : bson.M := ∅ in
  let filter := if String.eqb eventType EmptyString then filter
                else <[ "type" := bson.VString eventType ]> filter in
  let opts := SetSort [("started_at", (-1)%Z)] Find_ in
  let opts := if (offset >? 0)%Z then SetSkip offset opts else opts in
  let opts := if (limit >? 0)%Z then SetLimit limit opts else opts in
  let '(r, w1) := Find filter opts w in
  match r with
  | Err e => (Err e, w1)
  | Ok cursor =>
    let '(r2, w2) := cursor_All cursor w1 in
    match r2 with
    | Err e => (Err e, w2)
    | Ok events => (Ok events, w2)
    end
  end.

End EventRepository.

(* ===================================================================== *)
(** ** EventService *)
(* ===================================================================== *)

Module EventService.

Definition Start (eventType : string) (w : World) : result Event * World :=
  let '(r, w1) := EventRepository.FindActive eventType w in
  match r with
  | Err e => (Err e, w1)
  | Ok (Some active) => (Ok active, w1)
  | Ok None => EventRepository.Create eventType w1
  end.

Definition Finish (eventType : string) (w : World) : result Event * World :=
  let '(r, w1) := EventRepository.Finish eventType w in
  match r with
  | Err ErrNoDocuments => (Err ErrNoDocuments, w1)
  | Err e => (Err e, w1)
  | Ok event => (Ok event, w1)
  end.

Definition List_ (offset limit : Z) (eventType : string) (w : World)
  : result (list Event) * World :=
  EventRepository.List_ offset limit eventType w.

End EventService.

(* ===================================================================== *)
(** ** Request validation: regexp and strconv *)
(* ===================================================================== *)

Module regexp.

(** The syntax a pattern such as [^[a-z0-9]+$] compiles to.  A character
    class is a list of inclusive ranges. *)
Inductive Regexp :=
| BeginText
| EndText
| CharClass (ranges : list (ascii * ascii))
| Plus (r : Regexp)
| Concat (r1 r2 : Regexp).

Definition in_range (c : ascii) (range : ascii * ascii) : bool :=
  (nat_of_ascii range.1 <=? nat_of_ascii c) && (nat_of_ascii c <=? nat_of_ascii range.2).

Definition in_class (ranges : list (ascii * ascii)) (c : ascii) : bool :=
  existsb (in_range c) ranges.

(** A position in the text: whether it is the beginning of the text, and
    what is left to read. *)
Definition position := (bool * string)%type.

(** One or more rounds of [step]; [fuel] bounds the number of rounds. *)
Fixpoint plus_loop (step : position -> list position) (fuel : nat) (p : position)
  : list position :=
  match fuel with
  | O => []
  | S n => let once := step p in once ++ flat_map (plus_loop step n) once
  end.

(** All positions at which a match of [r] that starts at [p] can end. *)
Fixpoint run (r : Regexp) (p : position) : list position :=
  match r with
  | BeginText => if p.1 then [p] else []
  | EndText => match p.2 with EmptyString => [p] | String _ _ => [] end
  | CharClass ranges =>
    match p.2 with
    | String c rest => if in_class ranges c then [(false, rest)] else []
    | EmptyString => []
    end
  | Plus r1 => plus_loop (run r1) (S (String.length p.2)) p
  | Concat r1 r2 => flat_map (run r2) (run r1 p)
  end.

Definition matches_at (r : Regexp) (p : position) : bool :=
  match run r p with [] => false | _ :: _ => true end.

(** An unanchored search: a match may start at any position. *)
Fixpoint search (r : Regexp) (start : bool) (s : string) : bool :=
  matches_at r (start, s) ||
  match s with
  | String _ rest => search r false rest
  | EmptyString => false
  end.

Definition MatchString (r : Regexp) (s : string) : bool := search r true s.

End regexp.

Module strconv.

Inductive NumError := ErrSyntax | ErrRange.

Definition is_digit (c : ascii) : bool :=
  (nat_of_ascii "0" <=? nat_of_ascii c) && (nat_of_ascii c <=? nat_of_ascii "9").

Definition digit_val (c : ascii) : Z := Z.of_nat (nat_of_ascii c) - 48.

Fixpoint all_digits (s : string) : bool :=
  match s with
  | EmptyString => true
  | String c rest => is_digit c && all_digits rest
  end.

Fixpoint decimal (acc : Z) (s : string) : Z :=
  match s with
  | EmptyString => acc
  | String c rest => decimal (acc * 10 + digit_val c) rest
  end.

Definition MaxInt : Z := 9223372036854775807.
Definition MinInt : Z := -9223372036854775808.

(** [strconv.Atoi]: an optional sign, then one or more decimal digits;
    the value has to fit a (64-bit) [int].  Like the Go function it
    returns a value and an error: 0 with a syntax error, the nearest
    bound with a range error. *)
Definition Atoi (s : string) : Z * option NumError :=
  let '(neg, ds) :=
    match s with
    | String "-" rest => (true, rest)
    | String "+" rest => (false, rest)
    | _ => (false, s)
    end in
  match ds with
  | EmptyString => (0%Z, Some ErrSyntax)
  | _ =>
    if all_digits ds then
      let n := decimal 0 ds in
      let v := if neg then (- n)%Z else n in
      if (v <? MinInt)%Z then (MinInt, Some ErrRange)
      else if (MaxInt <? v)%Z then (MaxInt, Some ErrRange)
      else (v, None)
    else (0%Z, Some ErrSyntax)
  end.

End strconv.

(* ===================================================================== *)
(** ** EventHandler *)
(* ===================================================================== *)

Record StartRequest := mkStartRequest { req_Type : string }.
Record ErrorResponse := mkErrorResponse { Message : string }.

(** [regexp.MustCompile(`^[a-z0-9]+$`)] *)
Definition typePattern : regexp.Regexp :=
  regexp.Concat regexp.BeginText
    (regexp.Concat
       (regexp.Plus (regexp.CharClass [("a", "z"); ("0", "9")]%char))
       regexp.EndText).

Definition validateEventType (eventType : string) : bool :=
  regexp.MatchString typePattern eventType.

Module gin.

(** What a handler reads of a request: the JSON body decoded into a
    [StartRequest] ([None] when the body is not JSON of that shape; a
    missing field decodes to the empty string), and the query string as
    [url.Values]. *)
Record Context := mkContext {
  json_body : option StartRequest;
  query_values : gmap string (list string)
}.

(** [ShouldBindJSON]: decoding, then the [binding:"required"] check,
    which refuses the zero value. *)
Definition ShouldBindJSON (c : Context) : option StartRequest :=
  match json_body c with
  | Some req => if String.eqb (req_Type req) EmptyString then None else Some req
  | None => None
  end.

(** [c.Query(key)]: the first value of the key, or the empty string. *)
Definition Query (c : Context) (key : string) : string :=
  match query_values c !! key with
  | Some (v :: _) => v
  | _ => EmptyString
  end.

Inductive Payload :=
| ErrorJSON (e : ErrorResponse)
| EventJSON (e : EventResponse)
| EventsJSON (events : list Event).

(** [c.JSON(status, payload)] *)
Record Response := JSON { status : Z; payload : Payload }.

End gin.

Module http.
Definition StatusOK : Z := 200.
Definition StatusBadRequest : Z := 400.
Definition StatusNotFound : Z := 404.
Definition StatusInternalServerError : Z := 500.
End http.

Module EventHandler.
Import gin.

(** [err != nil] *)
Definition is_Some_b {A : Type} (o : option A) : bool :=
  match o with Some _ => true | None => false end.

Definition Start (c : Context) (w : World) : Response * World :=
  match ShouldBindJSON c with
  | None =>
    (JSON http.StatusBadRequest
       (ErrorJSON {| Message := "Поле 'type' обязательно и не может быть пустым" |}), w)
  | Some req =>
    if negb (validateEventType (req_Type req)) then
      (JSON http.StatusBadRequest
         (ErrorJSON {| Message := "Тип события должен содержать только строчные буквы и цифры" |}), w)
    else
      let '(r, w1) := EventService.Start (req_Type req) w in
      match r with
      | Err _ =>
        (JSON http.StatusInternalServerError
           (ErrorJSON {| Message := "Не удалось создать событие" |}), w1)
      | Ok event => (JSON http.StatusOK (EventJSON (ToResponse event)), w1)
      end
  end.

Definition Finish (c : Context) (w : World) : Response * World :=
  match ShouldBindJSON c with
  | None =>
    (JSON http.StatusBadRequest
       (ErrorJSON {| Message := "Поле 'type' обязательно и не может быть пустым" |}), w)
  | Some req =>
    if negb (validateEventType (req_Type req)) then
      (JSON http.StatusBadRequest
         (ErrorJSON {| Message := "Тип события должен содержать только строчные буквы и цифры" |}), w)
    else
      let '(r, w1) := EventService.Finish (req_Type req) w in
      match r with
      | Err ErrNoDocuments =>
        (JSON http.StatusNotFound
           (ErrorJSON {| Message := "Активное событие указанного типа не найдено" |}), w1)
      | Err _ =>
        (JSON http.StatusInternalServerError
           (ErrorJSON {| Message := "Не удалось завершить событие" |}), w1)
      | Ok event => (JSON http.StatusOK (EventJSON (ToResponse event)), w1)
      end
  end.

(** [var offset int] and [var limit int] keep their zero value when the
    parameter is the empty string; [bad] is the condition under which the
    handler answers 400 and returns. *)
Definition List_ (c : Context) (w : World) : Response * World :=
  let offsetStr := Query c "offset" in
  let '(offset, bad) :=
    if negb (String.eqb offsetStr EmptyString) then
      let '(offset, err) := strconv.Atoi offsetStr in
      (offset, is_Some_b err || (offset <? 0)%Z)
    else (0%Z, false) in
  if bad then
    (JSON http.StatusBadRequest
       (ErrorJSON {| Message := "Параметр 'offset' должен быть неотрицательным числом" |}), w)
  else
    let limitStr := Query c "limit" in
    let '(limit, bad) :=
      if negb (String.eqb limitStr EmptyString) then
        let '(limit, err) := strconv.Atoi limitStr in
        (limit, is_Some_b err || (limit <? 0)%Z || (limit >? 100)%Z)
      else (0%Z, false) in
    if bad then
      (JSON http.StatusBadRequest
         (ErrorJSON {| Message := "Параметр 'limit' должен быть числом от 0 до 100" |}), w)
    else
      let eventType := Query c "type" in
      let '(r, w1) := EventService.List_ offset limit eventType w in
      match r with
      | Err _ =>
        (JSON http.StatusInternalServerError
           (ErrorJSON {| Message := "Не удалось получить список событий" |}), w1)
      | Ok events => (JSON http.StatusOK (EventsJSON events), w1)
      end.

End EventHandler.

(* ===================================================================== *)
(** ** Vocabulary of the specification *)
(* ===================================================================== *)

(** A row of type [t] in state Active. *)
Definition is_active_of (t : string) (e : Event) : bool :=
  String.eqb (Type_ e) t && (State_ e =? Active)%Z.

Definition has_type (t : string) (e : Event) : bool := String.eqb (Type_ e) t.

Definition active_rows (t : string) (rows : list Event) : list Event :=
  List.filter (is_active_of t) rows.

(** Invariant I1: at most one Active row per type. *)
Definition I1 (rows : list Event) : Prop :=
  forall t, length (active_rows t rows) <= 1.

(** The row [Create] builds, once the store has given it the id [oid]. *)
Definition new_row (oid : ObjectID) (t : string) (now : Time) : Event :=
  {| ID := oid; Type_ := t; State_ := Active; StartedAt := now; FinishedAt := None |}.

(** I1 as a check that can be run on a given collection. *)
Definition I1_check (rows : list Event) : bool :=
  forallb (fun e => length (active_rows (Type_ e) rows) <=? 1) rows.

(** The row [e] after its transition to Finished at time [now]. *)
Definition finished_at (now : Time) (e : Event) : Event :=
  {| ID := ID e; Type_ := Type_ e; State_ := Finished;
     StartedAt := StartedAt e; FinishedAt := Some now |}.

(** The fault, if any, of the [i]-th coming driver call. *)
Definition fault_at (i : nat) (w : World) : option string :=
  nth i (faults w) None.

(** The store proper: the collection and the ObjectID generator. *)
Definition same_store (w w' : World) : Prop :=
  docs w' = docs w /\ next_oid w' = next_oid w.

(** Identifiers are unique and the generator is ahead of all of them. *)
Definition store_wf (w : World) : Prop :=
  NoDup (map ID (docs w)) /\
  Forall (fun e => (ID e < next_oid w)%N) (docs w) /\
  (NilObjectID < next_oid w)%N.

(** The start times of the rows are BSON dates, as they are in a
    collection that only the driver writes. *)
Definition dates_stored (rows : list Event) : Prop :=
  Forall (fun e => bson.date (StartedAt e) = StartedAt e) rows.

(** No stored row has started after the current reading of the clock. *)
Definition clock_ok (w : World) : Prop :=
  Forall (fun e => (StartedAt e <= clock w)%Z) (docs w).

(** The order of a listing: most recently started first. *)
Definition started_desc (a b : Event) : bool := (StartedAt b <=? StartedAt a)%Z.

(** The rows a type filter keeps: all of them when the filter is empty. *)
Definition restrict (f : string) (rows : list Event) : list Event :=
  if String.eqb f EmptyString then rows else List.filter (has_type f) rows.

(** The listing as the specification words it: restrict to the type,
    sort by [startedAt] descending, drop [k] rows, and keep at most [m]
    rows when [m] is positive. *)
Definition list_spec (k m : Z) (f : string) (rows : list Event) : list Event :=
  let ordered := stable_sort started_desc (restrict f rows) in
  let rest := drop (Z.to_nat k) ordered in
  if (m >? 0)%Z then take (Z.to_nat m) rest else rest.

(** Invariants I2 and I3 on one row: a row is Active without finishedAt,
    or Finished with a finishedAt that is not before its startedAt. *)
Definition row_ok (e : Event) : Prop :=
  (State_ e = Active /\ FinishedAt e = None) \/
  (State_ e = Finished /\
   exists t, FinishedAt e = Some t /\ (StartedAt e <= t)%Z).

(** The environment may advance the clock and decide anew which of the
    coming storage calls fail. *)
Definition set_env (now : Time) (script : list (option string)) (w : World) : World :=
  {| docs := docs w; next_oid := next_oid w; clock := now;
     faults := script; trace := trace w |}.

(** Sequential executions: one operation of the service at a time, the
    environment moving in between. *)
Inductive step : World -> World -> Prop :=
| step_Start t w : step w (EventService.Start t w).2
| step_Finish t w : step w (EventService.Finish t w).2
| step_List k m f w : step w (EventService.List_ k m f w).2
| step_env now script w : (clock w <= now)%Z -> step w (set_env now script w).

Inductive reachable : World -> Prop :=
| reachable_init now script :
    reachable {| docs := []; next_oid := 1%N; clock := now;
                 faults := script; trace := [] |}
| reachable_step w w' : reachable w -> step w w' -> reachable w'.

(** The characters a type may consist of. *)
Definition lowercase_letter (c : ascii) : Prop :=
  nat_of_ascii "a" <= nat_of_ascii c <= nat_of_ascii "z".

Definition decimal_digit (c : ascii) : Prop :=
  nat_of_ascii "0" <= nat_of_ascii c <= nat_of_ascii "9".

(** The format of a type as the specification words it: not empty, and
    only lowercase letters and digits. *)
Definition well_formed_type (s : string) : Prop :=
  s <> EmptyString /\
  forall c, In c (list_ascii_of_string s) -> lowercase_letter c \/ decimal_digit c.

(** Every character of [s] is in the class. *)
Fixpoint all_in_class (ranges : list (ascii * ascii)) (s : string) : bool :=
  match s with
  | EmptyString => true
  | String c rest => regexp.in_class ranges c && all_in_class ranges rest
  end.

Definition is_empty (s : string) : bool :=
  match s with EmptyString => true | String _ _ => false end.

(** One of the positions is the end of the text. *)
Definition reaches_end (l : list regexp.position) : bool :=
  existsb (fun p => is_empty p.2) l.

(** The pagination parameters of a request are accepted with offset [k]
    and limit [m]: an empty parameter (which is what [Query] returns for
    an absent one) stands for 0, any other has to parse, without error,
    to a value in range. *)
Definition accepted_offset (offsetStr : string) (k : Z) : Prop :=
  (offsetStr = EmptyString /\ k = 0%Z) \/
  (offsetStr <> EmptyString /\ strconv.Atoi offsetStr = (k, None) /\ (0 <= k)%Z).

Definition accepted_limit (limitStr : string) (m : Z) : Prop :=
  (limitStr = EmptyString /\ m = 0%Z) \/
  (limitStr <> EmptyString /\ strconv.Atoi limitStr = (m, None) /\ (0 <= m <= 100)%Z).

(** What the List handler answers once the service has returned. *)
Definition list_response (r : result (list Event)) : gin.Response :=
  match r with
  | Err _ =>
    gin.JSON http.StatusInternalServerError
      (gin.ErrorJSON {| Message := "Не удалось получить список событий" |})
  | Ok events => gin.JSON http.StatusOK (gin.EventsJSON events)
  end.

(** A store for the examples: a finished and a running meeting, and a
    running call; the clock reads 50 ms and 250 ns. *)
Definition demo_world : World :=
  {| docs := [ {| ID := 1%N; Type_ := "meeting"; State_ := Finished;
                  StartedAt := 10000000%Z; FinishedAt := Some 20000000%Z |};
               {| ID := 2%N; Type_ := "meeting"; State_ := Active;
                  StartedAt := 30000000%Z; FinishedAt := None |};
               {| ID := 3%N; Type_ := "call"; State_ := Active;
                  StartedAt := 40000000%Z; FinishedAt := None |} ];
     next_oid := 4%N; clock := 50000250%Z; faults := []; trace := [] |}.

Definition empty_world : World :=
  {| docs := []; next_oid := 1%N; clock := 0%Z; faults := []; trace := [] |}.

(** A GET request with the given query string. *)
Definition get (q : gmap string (list string)) : gin.Context :=
  {| gin.json_body := None; gin.query_values := q |}.

(** A POST request whose body is [{"type": t}]. *)
Definition post (t : string) : gin.Context :=
  {| gin.json_body := Some {| req_Type := t |}; gin.query_values := ∅ |}.

(* ===================================================================== *)
(** ** The API test runner (package main): helpers on responses *)
(* ===================================================================== *)

Definition is_hex_rune (r : ascii) : bool :=
  ((nat_of_ascii "0" <=? nat_of_ascii r) && (nat_of_ascii r <=? nat_of_ascii "9")) ||
  ((nat_of_ascii "a" <=? nat_of_ascii r) && (nat_of_ascii r <=? nat_of_ascii "f")) ||
  ((nat_of_ascii "A" <=? nat_of_ascii r) && (nat_of_ascii r <=? nat_of_ascii "F")).

(** The loop over the characters of [id], which returns false at the
    first one that is not a hexadecimal digit. *)
Fixpoint all_hex (id : string) : bool :=
  match id with
  | EmptyString => true
  | String r rest => if negb (is_hex_rune r) then false else all_hex rest
  end.

Definition isValidObjectID (id : string) : bool :=
  if negb (String.length id =? 24) then false
  else if String.eqb id "000000000000000000000000" then false
  else all_hex id.

(** Go's [int], 64 bits wide, with its wrap-around. *)
Definition wrap_int (z : Z) : Z := ((z + 2 ^ 63) mod 2 ^ 64 - 2 ^ 63)%Z.

Record TestResult := mkTestResult {
  tr_Number : Z;
  tr_Name : string;
  tr_Status : string;
  tr_Message : string;
  tr_Expected : string;
  tr_Actual : string;
  tr_Duration : Z
}.

(** [TestSuite] without its output file, which [AddResult] does not
    touch. *)
Record TestSuite := mkTestSuite {
  Results : list TestResult;
  StartTime : Time;
  EndTime : Time;
  Passed : Z;
  Failed : Z
}.

(** The suite [NewTestSuite] returns. *)
Definition NewTestSuite : TestSuite :=
  {| Results := []; StartTime := 0%Z; EndTime := 0%Z; Passed := 0%Z; Failed := 0%Z |}.

Definition AddResult (r : TestResult) (ts : TestSuite) : TestSuite :=
  {| Results := Results ts ++ [r];
     StartTime := StartTime ts; EndTime := EndTime ts;
     Passed := if String.eqb (tr_Status r) "PASS"
               then wrap_int (Passed ts + 1) else Passed ts;
     Failed := if String.eqb (tr_Status r) "PASS"
               then Failed ts else wrap_int (Failed ts + 1) |}.

(* ===================================================================== *)
(** ** Further vocabulary *)
(* ===================================================================== *)

(** An ObjectID has 12 bytes. *)
Definition ObjectID_bound : N := (2 ^ 96)%N.

(** Reading a string of hexadecimal digits back as a number. *)
Definition unhex_digit (c : ascii) : N :=
  let n := N.of_nat (nat_of_ascii c) in
  if is_hex_rune c then
    if (n <=? 57)%N then (n - 48)%N
    else if (n <=? 70)%N then (n - 55)%N
    else (n - 87)%N
  else 0%N.

Fixpoint unhex (acc : N) (s : string) : N :=
  match s with
  | EmptyString => acc
  | String c rest => unhex (acc * 16 + unhex_digit c)%N rest
  end.

(** The number of results of a suite with status PASS. *)
Definition count_pass (l : list TestResult) : nat :=
  length (List.filter (fun r => String.eqb (tr_Status r) "PASS") l).

(** Every stored type passes the handlers' format check. *)
Definition types_ok (rows : list Event) : Prop :=
  Forall (fun e => validateEventType (Type_ e) = true) rows.

(** Sequential executions through the HTTP handlers only. *)
Inductive hstep : World -> World -> Prop :=
| hstep_Start c w : hstep w (EventHandler.Start c w).2
| hstep_Finish c w : hstep w (EventHandler.Finish c w).2
| hstep_List c w : hstep w (EventHandler.List_ c w).2
| hstep_env now script w : (clock w <= now)%Z -> hstep w (set_env now script w).

Inductive hreachable : World -> Prop :=
| hreachable_init now script :
    hreachable {| docs := []; next_oid := 1%N; clock := now;
                  faults := script; trace := [] |}
| hreachable_step w w' : hreachable w -> hstep w w' -> hreachable w'.

(** The two starts of a race on one type, call by call: both look for an
    Active row before either of them creates one. *)
Definition racing_starts (t : string) (w : World)
  : result (option Event) * result (option Event) * result Event * result Event * World :=
  let '(a1, w1) := EventRepository.FindActive t w in
  let '(b1, w2) := EventRepository.FindActive t w1 in
  let '(a2, w3) := EventRepository.Create t w2 in
  let '(b2, w4) := EventRepository.Create t w3 in
  (a1, b1, a2, b2, w4).


(* ===================================================================== *)
(** ** Filters, updates and the sort order of the repository *)
(* ===================================================================== *)

Lemma active_filter_to_list t :
  map_to_list (EventRepository.active_filter t) =
  [("state", bson.VInt Active); ("type", bson.VString t)].
Proof. vm_compute. reflexivity. Qed.

Lemma matches_active_filter t e :
  bson.matches (EventRepository.active_filter t) e = is_active_of t e.
Proof.
  unfold bson.matches. rewrite active_filter_to_list.
  unfold is_active_of. cbn. rewrite andb_true_r, andb_comm. reflexivity.
Qed.

Lemma matches_empty e : bson.matches ∅ e = true.
Proof. reflexivity. Qed.

Lemma matches_type_filter t e :
  bson.matches (<[ "type" := bson.VString t ]> ∅) e = has_type t e.
Proof.
  unfold bson.matches.
  replace (map_to_list (<[ "type" := bson.VString t ]> (∅ : bson.M)))
    with [("type", bson.VString t)] by (vm_compute; reflexivity).
  cbn. apply andb_true_r.
Qed.

Lemma apply_finish_update now e :
  bson.apply_update
    (bson.Set_ {[ "state" := bson.VInt Finished; "finished_at" := bson.VDate now ]}) e
  = finished_at (bson.date now) e.
Proof. reflexivity. Qed.

Lemma precedes_started_at_desc a b :
  bson.precedes [("started_at", (-1)%Z)] a b = (StartedAt b <=? StartedAt a)%Z.
Proof.
  unfold bson.precedes. cbn.
  destruct (Z.compare_spec (StartedAt a) (StartedAt b)); cbn; symmetry;
    [apply Z.leb_le | apply Z.leb_gt | apply Z.leb_le]; lia.
Qed.

(* ===================================================================== *)
(** ** The driver calls, one by one *)
(* ===================================================================== *)

Lemma find_ext_bool {A} (p q : A -> bool) l :
  (forall x, p x = q x) -> List.find p l = List.find q l.
Proof.
  intros E. induction l as [|x l IH]; cbn; [reflexivity|].
  rewrite E, IH. reflexivity.
Qed.

Lemma filter_ext_bool {A} (p q : A -> bool) l :
  (forall x, p x = q x) -> List.filter p l = List.filter q l.
Proof.
  intros E. induction l as [|x l IH]; cbn; [reflexivity|].
  rewrite E, IH. reflexivity.
Qed.

Lemma update_first_ext p q f l :
  (forall x, p x = q x) -> update_first p f l = update_first q f l.
Proof.
  intros E. induction l as [|x l IH]; cbn; [reflexivity|].
  rewrite E, IH. reflexivity.
Qed.

Lemma update_first_None p f l :
  update_first p f l = None <-> List.find p l = None.
Proof.
  induction l as [|x l IH]; cbn; [tauto|].
  destruct (p x); [split; discriminate|].
  destruct (update_first p f l) as [[found l']|]; rewrite <- IH;
    split; (discriminate || reflexivity).
Qed.

(** What [update_first] does when it finds a row: the row found is the
    first one satisfying [p], and it alone is replaced. *)
Lemma update_first_Some p f l found l' :
  update_first p f l = Some (found, l') ->
  exists l1 l2,
    l = l1 ++ found :: l2 /\ l' = l1 ++ f found :: l2 /\
    p found = true /\ List.find p l = Some found /\
    List.find p l1 = None.
Proof.
  revert l'. induction l as [|x l IH]; intros l'; cbn; [discriminate|].
  destruct (p x) eqn:Px.
  - intros [= <- <-]. exists [], l. cbn. auto.
  - destruct (update_first p f l) as [[found' l'']|]; [|discriminate].
    intros [= -> <-]. destruct (IH _ eq_refl) as (l1 & l2 & -> & -> & Pf & Hf & H1).
    exists (x :: l1), l2. cbn. rewrite Px. auto.
Qed.

Lemma fault_at_enter c i w : fault_at i (enter c w).2 = fault_at (S i) w.
Proof. unfold fault_at. cbn. destruct (faults w); destruct i; reflexivity. Qed.

Lemma enter_fault c w : (enter c w).1 = fault_at 0 w.
Proof. unfold fault_at. cbn. destruct (faults w); reflexivity. Qed.

Lemma FindActive_eq t w :
  EventRepository.FindActive t w =
  (match fault_at 0 w with
   | Some msg => Err (ErrDriver msg)
   | None => Ok (List.find (is_active_of t) (docs w))
   end,
   (enter (CFindOne (EventRepository.active_filter t)) w).2).
Proof.
  unfold EventRepository.FindActive, FindOne.
  rewrite (surjective_pairing (enter _ w)), enter_fault.
  destruct (fault_at 0 w); [reflexivity|].
  rewrite (find_ext_bool _ _ _ (matches_active_filter t)). cbn [docs snd enter].
  destruct (List.find _ _); reflexivity.
Qed.

Lemma Create_eq t w :
  EventRepository.Create t w =
  let w1 := (enter (CInsertOne (new_row NilObjectID t (clock w))) w).2 in
  match fault_at 0 w with
  | Some msg => (Err (ErrDriver msg), w1)
  | None =>
    if has_id (next_oid w) (docs w)
    then (Err (ErrDriver "E11000 duplicate key error"), w1)
    else (Ok (new_row (next_oid w) t (clock w)),
          {| docs := docs w ++ [new_row (next_oid w) t (bson.date (clock w))];
             next_oid := (next_oid w + 1)%N;
             clock := clock w; faults := faults w1; trace := trace w1 |})
  end.
Proof.
  unfold EventRepository.Create, InsertOne, time_Now.
  fold (new_row NilObjectID t (clock w)).
  rewrite (surjective_pairing (enter _ w)), enter_fault.
  destruct (fault_at 0 w); [reflexivity|].
  cbn [ID new_row N.eqb NilObjectID docs next_oid snd enter].
  destruct (has_id _ _); reflexivity.
Qed.

Lemma Finish_eq t w :
  EventRepository.Finish t w =
  let w1 := (enter (CFindOneAndUpdate (EventRepository.active_filter t)
                      (bson.Set_ {[ "state" := bson.VInt Finished;
                                    "finished_at" := bson.VDate (clock w) ]})
                      After) w).2 in
  match fault_at 0 w with
  | Some msg => (Err (ErrDriver msg), w1)
  | None =>
    match update_first (is_active_of t) (finished_at (bson.date (clock w))) (docs w) with
    | Some (found, l) =>
      (Ok (finished_at (bson.date (clock w)) found), set_docs l w1)
    | None => (Err ErrNoDocuments, w1)
    end
  end.
Proof.
  unfold EventRepository.Finish, FindOneAndUpdate, time_Now.
  rewrite (surjective_pairing (enter _ w)), enter_fault.
  destruct (fault_at 0 w); [reflexivity|].
  cbn [docs snd enter].
  rewrite (update_first_ext _ _ _ _ (matches_active_filter t)).
  change (bson.apply_update _) with (finished_at (bson.date (clock w))).
  destruct (update_first _ _ _) as [[found l]|]; reflexivity.
Qed.

Lemma Service_Finish_eq t w : EventService.Finish t w = EventRepository.Finish t w.
Proof.
  unfold EventService.Finish. destruct (EventRepository.Finish t w) as [[ev|[]] w1];
    reflexivity.
Qed.

(* ===================================================================== *)
(** ** The stable sort *)
(* ===================================================================== *)

Section StableSortFacts.
Context {A : Type} (le : A -> A -> bool).
Hypothesis le_total : forall a b, le a b = false -> le b a = true.
Hypothesis le_trans : forall a b c, le a b = true -> le b c = true -> le a c = true.

Lemma insert_sorted_perm x l : Permutation (insert_sorted le x l) (x :: l).
Proof.
  induction l as [|y l IH]; cbn; [reflexivity|].
  destruct (le x y); [reflexivity|].
  rewrite IH. apply perm_swap.
Qed.

Lemma stable_sort_perm l : Permutation (stable_sort le l) l.
Proof.
  induction l as [|x l IH]; cbn; [reflexivity|].
  rewrite insert_sorted_perm. apply perm_skip, IH.
Qed.

Lemma stable_sort_length l : length (stable_sort le l) = length l.
Proof. apply Permutation_length, stable_sort_perm. Qed.

Lemma insert_sorted_sorted x l :
  StronglySorted (fun a b => le a b = true) l ->
  StronglySorted (fun a b => le a b = true) (insert_sorted le x l).
Proof.
  induction 1 as [|y l Hl IH Hy]; cbn.
  - repeat constructor.
  - destruct (le x y) eqn:Exy.
    + constructor; [constructor; assumption|].
      constructor; [assumption|].
      eapply Forall_impl; [exact Hy|]. intros z Hz. cbn in Hz. eauto.
    + constructor; [assumption|].
      eapply Permutation_Forall; [symmetry; apply insert_sorted_perm|].
      constructor; [apply le_total, Exy | assumption].
Qed.

Lemma stable_sort_sorted l : StronglySorted (fun a b => le a b = true) (stable_sort le l).
Proof.
  induction l as [|x l IH]; cbn; [constructor|].
  apply insert_sorted_sorted, IH.
Qed.

Lemma insert_sorted_front x l :
  Forall (fun z => le x z = true) l -> insert_sorted le x l = x :: l.
Proof. destruct 1 as [|y l Hy _]; cbn; [reflexivity|]. rewrite Hy. reflexivity. Qed.

Lemma insert_sorted_filter (p : A -> bool) x l :
  StronglySorted (fun a b => le a b = true) l ->
  List.filter p (insert_sorted le x l) =
  if p x then insert_sorted le x (List.filter p l) else List.filter p l.
Proof.
  induction 1 as [|y l Hl IH Hy]; cbn.
  - destruct (p x); reflexivity.
  - destruct (le x y) eqn:Exy; cbn.
    + destruct (p x) eqn:Px; [|reflexivity].
      symmetry. apply insert_sorted_front.
      assert (Hall : Forall (fun z => le x z = true) (y :: l)).
      { constructor; [assumption|].
        eapply Forall_impl; [exact Hy|]. intros z Hz. cbn in Hz. eauto. }
      change (if p y then y :: List.filter p l else List.filter p l)
        with (List.filter p (y :: l)).
      rewrite Forall_forall in Hall |- *.
      intros z Hz. apply Hall. apply list_elem_of_In in Hz.
      apply list_elem_of_In. apply filter_In in Hz. tauto.
    + rewrite IH. destruct (p y) eqn:Py, (p x) eqn:Px; cbn;
        rewrite ?Exy; reflexivity.
Qed.

(** Stability, in the form the listing needs: filtering the sorted list
    is sorting the filtered list. *)
Lemma stable_sort_filter (p : A -> bool) l :
  List.filter p (stable_sort le l) = stable_sort le (List.filter p l).
Proof.
  induction l as [|x l IH]; cbn; [reflexivity|].
  rewrite insert_sorted_filter by apply stable_sort_sorted.
  rewrite IH. destruct (p x); reflexivity.
Qed.

End StableSortFacts.

Lemma insert_sorted_ext {A} (le le' : A -> A -> bool) x l :
  (forall a b, le a b = le' a b) -> insert_sorted le x l = insert_sorted le' x l.
Proof.
  intros E. induction l as [|y l IH]; cbn; [reflexivity|].
  rewrite E, IH. reflexivity.
Qed.

Lemma stable_sort_ext {A} (le le' : A -> A -> bool) l :
  (forall a b, le a b = le' a b) -> stable_sort le l = stable_sort le' l.
Proof.
  intros E. induction l as [|x l IH]; cbn; [reflexivity|].
  rewrite IH. apply insert_sorted_ext, E.
Qed.

Lemma started_desc_total a b : started_desc a b = false -> started_desc b a = true.
Proof. unfold started_desc. rewrite Z.leb_gt, Z.leb_le. lia. Qed.

Lemma started_desc_trans a b c :
  started_desc a b = true -> started_desc b c = true -> started_desc a c = true.
Proof. unfold started_desc. rewrite !Z.leb_le. lia. Qed.

(* ===================================================================== *)
(** ** The listing *)
(* ===================================================================== *)

Lemma filter_true {A} (l : list A) : List.filter (fun _ => true) l = l.
Proof. induction l as [|x l IH]; cbn; [|rewrite IH]; reflexivity. Qed.

Lemma query_list_spec k m f rows :
  let filter : bson.M :=
    if String.eqb f EmptyString then ∅ else <[ "type" := bson.VString f ]> ∅ in
  let opts := SetSort [("started_at", (-1)%Z)] Find_ in
  let opts := if (k >? 0)%Z then SetSkip k opts else opts in
  let opts := if (m >? 0)%Z then SetLimit m opts else opts in
  query filter opts rows = list_spec k m f rows.
Proof.
  cbv zeta. unfold query, list_spec, restrict.
  assert (Hsort : forall o, Sort (if (m >? 0)%Z then SetLimit m o else o) = Sort o)
    by (intros o; destruct (m >? 0)%Z; reflexivity).
  assert (Hsort' : forall o, Sort (if (k >? 0)%Z then SetSkip k o else o) = Sort o)
    by (intros o; destruct (k >? 0)%Z; reflexivity).
  rewrite Hsort, Hsort'. cbn [Sort SetSort sort_docs].
  rewrite (stable_sort_ext _ started_desc _ precedes_started_at_desc).
  assert (Hf : List.filter
                 (bson.matches (if String.eqb f EmptyString then ∅
                                else <[ "type" := bson.VString f ]> ∅)) rows
               = if String.eqb f EmptyString then rows else List.filter (has_type f) rows).
  { destruct (String.eqb f EmptyString).
    - rewrite (filter_ext_bool _ (fun _ => true) _ matches_empty). apply filter_true.
    - apply filter_ext_bool, matches_type_filter. }
  rewrite Hf. set (ordered := stable_sort started_desc _).
  assert (Hskip : skip_docs (Skip (if (m >? 0)%Z
                                   then SetLimit m (if (k >? 0)%Z then SetSkip k (SetSort [("started_at", (-1)%Z)] Find_) else SetSort [("started_at", (-1)%Z)] Find_)
                                   else (if (k >? 0)%Z then SetSkip k (SetSort [("started_at", (-1)%Z)] Find_) else SetSort [("started_at", (-1)%Z)] Find_))) ordered
                  = drop (Z.to_nat k) ordered).
  { destruct (m >? 0)%Z; destruct (k >? 0)%Z eqn:Ek; cbn; try reflexivity;
      rewrite Z.gtb_ltb, Z.ltb_ge in Ek; replace (Z.to_nat k) with 0 by lia;
      reflexivity. }
  rewrite Hskip. destruct (m >? 0)%Z eqn:Em; cbn [Limit SetLimit limit_docs].
  - apply Z.gtb_lt in Em. replace (m =? 0)%Z with false by (symmetry; apply Z.eqb_neq; lia).
    rewrite Z.abs_eq by lia. reflexivity.
  - destruct (k >? 0)%Z; reflexivity.
Qed.

Lemma List_eq k m f w :
  exists c,
    let w1 := (enter c w).2 in
    let w2 := (enter CCursorAll w1).2 in
    EventRepository.List_ k m f w =
    match fault_at 0 w with
    | Some msg => (Err (ErrDriver msg), w1)
    | None =>
      match fault_at 1 w with
      | Some msg => (Err (ErrDriver msg), w2)
      | None => (Ok (list_spec k m f (docs w)), w2)
      end
    end.
Proof.
  eexists. cbv zeta. unfold EventRepository.List_, Find, cursor_All.
  rewrite (surjective_pairing (enter (CFind _ _) w)), enter_fault.
  destruct (fault_at 0 w); [reflexivity|].
  rewrite (surjective_pairing (enter CCursorAll _)), enter_fault, fault_at_enter.
  destruct (fault_at 1 w); [reflexivity|].
  cbn [docs snd enter]. rewrite (query_list_spec k m f (docs w)). reflexivity.
Qed.

(* ===================================================================== *)
(** ** BSON dates *)
(* ===================================================================== *)

Lemma date_le t : (bson.date t <= t)%Z.
Proof. unfold bson.date. pose proof (Z.mul_div_le t 1000000). lia. Qed.

Lemma date_gt t : (t - 1000000 < bson.date t)%Z.
Proof.
  unfold bson.date. pose proof (Z.mod_pos_bound t 1000000).
  pose proof (Z.div_mod t 1000000). lia.
Qed.

Lemma date_idem t : bson.date (bson.date t) = bson.date t.
Proof. unfold bson.date. rewrite Z.div_mul by lia. reflexivity. Qed.

Lemma date_mono a b : (a <= b)%Z -> (bson.date a <= bson.date b)%Z.
Proof.
  intros H. unfold bson.date.
  apply Z.mul_le_mono_nonneg_r; [lia|]. apply Z.div_le_mono; lia.
Qed.

(** A stored date that is not after [t] is not after [t] as stored. *)
Lemma date_below a t : bson.date a = a -> (a <= t)%Z -> (a <= bson.date t)%Z.
Proof. intros E H. rewrite <- E. apply date_mono, H. Qed.

Lemma stored_new_row oid t now :
  bson.stored (new_row oid t now) = new_row oid t (bson.date now).
Proof. reflexivity. Qed.

(* ===================================================================== *)
(** ** Active rows *)
(* ===================================================================== *)

Lemma is_active_of_spec t e :
  is_active_of t e = true <-> Type_ e = t /\ State_ e = Active.
Proof.
  unfold is_active_of. rewrite andb_true_iff, String.eqb_eq, Z.eqb_eq. tauto.
Qed.

Lemma find_none_filter {A} (p : A -> bool) l :
  List.find p l = None <-> List.filter p l = [].
Proof.
  induction l as [|x l IH]; cbn; [tauto|].
  destruct (p x); [split; discriminate | exact IH].
Qed.

Lemma find_none_active t rows :
  List.find (is_active_of t) rows = None <->
  (forall e, In e rows -> ~ (Type_ e = t /\ State_ e = Active)).
Proof.
  split.
  - intros H e He Hact. apply is_active_of_spec in Hact.
    pose proof (find_none _ _ H e He) as Hn. congruence.
  - intros H. destruct (List.find _ _) as [e|] eqn:E; [|reflexivity].
    apply find_some in E as [He Hact]. apply is_active_of_spec in Hact.
    exfalso. eapply H; eassumption.
Qed.

Lemma find_some_active t rows :
  (exists e, In e rows /\ Type_ e = t /\ State_ e = Active) ->
  exists e, List.find (is_active_of t) rows = Some e /\
            In e rows /\ Type_ e = t /\ State_ e = Active.
Proof.
  intros (e0 & He0 & Hact0).
  destruct (List.find (is_active_of t) rows) as [e|] eqn:E.
  - exists e. apply find_some in E as [He Hact]. apply is_active_of_spec in Hact. tauto.
  - exfalso. eapply find_none_active; eassumption.
Qed.

Lemma is_active_new_row t' oid t now :
  is_active_of t' (new_row oid t now) = String.eqb t t'.
Proof. unfold is_active_of. cbn. apply andb_true_r. Qed.

Lemma is_active_finished t now e : is_active_of t (finished_at now e) = false.
Proof. unfold is_active_of. cbn. apply andb_false_r. Qed.

Lemma active_rows_app t l1 l2 :
  active_rows t (l1 ++ l2) = active_rows t l1 ++ active_rows t l2.
Proof. apply List.filter_app. Qed.

(** Appending an Active row of a type that has none keeps I1. *)
Lemma I1_insert t oid now rows :
  List.find (is_active_of t) rows = None ->
  I1 rows -> I1 (rows ++ [new_row oid t now]).
Proof.
  intros Hnone H t'. rewrite active_rows_app, length_app.
  unfold active_rows at 2. cbn [List.filter]. rewrite is_active_new_row.
  destruct (String.eqb_spec t t') as [<-|Hne]; cbn.
  - apply find_none_filter in Hnone. unfold active_rows. rewrite Hnone. cbn. lia.
  - specialize (H t'). lia.
Qed.

(** Finishing a row keeps I1. *)
Lemma I1_finish now e l1 l2 :
  I1 (l1 ++ e :: l2) -> I1 (l1 ++ finished_at now e :: l2).
Proof.
  intros H t'. specialize (H t'). revert H.
  rewrite !active_rows_app, !length_app. unfold active_rows at 2 4.
  cbn [List.filter]. rewrite is_active_finished.
  destruct (is_active_of t' e); cbn [length]; fold (active_rows t' l2); lia.
Qed.

(* ===================================================================== *)
(** ** The service operations, one by one *)
(* ===================================================================== *)

Lemma Start_eq t w :
  EventService.Start t w =
  let w1 := (enter (CFindOne (EventRepository.active_filter t)) w).2 in
  match fault_at 0 w with
  | Some msg => (Err (ErrDriver msg), w1)
  | None =>
    match List.find (is_active_of t) (docs w) with
    | Some e => (Ok e, w1)
    | None => EventRepository.Create t w1
    end
  end.
Proof.
  unfold EventService.Start. rewrite FindActive_eq. cbv zeta.
  destruct (fault_at 0 w); [reflexivity|].
  destruct (List.find _ _); reflexivity.
Qed.

Lemma has_id_false oid rows :
  Forall (fun e => (ID e < oid)%N) rows -> has_id oid rows = false.
Proof.
  unfold has_id. induction 1 as [|e l He _ IH]; cbn; [reflexivity|].
  rewrite IH, orb_false_r. apply N.eqb_neq. lia.
Qed.

(** The store after [Start]: unchanged, or extended by the new row. *)
Lemma Start_store t w :
  let w' := (EventService.Start t w).2 in
  same_store w w' \/
  (List.find (is_active_of t) (docs w) = None /\
   docs w' = docs w ++ [new_row (next_oid w) t (bson.date (clock w))] /\
   next_oid w' = (next_oid w + 1)%N).
Proof.
  cbv zeta. rewrite Start_eq. cbv zeta.
  destruct (fault_at 0 w); [left; split; reflexivity|].
  destruct (List.find _ _) eqn:E; [left; split; reflexivity|].
  rewrite Create_eq. cbv zeta. rewrite fault_at_enter.
  destruct (fault_at 1 w); [left; split; reflexivity|].
  cbn [docs next_oid clock snd enter].
  destruct (has_id _ _); [left; split; reflexivity|].
  right. cbn. auto.
Qed.

(** The store after [Finish]: unchanged, or one Active row of the type
    finished in place. *)
Lemma Finish_store t w :
  let w' := (EventService.Finish t w).2 in
  next_oid w' = next_oid w /\
  (docs w' = docs w \/
   exists l1 e l2,
     docs w = l1 ++ e :: l2 /\ docs w' = l1 ++ finished_at (bson.date (clock w)) e :: l2 /\
     Type_ e = t /\ State_ e = Active).
Proof.
  cbv zeta. rewrite Service_Finish_eq, Finish_eq. cbv zeta.
  destruct (fault_at 0 w); [split; [reflexivity | left; reflexivity]|].
  destruct (update_first _ _ _) as [[found l]|] eqn:E;
    [|split; [reflexivity | left; reflexivity]].
  split; [reflexivity|]. right.
  apply update_first_Some in E as (l1 & l2 & Hl & -> & Hact & _).
  apply is_active_of_spec in Hact. exists l1, found, l2. cbn. tauto.
Qed.

Lemma List_store k m f w : same_store w (EventService.List_ k m f w).2.
Proof.
  unfold EventService.List_. destruct (List_eq k m f w) as [c ->].
  destruct (fault_at 0 w); [split; reflexivity|].
  destruct (fault_at 1 w); split; reflexivity.
Qed.

Lemma Start_I1 t w : I1 (docs w) -> I1 (docs (EventService.Start t w).2).
Proof.
  intros H. destruct (Start_store t w) as [[-> _] | (Hnone & -> & _)]; [assumption|].
  apply I1_insert; assumption.
Qed.

Lemma Finish_I1 t w : I1 (docs w) -> I1 (docs (EventService.Finish t w).2).
Proof.
  intros H.
  destruct (Finish_store t w) as [_ [-> | (l1 & e & l2 & Hw & -> & _)]]; [assumption|].
  apply I1_finish. rewrite <- Hw. assumption.
Qed.

Lemma List_I1 k m f w : I1 (docs w) -> I1 (docs (EventService.List_ k m f w).2).
Proof. intros H. destruct (List_store k m f w) as [-> _]. assumption. Qed.

(** C1. Invariant I1 under sequential execution: from any store in which
    every type has at most one Active row, each of Start(t), Finish(t) and
    List(offset, limit, f) leaves a store in which every type has at most
    one Active row, for every type and all parameter values, whatever the
    clock reads and whichever storage calls fail. *)
Theorem I1_preserved (w : World) (t : string) (offset limit : Z) (f : string) :
  I1 (docs w) ->
  I1 (docs (EventService.Start t w).2) /\
  I1 (docs (EventService.Finish t w).2) /\
  I1 (docs (EventService.List_ offset limit f w).2).
Proof.
  intros H. split; [|split].
  - apply Start_I1, H.
  - apply Finish_I1, H.
  - apply List_I1, H.
Qed.

(* ===================================================================== *)
(** ** Well-formed stores *)
(* ===================================================================== *)

Lemma NoDup_ids_inj rows a b :
  NoDup (map ID rows) -> In a rows -> In b rows -> ID a = ID b -> a = b.
Proof.
  induction rows as [|x l IH]; cbn; [tauto|].
  rewrite NoDup_cons. intros [Hx Hl] [<-|Ha] [<-|Hb] E; auto.
  - exfalso. apply Hx. rewrite E. apply list_elem_of_In, in_map, Hb.
  - exfalso. apply Hx. rewrite <- E. apply list_elem_of_In, in_map, Ha.
Qed.

Lemma store_wf_same w w' : same_store w w' -> store_wf w -> store_wf w'.
Proof. intros [Hd Hn] H. unfold store_wf. rewrite Hd, Hn. exact H. Qed.

Lemma store_wf_insert w w' e :
  store_wf w -> ID e = next_oid w ->
  docs w' = docs w ++ [e] -> next_oid w' = (next_oid w + 1)%N ->
  store_wf w'.
Proof.
  intros (Hnd & Hlt & Hpos) Hid Hd Hn. unfold store_wf. rewrite Hd, Hn.
  split; [|split].
  - rewrite map_app. cbn. apply NoDup_app. split; [assumption|]. split.
    + intros x Hx Hx'. apply list_elem_of_In in Hx, Hx'.
      destruct Hx' as [Hx'|[]]. apply in_map_iff in Hx as (e0 & E0 & He0).
      rewrite Forall_forall in Hlt. apply list_elem_of_In, Hlt in He0. lia.
    + apply NoDup_singleton.
  - apply Forall_app. split.
    + eapply Forall_impl; [exact Hlt|]. cbn. intros; lia.
    + constructor; [lia | constructor].
  - unfold NilObjectID in *. lia.
Qed.

(** What a successful [Start] returns: a row that was there, or the row
    it has just added under the next generated id. *)
Lemma Start_result t w e w' :
  EventService.Start t w = (Ok e, w') ->
  Type_ e = t /\ State_ e = Active /\
  ((In e (docs w) /\ same_store w w') \/
   (List.find (is_active_of t) (docs w) = None /\
    e = new_row (next_oid w) t (clock w) /\
    docs w' = docs w ++ [bson.stored e] /\ next_oid w' = (next_oid w + 1)%N)).
Proof.
  rewrite Start_eq. cbv zeta.
  destruct (fault_at 0 w); [discriminate|].
  destruct (List.find _ _) as [e0|] eqn:E.
  - intros [= -> <-]. apply find_some in E as [He Hact].
    apply is_active_of_spec in Hact as [-> ->].
    split; [reflexivity|]. split; [reflexivity|]. left. repeat split. assumption.
  - rewrite Create_eq. cbv zeta. rewrite fault_at_enter.
    destruct (fault_at 1 w); [discriminate|].
    cbn [docs next_oid clock snd enter].
    destruct (has_id _ _); [discriminate|].
    intros [= <- <-]. cbn. split; [reflexivity|]. split; [reflexivity|].
    right. repeat split.
Qed.

Lemma Start_wf t w : store_wf w -> store_wf (EventService.Start t w).2.
Proof.
  intros H. destruct (Start_store t w) as [Hs | (_ & Hd & Hn)].
  - eapply store_wf_same; eassumption.
  - eapply store_wf_insert; try eassumption. reflexivity.
Qed.

Lemma Finish_wf t w : store_wf w -> store_wf (EventService.Finish t w).2.
Proof.
  intros (Hnd & Hlt & Hpos).
  destruct (Finish_store t w) as [Hn [Hd | (l1 & e & l2 & Hw & Hd & _)]];
    unfold store_wf; rewrite Hn, Hd; [tauto|].
  rewrite Hw in Hnd, Hlt. split; [|split; [|assumption]].
  - rewrite map_app in *. exact Hnd.
  - rewrite Forall_app in *. destruct Hlt as [H1 H2]. split; [assumption|].
    rewrite Forall_cons in *. exact H2.
Qed.

Lemma Start_clock_ok t w : clock_ok w -> clock_ok (EventService.Start t w).2.
Proof.
  intros H. assert (Hc : clock (EventService.Start t w).2 = clock w).
  { rewrite Start_eq. cbv zeta. destruct (fault_at 0 w); [reflexivity|].
    destruct (List.find _ _); [reflexivity|].
    rewrite Create_eq. cbv zeta. rewrite fault_at_enter.
    destruct (fault_at 1 w); [reflexivity|].
    cbn [docs next_oid clock snd enter]. destruct (has_id _ _); reflexivity. }
  unfold clock_ok. rewrite Hc.
  destruct (Start_store t w) as [[-> _] | (_ & -> & _)]; [assumption|].
  apply Forall_app. split; [assumption|].
  constructor; [cbn; apply date_le | constructor].
Qed.

Lemma Start_returns_existing t w :
  fault_at 0 w = None ->
  (exists e, In e (docs w) /\ Type_ e = t /\ State_ e = Active) ->
  exists e w',
    EventService.Start t w = (Ok e, w') /\
    In e (docs w) /\ Type_ e = t /\ State_ e = Active /\
    docs w' = docs w /\ next_oid w' = next_oid w /\
    trace w' = trace w ++ [CFindOne (EventRepository.active_filter t)].
Proof.
  intros F0 Hex. apply find_some_active in Hex as (e & Hfind & He & Ht & Hs).
  exists e. eexists. rewrite Start_eq. cbv zeta. rewrite F0, Hfind.
  repeat split; assumption.
Qed.

Lemma Start_appends t w :
  store_wf w -> fault_at 0 w = None -> fault_at 1 w = None ->
  (forall e, In e (docs w) -> ~ (Type_ e = t /\ State_ e = Active)) ->
  exists e w',
    EventService.Start t w = (Ok e, w') /\
    docs w' = docs w ++ [bson.stored e] /\
    Type_ e = t /\ State_ e = Active /\ StartedAt e = time_Now w /\
    FinishedAt e = None /\
    ID e = next_oid w /\ (forall e0, In e0 (docs w) -> ID e0 <> ID e).
Proof.
  intros (Hnd & Hlt & Hpos) F0 F1 Hnone. apply find_none_active in Hnone.
  eexists. eexists. rewrite Start_eq. cbv zeta. rewrite F0, Hnone.
  rewrite Create_eq. cbv zeta. rewrite fault_at_enter, F1.
  cbn [docs next_oid clock snd enter]. rewrite (has_id_false _ _ Hlt).
  repeat split. cbn. intros e0 He0 E.
  rewrite Forall_forall in Hlt. apply list_elem_of_In, Hlt in He0. lia.
Qed.

(** C2, as amended.  The Start contract.  When no storage call fails: if
    an Active row of type [t] exists, Start(t) returns such a row as it
    is stored (same id, same startedAt, every field as stored) after a
    single read, and leaves the collection and the id generator as they
    were, so no row is updated and none inserted; if none exists,
    Start(t) appends exactly one row, of type [t], Active, with no
    finishedAt, under an id no stored row has, started at the current
    time as a BSON date keeps it (milliseconds), and returns a row with
    that id, type and state, no finishedAt, and the current time as it
    was read: the row returned is not read back from the store, and its
    startedAt is later than the stored one by less than a millisecond
    (the two are the same instant exactly when the clock reading is a
    whole number of milliseconds). *)
Theorem Start_contract (t : string) (w : World) :
  store_wf w -> fault_at 0 w = None -> fault_at 1 w = None ->
  ((exists e, In e (docs w) /\ Type_ e = t /\ State_ e = Active) ->
   exists e w',
     EventService.Start t w = (Ok e, w') /\
     In e (docs w) /\ Type_ e = t /\ State_ e = Active /\
     docs w' = docs w /\ next_oid w' = next_oid w /\
     trace w' = trace w ++ [CFindOne (EventRepository.active_filter t)]) /\
  ((forall e, In e (docs w) -> ~ (Type_ e = t /\ State_ e = Active)) ->
   exists e r w',
     EventService.Start t w = (Ok e, w') /\
     docs w' = docs w ++ [r] /\
     Type_ e = t /\ State_ e = Active /\ StartedAt e = time_Now w /\
     FinishedAt e = None /\
     ID e = next_oid w /\ (forall e0, In e0 (docs w) -> ID e0 <> ID e) /\
     ID r = ID e /\ Type_ r = t /\ State_ r = Active /\ FinishedAt r = None /\
     StartedAt r = bson.date (time_Now w) /\
     (time_Now w - 1000000 < StartedAt r <= time_Now w)%Z /\
     (StartedAt r = StartedAt e <-> bson.date (time_Now w) = time_Now w)).
Proof.
  intros Hwf F0 F1. split.
  - apply Start_returns_existing, F0.
  - intros Hnone.
    destruct (Start_appends t w Hwf F0 F1 Hnone)
      as (e & w' & Hs & Hd & Ht & Hst & Hnow & Hfin & Hid & Hfresh).
    exists e, (bson.stored e), w'.
    split; [exact Hs|]. split; [exact Hd|].
    split; [exact Ht|]. split; [exact Hst|]. split; [exact Hnow|].
    split; [exact Hfin|]. split; [exact Hid|]. split; [exact Hfresh|].
    split; [reflexivity|]. split; [exact Ht|]. split; [exact Hst|].
    split; [cbn; rewrite Hfin; reflexivity|].
    split; [cbn; rewrite Hnow; reflexivity|].
    split; [cbn; rewrite Hnow; split; [apply date_gt | apply date_le]|].
    rewrite <- Hnow. cbn [bson.stored StartedAt]. tauto.
Qed.

(** C2 as stated fails where it says that the row returned is the row
    inserted: at a clock reading of 50 ms and 250 ns the row Start
    returns has that startedAt, and the row in the collection has a
    startedAt of 50 ms. *)
Lemma Start_returns_its_own_struct :
  ~ (forall (t : string) (w w' : World) (e : Event),
        store_wf w -> fault_at 0 w = None -> fault_at 1 w = None ->
        (forall e0, In e0 (docs w) -> ~ (Type_ e0 = t /\ State_ e0 = Active)) ->
        EventService.Start t w = (Ok e, w') ->
        docs w' = docs w ++ [e]).
Proof.
  intros H.
  assert (Hwf : store_wf demo_world).
  { unfold store_wf, demo_world. cbn. split; [|split].
    - rewrite !NoDup_cons, !list_elem_of_In. cbn.
      repeat split; try apply NoDup_nil_2; intuition discriminate.
    - repeat constructor.
    - reflexivity. }
  specialize (H "task" demo_world (EventService.Start "task" demo_world).2
                (new_row 4%N "task" 50000250%Z) Hwf eq_refl eq_refl).
  assert (Hd : docs (EventService.Start "task" demo_world).2
               = docs demo_world ++ [new_row 4%N "task" 50000000%Z])
    by (vm_compute; reflexivity).
  rewrite Hd in H. apply app_inv_head in H.
  - discriminate H.
  - intros e0 He0 [Ht _]. cbn in He0.
    destruct He0 as [<-|[<-|[<-|[]]]]; discriminate.
  - vm_compute. reflexivity.
Qed.

(** C3. Finish and NotFound.  Finish(t) returns the NotFound error
    exactly when its storage call does not fail and the store holds no
    Active row of type [t]; this covers a type that was never started and
    a type all of whose rows are Finished.  With NotFound the collection
    and the id generator are unchanged.  A storage failure is returned as
    it is, and it changes nothing either. *)
Theorem Finish_NotFound (t : string) (w : World) :
  ((EventService.Finish t w).1 = Err ErrNoDocuments <->
   fault_at 0 w = None /\
   forall e, In e (docs w) -> ~ (Type_ e = t /\ State_ e = Active)) /\
  (fault_at 0 w = None ->
   (forall e, In e (docs w) -> Type_ e <> t) ->
   (EventService.Finish t w).1 = Err ErrNoDocuments) /\
  (fault_at 0 w = None ->
   (forall e, In e (docs w) -> Type_ e = t -> State_ e = Finished) ->
   (EventService.Finish t w).1 = Err ErrNoDocuments) /\
  ((EventService.Finish t w).1 = Err ErrNoDocuments ->
   same_store w (EventService.Finish t w).2) /\
  (forall msg, fault_at 0 w = Some msg ->
   (EventService.Finish t w).1 = Err (ErrDriver msg) /\
   same_store w (EventService.Finish t w).2).
Proof.
  assert (Hiff : (EventService.Finish t w).1 = Err ErrNoDocuments <->
                 fault_at 0 w = None /\
                 forall e, In e (docs w) -> ~ (Type_ e = t /\ State_ e = Active)).
  { rewrite <- find_none_active, <- (update_first_None _ (finished_at (bson.date (clock w)))).
    rewrite Service_Finish_eq, Finish_eq. cbv zeta.
    destruct (fault_at 0 w); [cbn; split; [discriminate | intros [? _]; discriminate]|].
    destruct (update_first _ _ _) as [[found l]|]; cbn.
    - split; [discriminate | intros [_ ?]; discriminate].
    - tauto. }
  split; [exact Hiff|]. split; [|split; [|split]].
  - intros F0 Hnever. apply Hiff. split; [assumption|].
    intros e He [Ht _]. exact (Hnever e He Ht).
  - intros F0 Hfin. apply Hiff. split; [assumption|].
    intros e He [Ht Hs]. specialize (Hfin e He Ht).
    rewrite Hs in Hfin. discriminate.
  - rewrite Service_Finish_eq, Finish_eq. cbv zeta.
    destruct (fault_at 0 w); [discriminate|].
    destruct (update_first _ _ _) as [[found l]|]; [discriminate|].
    intros _. split; reflexivity.
  - intros msg F0. rewrite Service_Finish_eq, Finish_eq. cbv zeta. rewrite F0.
    repeat split.
Qed.

(** C4, as amended.  What a successful Finish does.  When an Active row
    of type [t] exists and the storage call does not fail, Finish(t)
    makes one storage call, a find-and-update that returns the document
    after the update; the first Active row [e] of type [t] is replaced in
    place by the same row (same id, type and startedAt) in state Finished
    with finishedAt the current time as a BSON date keeps it; all other
    rows stay; and the row returned is the row after the transition.
    The two times are never compared: finishedAt is not before startedAt
    when the row's startedAt is a stored date that is not after the
    clock reading of the call. *)
Theorem Finish_transition (t : string) (w : World) :
  (exists e, In e (docs w) /\ Type_ e = t /\ State_ e = Active) ->
  fault_at 0 w = None ->
  exists e l1 l2 e' w',
    docs w = l1 ++ e :: l2 /\
    Type_ e = t /\ State_ e = Active /\
    (forall x, In x l1 -> ~ (Type_ x = t /\ State_ x = Active)) /\
    EventService.Finish t w = (Ok e', w') /\
    docs w' = l1 ++ e' :: l2 /\ next_oid w' = next_oid w /\
    trace w' =
      trace w ++
      [CFindOneAndUpdate
         (EventRepository.active_filter t)
         (bson.Set_ {[ "state" := bson.VInt Finished;
                       "finished_at" := bson.VDate (time_Now w) ]})
         After] /\
    ID e' = ID e /\ Type_ e' = Type_ e /\ StartedAt e' = StartedAt e /\
    State_ e' = Finished /\ FinishedAt e' = Some (bson.date (time_Now w)) /\
    (time_Now w - 1000000 < bson.date (time_Now w) <= time_Now w)%Z /\
    (bson.date (StartedAt e) = StartedAt e -> (StartedAt e <= time_Now w)%Z ->
     (StartedAt e' <= bson.date (time_Now w))%Z).
Proof.
  intros Hex F0.
  apply find_some_active in Hex as (e0 & Hfind & _).
  destruct (update_first (is_active_of t) (finished_at (bson.date (clock w))) (docs w))
    as [[e l]|] eqn:E.
  2:{ apply update_first_None in E. congruence. }
  destruct (update_first_Some _ _ _ _ _ E) as (l1 & l2 & Hw & -> & Hact & _ & Hl1).
  apply is_active_of_spec in Hact as [Ht Hs].
  exists e, l1, l2, (finished_at (bson.date (clock w)) e). eexists.
  rewrite Service_Finish_eq, Finish_eq. cbv zeta. rewrite F0, E.
  split; [exact Hw|]. split; [exact Ht|]. split; [exact Hs|].
  split; [apply find_none_active, Hl1|].
  split; [reflexivity|]. unfold time_Now.
  cbn [docs set_docs next_oid trace snd enter finished_at
       ID Type_ State_ StartedAt FinishedAt].
  repeat split.
  - apply date_gt.
  - apply date_le.
  - apply date_below.
Qed.

(** C4 as stated fails where it promises finishedAt >= startedAt: with
    an Active row started at 100 ms and a clock that reads 50 ms, Finish
    succeeds and returns a row finished at 50 ms. *)
Lemma Finish_with_a_clock_behind :
  ~ (forall (t : string) (w w' : World) (e' : Event) (finished : Time),
        (exists e, In e (docs w) /\ Type_ e = t /\ State_ e = Active) ->
        fault_at 0 w = None ->
        EventService.Finish t w = (Ok e', w') ->
        FinishedAt e' = Some finished ->
        (StartedAt e' <= finished)%Z).
Proof.
  intros H.
  pose (w := {| docs := [new_row 1%N "meeting" 100000000%Z]; next_oid := 2%N;
                clock := 50000000%Z; faults := []; trace := [] |}).
  specialize (H "meeting" w (EventService.Finish "meeting" w).2
                (finished_at 50000000%Z (new_row 1%N "meeting" 100000000%Z))
                50000000%Z).
  cbn [StartedAt finished_at new_row] in H.
  assert (Hle : (100000000 <= 50000000)%Z).
  { apply H.
    - eexists. split; [left; reflexivity|]. split; reflexivity.
    - reflexivity.
    - vm_compute. reflexivity.
    - reflexivity. }
  lia.
Qed.

(** C8. For [findActive] absence is a normal outcome.  When no Active row
    of type [t] exists and the storage call does not fail, FindActive(t)
    returns no row and no error; it returns an error exactly when the
    storage call fails, and then that failure; when an Active row of the
    type exists it returns such a row.  It never changes the store. *)
Theorem FindActive_absent_is_not_an_error (t : string) (w : World) :
  (fault_at 0 w = None ->
   (forall e, In e (docs w) -> ~ (Type_ e = t /\ State_ e = Active)) ->
   (EventRepository.FindActive t w).1 = Ok None) /\
  (forall err,
      (EventRepository.FindActive t w).1 = Err err <->
      exists msg, fault_at 0 w = Some msg /\ err = ErrDriver msg) /\
  (fault_at 0 w = None ->
   (exists e, In e (docs w) /\ Type_ e = t /\ State_ e = Active) ->
   exists e, (EventRepository.FindActive t w).1 = Ok (Some e) /\
             In e (docs w) /\ Type_ e = t /\ State_ e = Active) /\
  same_store w (EventRepository.FindActive t w).2.
Proof.
  rewrite FindActive_eq. cbn [fst snd]. split; [|split; [|split]].
  - intros -> Hnone. apply find_none_active in Hnone. rewrite Hnone. reflexivity.
  - intros err. destruct (fault_at 0 w) as [msg|].
    + split.
      * intros [= <-]. exists msg. auto.
      * intros (msg' & [= <-] & ->). reflexivity.
    + split; [discriminate | intros (msg' & [=] & _)].
  - intros -> Hex. apply find_some_active in Hex as (e & -> & He).
    exists e. tauto.
  - split; reflexivity.
Qed.

(** When no storage call fails, Start succeeds. *)
Lemma Start_succeeds t w :
  store_wf w -> fault_at 0 w = None -> fault_at 1 w = None ->
  exists e w', EventService.Start t w = (Ok e, w').
Proof.
  intros Hwf F0 F1.
  destruct (List.find (is_active_of t) (docs w)) as [e0|] eqn:E.
  - apply find_some in E as [He Hact]. apply is_active_of_spec in Hact.
    destruct (Start_returns_existing t w F0) as (e & w' & H & _); [eauto|].
    exists e, w'. exact H.
  - destruct (Start_appends t w Hwf F0 F1 (proj1 (find_none_active _ _) E))
      as (e & w' & H & _).
    exists e, w'. exact H.
Qed.

(** The row of the collection that stands for what Start returned: the
    row itself when it was found, the row as stored when it was created. *)
Lemma Start_stored_row t w e w' :
  EventService.Start t w = (Ok e, w') ->
  exists r,
    In r (docs w') /\ ID r = ID e /\ Type_ r = t /\ State_ r = Active /\
    FinishedAt r = FinishedAt e /\
    (StartedAt e - 1000000 < StartedAt r <= StartedAt e)%Z /\
    (r = e \/ r = bson.stored e).
Proof.
  intros H.
  apply Start_result in H as (Ht & Hs & [[He [Hd _]] | (_ & -> & Hd & _)]).
  - exists e. rewrite Hd. repeat split; auto; lia.
  - eexists. rewrite Hd. split; [apply in_or_app; right; left; reflexivity|].
    cbn. repeat split; auto; [apply date_gt | apply date_le].
Qed.

Lemma Start_no_row_lost t w w' r :
  w' = (EventService.Start t w).2 -> In r (docs w) -> In r (docs w').
Proof.
  intros -> Hr. destruct (Start_store t w) as [[-> _] | (_ & -> & _)]; [exact Hr|].
  apply in_or_app. left. exact Hr.
Qed.

Lemma Start_two_types t1 t2 w e1 w1 w1' e2 w2 :
  t1 <> t2 -> store_wf w ->
  EventService.Start t1 w = (Ok e1, w1) ->
  same_store w1 w1' ->
  EventService.Start t2 w1' = (Ok e2, w2) ->
  ID e1 <> ID e2 /\
  exists r1 r2,
    In r1 (docs w2) /\ In r2 (docs w2) /\
    ID r1 = ID e1 /\ Type_ r1 = t1 /\ State_ r1 = Active /\
    ID r2 = ID e2 /\ Type_ r2 = t2 /\ State_ r2 = Active.
Proof.
  intros Hne Hwf H1 Hsame H2.
  pose proof (Start_wf t1 w Hwf) as Hwf1. rewrite H1 in Hwf1. cbn in Hwf1.
  apply (store_wf_same _ _ Hsame) in Hwf1. destruct Hsame as [Hd Hn].
  destruct (Start_stored_row _ _ _ _ H1) as (r1 & Hr1 & Hid1 & Ht1 & Hs1 & _).
  rewrite <- Hd in Hr1.
  destruct (Start_stored_row _ _ _ _ H2) as (r2 & Hr2 & Hid2 & Ht2 & Hs2 & _).
  assert (Hr1' : In r1 (docs w2)).
  { apply (Start_no_row_lost t2 w1'); [rewrite H2; reflexivity | exact Hr1]. }
  split.
  - destruct Hwf1 as (Hnd & Hlt & _). rewrite <- Hid1.
    apply Start_result in H2 as (Ht2' & _ & [[He2 _] | (_ & -> & _)]).
    + intros E. apply (NoDup_ids_inj _ _ _ Hnd Hr1 He2) in E. subst r1. congruence.
    + cbn. rewrite Forall_forall in Hlt. apply list_elem_of_In, Hlt in Hr1. lia.
  - exists r1, r2. repeat split; assumption.
Qed.

(** C9. Types are independent.  In a store with unique ids and when no
    storage call fails, Start(t1) succeeds, and Start(t2) for another
    type after it succeeds, whatever the clock and the fault script do in
    between as long as no call fails; the two rows returned have distinct
    ids, and the collection then holds an Active row of type [t1] and an
    Active row of type [t2] under those two ids.  Finish(t1) keeps the
    number of rows and changes at most one of them, an Active row of type
    [t1]: every row of another type and every row of type [t1] that is
    not Active stays where it is with all its fields. *)
Theorem types_are_independent (t1 t2 : string) (w : World) :
  t1 <> t2 -> store_wf w ->
  (fault_at 0 w = None -> fault_at 1 w = None ->
   exists e1 w1,
     EventService.Start t1 w = (Ok e1, w1) /\
     forall w1',
       same_store w1 w1' -> fault_at 0 w1' = None -> fault_at 1 w1' = None ->
       exists e2 w2 r1 r2,
         EventService.Start t2 w1' = (Ok e2, w2) /\
         ID e1 <> ID e2 /\
         In r1 (docs w2) /\ In r2 (docs w2) /\
         ID r1 = ID e1 /\ Type_ r1 = t1 /\ State_ r1 = Active /\
         ID r2 = ID e2 /\ Type_ r2 = t2 /\ State_ r2 = Active) /\
  (forall e1 w1 w1' e2 w2,
      EventService.Start t1 w = (Ok e1, w1) ->
      same_store w1 w1' ->
      EventService.Start t2 w1' = (Ok e2, w2) ->
      ID e1 <> ID e2) /\
  (length (docs (EventService.Finish t1 w).2) = length (docs w) /\
   (forall i e, docs w !! i = Some e ->
                Type_ e <> t1 \/ State_ e <> Active ->
                docs (EventService.Finish t1 w).2 !! i = Some e) /\
   (forall i j e e', docs w !! i = Some e -> docs w !! j = Some e' ->
                     docs (EventService.Finish t1 w).2 !! i <> Some e ->
                     docs (EventService.Finish t1 w).2 !! j <> Some e' ->
                     i = j)).
Proof.
  intros Hne Hwf. split; [|split].
  - intros F0 F1. destruct (Start_succeeds t1 w Hwf F0 F1) as (e1 & w1 & H1).
    exists e1, w1. split; [exact H1|]. intros w1' Hsame F0' F1'.
    assert (Hwf1 : store_wf w1').
    { apply (store_wf_same w1 w1' Hsame).
      pose proof (Start_wf t1 w Hwf) as Hw. rewrite H1 in Hw. exact Hw. }
    destruct (Start_succeeds t2 w1' Hwf1 F0' F1') as (e2 & w2 & H2).
    destruct (Start_two_types t1 t2 w e1 w1 w1' e2 w2 Hne Hwf H1 Hsame H2)
      as (Hid & r1 & r2 & Hr).
    exists e2, w2, r1, r2. split; [exact H2|]. split; [exact Hid | exact Hr].
  - intros e1 w1 w1' e2 w2 H1 Hsame H2.
    exact (proj1 (Start_two_types t1 t2 w e1 w1 w1' e2 w2 Hne Hwf H1 Hsame H2)).
  - destruct (Finish_store t1 w) as [_ [-> | (l1 & e0 & l2 & Hw & -> & Ht & Hs)]].
    + split; [reflexivity|]. split; [auto|]. intros i j e e' Hi _ Hi'. congruence.
    + rewrite Hw. split; [rewrite !length_app; reflexivity|].
      assert (Hlook : forall i, i <> length l1 ->
                (l1 ++ finished_at (bson.date (clock w)) e0 :: l2) !! i = (l1 ++ e0 :: l2) !! i).
      { intros i Hi. destruct (lt_eq_lt_dec i (length l1)) as [[Hlt|Heq]|Hgt];
          [|contradiction|].
        - rewrite !lookup_app_l by assumption. reflexivity.
        - rewrite !lookup_app_r by lia.
          destruct (i - length l1) as [|n] eqn:En; [lia|]. reflexivity. }
      split.
      * intros i e Hi Hkeep. destruct (Nat.eq_dec i (length l1)) as [->|Hi'].
        -- rewrite list_lookup_middle in Hi by reflexivity.
           injection Hi as <-. tauto.
        -- rewrite Hlook by assumption. exact Hi.
      * intros i j e e' Hi Hj Hi' Hj'.
        destruct (Nat.eq_dec i (length l1)) as [->|Ni];
          [|rewrite Hlook in Hi' by assumption; contradiction].
        destruct (Nat.eq_dec j (length l1)) as [->|Nj];
          [reflexivity | rewrite Hlook in Hj' by assumption; contradiction].
Qed.

(* ===================================================================== *)
(** ** The type pattern *)
(* ===================================================================== *)

Module regexp_facts.
Import regexp.

Lemma reaches_end_app l1 l2 :
  reaches_end (l1 ++ l2) = reaches_end l1 || reaches_end l2.
Proof. apply existsb_app. Qed.

(** Rounds of one character of the class read the whole text exactly
    when the text is not empty and all its characters are in the class. *)
Lemma plus_class_reaches_end ranges s :
  forall fuel b, String.length s <= fuel ->
  reaches_end (plus_loop (run (CharClass ranges)) fuel (b, s)) =
  negb (is_empty s) && all_in_class ranges s.
Proof.
  induction s as [|c s IH]; intros fuel b Hfuel.
  - destruct fuel; reflexivity.
  - destruct fuel as [|n]; [cbn in Hfuel; lia|]. cbn in Hfuel.
    cbn [plus_loop run snd all_in_class is_empty negb andb].
    destruct (in_class ranges c); [|reflexivity].
    cbn [flat_map app]. rewrite app_nil_r. cbn [reaches_end existsb snd].
    fold (reaches_end (plus_loop (run (CharClass ranges)) n (false, s))).
    rewrite IH by lia. destruct s; reflexivity.
Qed.

Lemma end_after l :
  match flat_map (run EndText) l with [] => false | _ :: _ => true end = reaches_end l.
Proof.
  induction l as [|[b s] l IH]; [reflexivity|].
  cbn [flat_map run snd reaches_end existsb]. destruct s; cbn; [reflexivity|].
  exact IH.
Qed.

Lemma anchored_at_start ranges s :
  matches_at (Concat BeginText (Concat (Plus (CharClass ranges)) EndText)) (true, s) =
  negb (is_empty s) && all_in_class ranges s.
Proof.
  unfold matches_at. cbn [run fst flat_map]. rewrite app_nil_r.
  rewrite end_after. cbn [snd]. apply plus_class_reaches_end. lia.
Qed.

Lemma anchored_elsewhere r s : search (Concat BeginText r) false s = false.
Proof. induction s as [|c s IH]; cbn; [reflexivity | exact IH]. Qed.

Lemma anchored_search ranges s :
  MatchString (Concat BeginText (Concat (Plus (CharClass ranges)) EndText)) s =
  negb (is_empty s) && all_in_class ranges s.
Proof.
  unfold MatchString. destruct s as [|c s].
  - reflexivity.
  - cbn [search]. rewrite anchored_elsewhere, orb_false_r. apply anchored_at_start.
Qed.

End regexp_facts.

Lemma in_type_class c :
  regexp.in_class [("a", "z"); ("0", "9")]%char c = true <->
  lowercase_letter c \/ decimal_digit c.
Proof.
  unfold regexp.in_class, regexp.in_range, lowercase_letter, decimal_digit.
  cbn [existsb fst snd]. rewrite orb_false_r, orb_true_iff, !andb_true_iff, !Nat.leb_le.
  tauto.
Qed.

Lemma validateEventType_spec s : validateEventType s = true <-> well_formed_type s.
Proof.
  unfold validateEventType, typePattern, well_formed_type.
  rewrite regexp_facts.anchored_search, andb_true_iff.
  assert (Hne : negb (is_empty s) = true <-> s <> EmptyString).
  { destruct s; cbn; split; (congruence || discriminate || auto). }
  assert (Hall : all_in_class [("a", "z"); ("0", "9")]%char s = true <->
                 forall c, In c (list_ascii_of_string s) ->
                           lowercase_letter c \/ decimal_digit c).
  { clear Hne. induction s as [|c s IH]; cbn [all_in_class list_ascii_of_string].
    - split; [intros _ c [] | reflexivity].
    - rewrite andb_true_iff, IH, in_type_class. split.
      + intros [Hc Hs] x [<-|Hx]; auto.
      + intros H. split; [apply H; left; reflexivity|].
        intros x Hx. apply H. right. exact Hx. }
  rewrite Hne, Hall. reflexivity.
Qed.

(* ===================================================================== *)
(** ** The handlers *)
(* ===================================================================== *)

Lemma eqb_empty_false s : s <> EmptyString -> String.eqb s EmptyString = false.
Proof. intros H. apply String.eqb_neq. exact H. Qed.

Lemma handler_List_accepted c w k m :
  accepted_offset (gin.Query c "offset") k ->
  accepted_limit (gin.Query c "limit") m ->
  EventHandler.List_ c w =
  (list_response (EventService.List_ k m (gin.Query c "type") w).1,
   (EventService.List_ k m (gin.Query c "type") w).2).
Proof.
  intros Hk Hm. unfold EventHandler.List_.
  assert (Ek : (if negb (String.eqb (gin.Query c "offset") EmptyString)
                then let '(offset, err) := strconv.Atoi (gin.Query c "offset") in
                     (offset, EventHandler.is_Some_b err || (offset <? 0)%Z)
                else (0%Z, false)) = (k, false)).
  { destruct Hk as [[-> ->] | (Hne & -> & Hk)]; [reflexivity|].
    rewrite (eqb_empty_false _ Hne). cbn.
    replace (k <? 0)%Z with false by (symmetry; apply Z.ltb_ge; lia). reflexivity. }
  assert (Em : (if negb (String.eqb (gin.Query c "limit") EmptyString)
                then let '(limit, err) := strconv.Atoi (gin.Query c "limit") in
                     (limit, EventHandler.is_Some_b err || (limit <? 0)%Z || (limit >? 100)%Z)
                else (0%Z, false)) = (m, false)).
  { destruct Hm as [[-> ->] | (Hne & -> & Hm)]; [reflexivity|].
    rewrite (eqb_empty_false _ Hne). cbn.
    replace (m <? 0)%Z with false by (symmetry; apply Z.ltb_ge; lia).
    replace (m >? 100)%Z with false
      by (symmetry; rewrite Z.gtb_ltb; apply Z.ltb_ge; lia).
    reflexivity. }
  rewrite Ek, Em.
  destruct (EventService.List_ k m (gin.Query c "type") w) as [[events|e] w1];
    reflexivity.
Qed.

Lemma handler_List_bad_offset c w :
  gin.Query c "offset" <> EmptyString ->
  (strconv.Atoi (gin.Query c "offset")).2 <> None \/
  ((strconv.Atoi (gin.Query c "offset")).1 < 0)%Z ->
  gin.status (EventHandler.List_ c w).1 = http.StatusBadRequest /\
  (EventHandler.List_ c w).2 = w.
Proof.
  intros Hne Hbad. unfold EventHandler.List_. rewrite (eqb_empty_false _ Hne).
  cbn [negb]. destruct (strconv.Atoi (gin.Query c "offset")) as [k err].
  cbn [fst snd] in Hbad.
  replace (EventHandler.is_Some_b err || (k <? 0)%Z) with true; [split; reflexivity|].
  symmetry. destruct err; [reflexivity|]. cbn.
  destruct Hbad as [?|Hk]; [congruence|]. apply Z.ltb_lt, Hk.
Qed.

Lemma handler_List_bad_limit c w k :
  accepted_offset (gin.Query c "offset") k ->
  gin.Query c "limit" <> EmptyString ->
  (strconv.Atoi (gin.Query c "limit")).2 <> None \/
  ((strconv.Atoi (gin.Query c "limit")).1 < 0)%Z \/
  (100 < (strconv.Atoi (gin.Query c "limit")).1)%Z ->
  gin.status (EventHandler.List_ c w).1 = http.StatusBadRequest /\
  (EventHandler.List_ c w).2 = w.
Proof.
  intros Hk Hne Hbad. unfold EventHandler.List_.
  assert (Ek : (if negb (String.eqb (gin.Query c "offset") EmptyString)
                then let '(offset, err) := strconv.Atoi (gin.Query c "offset") in
                     (offset, EventHandler.is_Some_b err || (offset <? 0)%Z)
                else (0%Z, false)) = (k, false)).
  { destruct Hk as [[-> ->] | (Hne' & -> & Hk)]; [reflexivity|].
    rewrite (eqb_empty_false _ Hne'). cbn.
    replace (k <? 0)%Z with false by (symmetry; apply Z.ltb_ge; lia). reflexivity. }
  rewrite Ek, (eqb_empty_false _ Hne). cbn [negb].
  destruct (strconv.Atoi (gin.Query c "limit")) as [m err]. cbn [fst snd] in Hbad.
  replace (EventHandler.is_Some_b err || (m <? 0)%Z || (m >? 100)%Z) with true;
    [split; reflexivity|].
  symmetry. destruct err; [reflexivity|]. cbn.
  destruct Hbad as [?|[Hm|Hm]]; [congruence| |].
  - apply orb_true_iff. left. apply Z.ltb_lt, Hm.
  - apply orb_true_iff. right. rewrite Z.gtb_ltb. apply Z.ltb_lt, Hm.
Qed.

(* ===================================================================== *)
(** ** Invariants of sequential executions *)
(* ===================================================================== *)

Lemma Start_clock t w : clock (EventService.Start t w).2 = clock w.
Proof.
  rewrite Start_eq. cbv zeta. destruct (fault_at 0 w); [reflexivity|].
  destruct (List.find _ _); [reflexivity|].
  rewrite Create_eq. cbv zeta. rewrite fault_at_enter.
  destruct (fault_at 1 w); [reflexivity|].
  cbn [docs next_oid clock snd enter]. destruct (has_id _ _); reflexivity.
Qed.

Lemma Finish_clock t w : clock (EventService.Finish t w).2 = clock w.
Proof.
  rewrite Service_Finish_eq, Finish_eq. cbv zeta.
  destruct (fault_at 0 w); [reflexivity|].
  destruct (update_first _ _ _) as [[found l]|]; reflexivity.
Qed.

Lemma List_clock k m f w : clock (EventService.List_ k m f w).2 = clock w.
Proof.
  unfold EventService.List_. destruct (List_eq k m f w) as [c ->].
  destruct (fault_at 0 w); [reflexivity|]. destruct (fault_at 1 w); reflexivity.
Qed.

Lemma Finish_clock_ok t w : clock_ok w -> clock_ok (EventService.Finish t w).2.
Proof.
  unfold clock_ok. rewrite Finish_clock.
  destruct (Finish_store t w) as [_ [-> | (l1 & e & l2 & -> & -> & _)]]; [auto|].
  rewrite !Forall_app, !Forall_cons. cbn. tauto.
Qed.

Lemma Start_rows_ok t w : Forall row_ok (docs w) -> Forall row_ok (docs (EventService.Start t w).2).
Proof.
  intros H. destruct (Start_store t w) as [[-> _] | (_ & -> & _)]; [assumption|].
  apply Forall_app. split; [assumption|].
  constructor; [left; split; reflexivity | constructor].
Qed.

Lemma Finish_rows_ok t w :
  clock_ok w -> dates_stored (docs w) ->
  Forall row_ok (docs w) -> Forall row_ok (docs (EventService.Finish t w).2).
Proof.
  intros Hc Hdates H.
  destruct (Finish_store t w) as [_ [-> | (l1 & e & l2 & Hw & -> & _)]]; [assumption|].
  unfold clock_ok in Hc. unfold dates_stored in Hdates. rewrite Hw in H, Hc, Hdates.
  rewrite !Forall_app, !Forall_cons in *.
  destruct H as (H1 & _ & H2). destruct Hc as (_ & Hc & _).
  destruct Hdates as (_ & Hdate & _).
  repeat split; try assumption.
  right. split; [reflexivity|]. exists (bson.date (clock w)).
  split; [reflexivity|]. apply date_below; assumption.
Qed.

Lemma Start_dates_stored t w :
  dates_stored (docs w) -> dates_stored (docs (EventService.Start t w).2).
Proof.
  unfold dates_stored. intros H.
  destruct (Start_store t w) as [[-> _] | (_ & -> & _)]; [assumption|].
  apply Forall_app. split; [assumption|].
  constructor; [apply date_idem | constructor].
Qed.

Lemma Finish_dates_stored t w :
  dates_stored (docs w) -> dates_stored (docs (EventService.Finish t w).2).
Proof.
  unfold dates_stored. intros H.
  destruct (Finish_store t w) as [_ [-> | (l1 & e & l2 & Hw & -> & _)]]; [assumption|].
  rewrite Hw in H. rewrite !Forall_app, !Forall_cons in *. exact H.
Qed.

(** In every state a sequential execution reaches from the empty
    collection, I1, I2 and I3 hold, identifiers are unique, no row has
    started after the current time, and the start times are BSON
    dates. *)
Lemma reachable_invariants w :
  reachable w ->
  I1 (docs w) /\ Forall row_ok (docs w) /\ store_wf w /\ clock_ok w /\
  dates_stored (docs w).
Proof.
  induction 1 as [now script | w w' Hw (HI1 & Hrows & Hwf & Hclock & Hdates) Hstep].
  - split; [intros t; cbn; lia|]. split; [constructor|].
    split; [|split; constructor].
    split; [constructor|]. split; [constructor | reflexivity].
  - destruct Hstep as [t w | t w | k m f w | now script w Hnow].
    + split; [apply Start_I1, HI1|].
      split; [apply Start_rows_ok, Hrows|].
      split; [apply Start_wf, Hwf|].
      split; [apply Start_clock_ok, Hclock | apply Start_dates_stored, Hdates].
    + split; [apply Finish_I1, HI1|].
      split; [apply Finish_rows_ok; assumption|].
      split; [apply Finish_wf, Hwf|].
      split; [apply Finish_clock_ok, Hclock | apply Finish_dates_stored, Hdates].
    + destruct (List_store k m f w) as [Hd Hn].
      unfold clock_ok, store_wf. rewrite List_clock, Hd, Hn. auto.
    + split; [exact HI1|]. split; [exact Hrows|]. split; [exact Hwf|].
      split; [|exact Hdates].
      unfold clock_ok in *. cbn. eapply Forall_impl; [exact Hclock|].
      cbn. intros; lia.
Qed.

(* ===================================================================== *)
(** ** Checks on concrete stores *)
(* ===================================================================== *)

Lemma I1_check_sound rows : I1_check rows = true -> I1 rows.
Proof.
  intros H t. destruct (active_rows t rows) as [|e l] eqn:E; [cbn; lia|].
  assert (He : In e (active_rows t rows)) by (rewrite E; left; reflexivity).
  apply filter_In in He as [He Hact]. apply is_active_of_spec in Hact as [Ht _].
  unfold I1_check in H. rewrite forallb_forall in H. specialize (H e He).
  rewrite Ht, E in H. apply Nat.leb_le in H. exact H.
Qed.

Lemma demo_world_wf : store_wf demo_world.
Proof.
  unfold store_wf, demo_world. cbn. split; [|split].
  - rewrite !NoDup_cons, !list_elem_of_In. cbn.
    repeat split; try apply NoDup_nil_2; intuition discriminate.
  - repeat constructor.
  - reflexivity.
Qed.

Lemma demo_world_clock_ok : clock_ok demo_world.
Proof. unfold clock_ok, demo_world. cbn. repeat constructor; cbn; lia. Qed.

Lemma I1_preserved_witness :
  I1 (docs demo_world) /\
  I1 (docs (EventService.Start "call" demo_world).2) /\
  I1 (docs (EventService.Finish "call" demo_world).2) /\
  I1 (docs (EventService.List_ 1 2 "meeting" demo_world).2).
Proof.
  assert (H : I1 (docs demo_world)) by (apply I1_check_sound; reflexivity).
  split; [exact H|]. exact (I1_preserved demo_world "call" 1 2 "meeting" H).
Defined.

Lemma Start_contract_witness :
  store_wf demo_world /\ fault_at 0 demo_world = None /\ fault_at 1 demo_world = None /\
  (exists e w',
      EventService.Start "call" demo_world = (Ok e, w') /\
      In e (docs demo_world) /\ docs w' = docs demo_world) /\
  (exists e r w',
      EventService.Start "task" demo_world = (Ok e, w') /\
      docs w' = docs demo_world ++ [r] /\ Type_ e = "task" /\ ID e = 4%N /\
      StartedAt e = 50000250%Z /\ StartedAt r = 50000000%Z).
Proof.
  split; [exact demo_world_wf|]. split; [reflexivity|]. split; [reflexivity|].
  split.
  - destruct (Start_contract "call" demo_world demo_world_wf eq_refl eq_refl)
      as [Hsome _].
    destruct Hsome as (e & w' & H & He & _ & _ & Hd & _).
    + eexists. split; [right; right; left; reflexivity|]. split; reflexivity.
    + exists e, w'. auto.
  - destruct (Start_contract "task" demo_world demo_world_wf eq_refl eq_refl)
      as [_ Hnone].
    destruct Hnone
      as (e & r & w' & H & Hd & Ht & _ & Hnow & _ & Hid & _ & _ & _ & _ & _ & Hr & _).
    + intros e He [Ht _]. cbn in He.
      destruct He as [<-|[<-|[<-|[]]]]; discriminate.
    + exists e, r, w'. auto 7.
Defined.

Lemma Finish_transition_witness :
  (exists e, In e (docs demo_world) /\ Type_ e = "meeting" /\ State_ e = Active) /\
  fault_at 0 demo_world = None /\
  exists e' w',
    EventService.Finish "meeting" demo_world = (Ok e', w') /\
    State_ e' = Finished /\ FinishedAt e' = Some 50000000%Z.
Proof.
  assert (Hex : exists e, In e (docs demo_world) /\ Type_ e = "meeting" /\ State_ e = Active).
  { eexists. split; [right; left; reflexivity|]. split; reflexivity. }
  split; [exact Hex|]. split; [reflexivity|].
  destruct (Finish_transition "meeting" demo_world Hex eq_refl)
    as (e & l1 & l2 & e' & w' & _ & _ & _ & _ & H & _ & _ & _ & _ & _ & _ & Hfin & Hf & _).
  exists e', w'. split; [exact H|]. split; [exact Hfin | exact Hf].
Defined.

Lemma types_are_independent_witness :
  "meeting" <> "task" /\ store_wf demo_world /\
  fault_at 0 demo_world = None /\ fault_at 1 demo_world = None /\
  (exists e1 w1 e2 w2,
      EventService.Start "meeting" demo_world = (Ok e1, w1) /\
      EventService.Start "task" w1 = (Ok e2, w2) /\
      ID e1 <> ID e2) /\
  length (docs (EventService.Finish "meeting" demo_world).2) = 3.
Proof.
  assert (Hne : "meeting" <> "task") by discriminate.
  split; [exact Hne|]. split; [exact demo_world_wf|].
  split; [reflexivity|]. split; [reflexivity|].
  destruct (types_are_independent "meeting" "task" demo_world Hne demo_world_wf)
    as (Hstart & _ & Hlen & _).
  split; [|exact Hlen].
  destruct (Hstart eq_refl eq_refl) as (e1 & w1 & H1 & Hnext).
  assert (F : fault_at 0 w1 = None /\ fault_at 1 w1 = None).
  { replace w1 with (EventService.Start "meeting" demo_world).2
      by (rewrite H1; reflexivity).
    split; reflexivity. }
  destruct (Hnext w1 (conj eq_refl eq_refl) (proj1 F) (proj2 F))
    as (e2 & w2 & r1 & r2 & H2 & Hid & _).
  exists e1, w1, e2, w2. auto.
Defined.

(* ===================================================================== *)
(** ** The listing contract *)
(* ===================================================================== *)

Lemma StronglySorted_weaken {A} (R R' : A -> A -> Prop) l :
  (forall a b, R a b -> R' a b) -> StronglySorted R l -> StronglySorted R' l.
Proof.
  intros HR. induction 1 as [|x l Hl IH Hx]; constructor; [assumption|].
  eapply Forall_impl; [exact Hx|]. intros y. apply HR.
Qed.

Lemma restrict_In f rows e :
  In e (restrict f rows) <-> In e rows /\ (f = EmptyString \/ Type_ e = f).
Proof.
  unfold restrict. destruct (String.eqb_spec f EmptyString) as [->|Hne].
  - tauto.
  - rewrite filter_In. unfold has_type. rewrite String.eqb_eq. tauto.
Qed.

Lemma list_spec_all f rows :
  list_spec 0 0 f rows = stable_sort started_desc (restrict f rows).
Proof. reflexivity. Qed.

Lemma list_spec_window k m f rows :
  list_spec k m f rows =
  let rest := drop (Z.to_nat k) (list_spec 0 0 f rows) in
  if (m >? 0)%Z then take (Z.to_nat m) rest else rest.
Proof. reflexivity. Qed.

Lemma list_spec_In k m f rows e :
  In e (list_spec k m f rows) -> In e (restrict f rows).
Proof.
  rewrite list_spec_window, list_spec_all. cbv zeta. intros H.
  eapply Permutation_in; [apply (stable_sort_perm started_desc)|].
  apply list_elem_of_In. apply list_elem_of_In in H.
  destruct (m >? 0)%Z.
  - eapply subseteq_drop, subseteq_take, H.
  - eapply subseteq_drop, H.
Qed.

Lemma list_spec_filter f rows :
  list_spec 0 0 f rows = restrict f (list_spec 0 0 EmptyString rows).
Proof.
  rewrite !list_spec_all. change (restrict EmptyString rows) with rows.
  unfold restrict. destruct (String.eqb f EmptyString); [reflexivity|].
  symmetry. apply stable_sort_filter.
  - apply started_desc_total.
  - apply started_desc_trans.
Qed.

(** C5, as amended.  When the two storage calls of a listing do not fail,
    List(k, m, f) returns the rows obtained from the stored rows by
    restricting to the rows of type [f] when [f] is not empty (no
    restriction when it is), sorting by startedAt descending, dropping
    the first [k] rows and, when [m > 0], keeping at most [m] rows
    ([m = 0]: unbounded); the store is unchanged.  With [N] matching
    rows, List(k, 0, f) has [max (N - k) 0] rows; List(0, m, f) has
    [min N m] rows when [m > 0] and all [N] rows when [m = 0]; and the
    filtered listing is the unfiltered one restricted to the type, in the
    same relative order. *)
Theorem List_contract (w : World) (k m : Z) (f : string) :
  fault_at 0 w = None -> fault_at 1 w = None -> (0 <= k)%Z -> (0 <= m)%Z ->
  let rows := docs w in
  let N := Z.of_nat (length (restrict f rows)) in
  (exists w', EventService.List_ k m f w = (Ok (list_spec k m f rows), w') /\
              same_store w w') /\
  (forall e, In e (restrict f rows) <->
             In e rows /\ (f = EmptyString \/ Type_ e = f)) /\
  StronglySorted (fun a b => (StartedAt b <= StartedAt a)%Z) (list_spec 0 0 f rows) /\
  Permutation (list_spec 0 0 f rows) (restrict f rows) /\
  list_spec k m f rows =
    (let rest := drop (Z.to_nat k) (list_spec 0 0 f rows) in
     if (m >? 0)%Z then take (Z.to_nat m) rest else rest) /\
  Z.of_nat (length (list_spec k 0 f rows)) = Z.max (N - k) 0 /\
  ((0 < m)%Z -> Z.of_nat (length (list_spec 0 m f rows)) = Z.min N m) /\
  (m = 0%Z -> Z.of_nat (length (list_spec 0 m f rows)) = N) /\
  list_spec 0 0 f rows = restrict f (list_spec 0 0 EmptyString rows).
Proof.
  intros F0 F1 Hk Hm rows N. subst rows N.
  split; [|split; [|split; [|split; [|split; [|split; [|split; [|split]]]]]]].
  - unfold EventService.List_. destruct (List_eq k m f w) as [c ->].
    rewrite F0, F1. eexists. split; [reflexivity | split; reflexivity].
  - intros e. apply restrict_In.
  - rewrite list_spec_all.
    pose proof (stable_sort_sorted started_desc started_desc_total
                  started_desc_trans (restrict f (docs w))) as H.
    eapply StronglySorted_weaken; [|exact H].
    intros a b. unfold started_desc. apply Z.leb_le.
  - rewrite list_spec_all. apply stable_sort_perm.
  - apply list_spec_window.
  - rewrite list_spec_window, list_spec_all. cbn.
    rewrite length_drop, stable_sort_length. lia.
  - intros Hpos. rewrite list_spec_window, list_spec_all. cbv zeta.
    replace (m >? 0)%Z with true by (symmetry; apply Z.gtb_lt; lia).
    change (Z.to_nat 0) with 0. rewrite drop_0, length_take, stable_sort_length. lia.
  - intros ->. rewrite list_spec_all, stable_sort_length. reflexivity.
  - apply list_spec_filter.
Qed.

Lemma List_contract_witness :
  fault_at 0 demo_world = None /\ fault_at 1 demo_world = None /\
  (0 <= 1)%Z /\ (0 <= 1)%Z /\
  (exists w', EventService.List_ 1 1 EmptyString demo_world =
              (Ok [ {| ID := 2%N; Type_ := "meeting"; State_ := Active;
                       StartedAt := 30000000%Z; FinishedAt := None |} ], w')) /\
  Z.of_nat (length (list_spec 1 0 EmptyString (docs demo_world))) = 2%Z.
Proof.
  split; [reflexivity|]. split; [reflexivity|]. split; [lia|]. split; [lia|].
  destruct (List_contract demo_world 1 1 EmptyString eq_refl eq_refl)
    as ((w' & H & _) & _ & _ & _ & _ & Hlen & _); [lia | lia |].
  split; [exists w'; exact H | exact Hlen].
Defined.

(** C5 as stated fails at limit 0: the listing of a store with one row
    with offset 0 and limit 0 has that one row, not [min 1 0 = 0] rows. *)
Lemma List_limit_zero_is_unbounded :
  ~ (forall (w : World) (m : Z) (events : list Event) (w' : World),
        (0 <= m)%Z -> fault_at 0 w = None -> fault_at 1 w = None ->
        EventService.List_ 0 m EmptyString w = (Ok events, w') ->
        Z.of_nat (length events) = Z.min (Z.of_nat (length (docs w))) m).
Proof.
  intros H.
  pose (w := {| docs := [new_row 1%N "meeting" 10%Z]; next_oid := 2%N;
                clock := 20%Z; faults := []; trace := [] |}).
  specialize (H w 0%Z [new_row 1%N "meeting" 10%Z]
                (EventService.List_ 0 0 EmptyString w).2).
  cbn in H. discriminate H; (lia || reflexivity).
Qed.

(* ===================================================================== *)
(** ** Validation at the handlers *)
(* ===================================================================== *)

Lemma validateEventType_empty : validateEventType EmptyString = false.
Proof. reflexivity. Qed.

Lemma bind_rejected c :
  (forall req, gin.json_body c = Some req -> validateEventType (req_Type req) = false) ->
  match gin.ShouldBindJSON c with
  | Some req => validateEventType (req_Type req) = false
  | None => True
  end.
Proof.
  intros H. unfold gin.ShouldBindJSON.
  destruct (gin.json_body c) as [req|]; [|exact I].
  destruct (String.eqb _ _); [exact I | apply H; reflexivity].
Qed.

Lemma bind_accepted c req :
  gin.json_body c = Some req -> validateEventType (req_Type req) = true ->
  gin.ShouldBindJSON c = Some req.
Proof.
  intros Hb Hv. unfold gin.ShouldBindJSON. rewrite Hb.
  destruct (String.eqb_spec (req_Type req) EmptyString) as [E|_]; [|reflexivity].
  rewrite E, validateEventType_empty in Hv. discriminate.
Qed.

(** C6. The format of a type.  [validateEventType s] holds exactly when
    [s] is not empty and consists of lowercase ASCII letters and ASCII
    digits only.  The Start and the Finish handler answer a request whose
    type does not pass with 400 and leave the world as it is (no storage
    call is made, the service is not invoked); for a type that passes
    they hand it to the service and answer with what the service returns.
    "meeting123" passes; "Meeting", "meeting-1" and "meeting 1" do not. *)
Theorem type_format_validation :
  (forall s, validateEventType s = true <-> well_formed_type s) /\
  (forall c w,
      (forall req, gin.json_body c = Some req ->
                   validateEventType (req_Type req) = false) ->
      (gin.status (EventHandler.Start c w).1 = http.StatusBadRequest /\
       (EventHandler.Start c w).2 = w) /\
      (gin.status (EventHandler.Finish c w).1 = http.StatusBadRequest /\
       (EventHandler.Finish c w).2 = w)) /\
  (forall c w req,
      gin.json_body c = Some req -> validateEventType (req_Type req) = true ->
      (EventHandler.Start c w).2 = (EventService.Start (req_Type req) w).2 /\
      (forall e, (EventService.Start (req_Type req) w).1 = Ok e ->
                 (EventHandler.Start c w).1 =
                 gin.JSON http.StatusOK (gin.EventJSON (ToResponse e))) /\
      (EventHandler.Finish c w).2 = (EventService.Finish (req_Type req) w).2 /\
      (forall e, (EventService.Finish (req_Type req) w).1 = Ok e ->
                 (EventHandler.Finish c w).1 =
                 gin.JSON http.StatusOK (gin.EventJSON (ToResponse e)))) /\
  validateEventType "meeting123" = true /\
  validateEventType "Meeting" = false /\
  validateEventType "meeting-1" = false /\
  validateEventType "meeting 1" = false.
Proof.
  split; [exact validateEventType_spec|]. split; [|split].
  - intros c w H. apply bind_rejected in H.
    unfold EventHandler.Start, EventHandler.Finish.
    destruct (gin.ShouldBindJSON c) as [req|].
    + rewrite H. cbn. repeat split.
    + cbn. repeat split.
  - intros c w req Hb Hv. unfold EventHandler.Start, EventHandler.Finish.
    rewrite (bind_accepted c req Hb Hv), Hv. cbn [negb].
    destruct (EventService.Start (req_Type req) w) as [[e1|err1] w1].
    all: destruct (EventService.Finish (req_Type req) w) as [[e2|[]] w2].
    all: cbn; repeat split; intros e [=]; subst; reflexivity.
  - repeat split; reflexivity.
Qed.

(** C7, as amended.  A non-empty offset parameter has to parse as an
    integer that is not negative, a non-empty limit parameter as an
    integer between 0 and 100; a malformed or out-of-range value is
    answered with 400 and the world is left as it is (the list operation
    is not invoked).  An empty parameter, which is also what an absent
    one reads as, stands for 0.  Accepted values reach the list
    operation as they were parsed: nothing is clamped. *)
Theorem pagination_validation (c : gin.Context) (w : World) :
  let offsetStr := gin.Query c "offset" in
  let limitStr := gin.Query c "limit" in
  (offsetStr <> EmptyString ->
   (strconv.Atoi offsetStr).2 <> None \/ ((strconv.Atoi offsetStr).1 < 0)%Z ->
   gin.status (EventHandler.List_ c w).1 = http.StatusBadRequest /\
   (EventHandler.List_ c w).2 = w) /\
  (forall k,
      accepted_offset offsetStr k ->
      limitStr <> EmptyString ->
      (strconv.Atoi limitStr).2 <> None \/ ((strconv.Atoi limitStr).1 < 0)%Z \/
      (100 < (strconv.Atoi limitStr).1)%Z ->
      gin.status (EventHandler.List_ c w).1 = http.StatusBadRequest /\
      (EventHandler.List_ c w).2 = w) /\
  (forall k m,
      accepted_offset offsetStr k -> accepted_limit limitStr m ->
      EventHandler.List_ c w =
      (list_response (EventService.List_ k m (gin.Query c "type") w).1,
       (EventService.List_ k m (gin.Query c "type") w).2)) /\
  (gin.query_values c !! "offset" = None -> accepted_offset offsetStr 0) /\
  (gin.query_values c !! "limit" = None -> accepted_limit limitStr 0).
Proof.
  cbv zeta. split; [|split; [|split; [|split]]].
  - apply handler_List_bad_offset.
  - intros k. apply handler_List_bad_limit.
  - intros k m. apply handler_List_accepted.
  - intros H. left. unfold gin.Query. rewrite H. auto.
  - intros H. left. unfold gin.Query. rewrite H. auto.
Qed.

(** C7 as stated fails for a parameter that is present and empty: the
    request [?offset=] carries an offset that does not parse as an
    integer, and it is answered with 200, not with 400. *)
Lemma empty_offset_is_not_refused :
  ~ (forall (c : gin.Context) (w : World) (v : string),
        gin.query_values c !! "offset" = Some [v] ->
        (strconv.Atoi v).2 <> None \/ ((strconv.Atoi v).1 < 0)%Z ->
        gin.status (EventHandler.List_ c w).1 = http.StatusBadRequest).
Proof.
  intros H.
  specialize (H (get {[ "offset" := [EmptyString] ]}) demo_world EmptyString).
  assert (E : gin.status
                (EventHandler.List_ (get {[ "offset" := [EmptyString] ]}) demo_world).1
              = http.StatusOK) by (vm_compute; reflexivity).
  rewrite E in H. discriminate H.
  - vm_compute. reflexivity.
  - left. vm_compute. discriminate.
Qed.

(** C10, as amended.  The format of a type is checked by the Start and
    Finish handlers only.  The service accepts every string: for every
    [t], the empty string and strings with uppercase letters, punctuation
    or whitespace included, Start(t) on a store without an Active row of
    type [t] succeeds (when no storage call fails) and appends a row
    whose type is exactly [t].  The List handler hands the type filter to
    the service as it is: with accepted pagination and no storage failure
    it answers 200 whatever the filter is, with the rows of exactly that
    type (all rows when the filter is empty); the answer is empty when no
    stored row has that type, in particular when the filter is not empty,
    fails the pattern, and every stored type passes it. *)
Theorem type_format_only_at_the_handlers :
  (forall t w,
      store_wf w -> fault_at 0 w = None -> fault_at 1 w = None ->
      (forall e, In e (docs w) -> ~ (Type_ e = t /\ State_ e = Active)) ->
      exists e w',
        EventService.Start t w = (Ok e, w') /\
        Type_ e = t /\
        docs w' = docs w ++ [bson.stored e] /\ Type_ (bson.stored e) = t) /\
  (forall c w k m,
      fault_at 0 w = None -> fault_at 1 w = None ->
      accepted_offset (gin.Query c "offset") k ->
      accepted_limit (gin.Query c "limit") m ->
      let f := gin.Query c "type" in
      exists w',
        EventHandler.List_ c w =
        (gin.JSON http.StatusOK (gin.EventsJSON (list_spec k m f (docs w))), w') /\
        (forall e, In e (list_spec k m f (docs w)) ->
                   In e (docs w) /\ (f = EmptyString \/ Type_ e = f)) /\
        (forall e, In e (list_spec 0 0 f (docs w)) <->
                   In e (docs w) /\ (f = EmptyString \/ Type_ e = f)) /\
        (f <> EmptyString -> (forall e, In e (docs w) -> Type_ e <> f) ->
         list_spec k m f (docs w) = []) /\
        (f <> EmptyString -> validateEventType f = false ->
         (forall e, In e (docs w) -> validateEventType (Type_ e) = true) ->
         list_spec k m f (docs w) = [])).
Proof.
  split.
  - intros t w Hwf F0 F1 Hnone.
    destruct (Start_appends t w Hwf F0 F1 Hnone) as (e & w' & Hs & Hd & Ht & _).
    exists e, w'. auto.
  - intros c w k m F0 F1 Hk Hm f. subst f.
    rewrite (handler_List_accepted c w k m Hk Hm).
    unfold EventService.List_. destruct (List_eq k m (gin.Query c "type") w) as [c0 ->].
    rewrite F0, F1. cbn [fst snd list_response]. eexists. split; [reflexivity|].
    assert (Hempty : gin.Query c "type" <> EmptyString ->
                     (forall e, In e (docs w) -> Type_ e <> gin.Query c "type") ->
                     list_spec k m (gin.Query c "type") (docs w) = []).
    { intros Hne Hno. destruct (list_spec _ _ _ _) as [|e l] eqn:E; [reflexivity|].
      assert (He : In e (list_spec k m (gin.Query c "type") (docs w)))
        by (rewrite E; left; reflexivity).
      apply list_spec_In, restrict_In in He as [He [Hf|Hf]]; [contradiction|].
      exfalso. exact (Hno e He Hf). }
    split; [|split; [|split]].
    + intros e He. apply list_spec_In, restrict_In in He. exact He.
    + intros e. rewrite list_spec_all, <- restrict_In. split; intros He.
      * eapply Permutation_in; [apply (stable_sort_perm started_desc) | exact He].
      * eapply Permutation_in;
          [symmetry; apply (stable_sort_perm started_desc) | exact He].
    + exact Hempty.
    + intros Hne Hbad Hgood. apply Hempty; [exact Hne|].
      intros e He Hf. specialize (Hgood e He). rewrite Hf in Hgood. congruence.
Qed.

Lemma type_format_only_at_the_handlers_witness :
  store_wf demo_world /\ fault_at 0 demo_world = None /\ fault_at 1 demo_world = None /\
  (forall e, In e (docs demo_world) -> ~ (Type_ e = "Status Meeting!" /\ State_ e = Active)) /\
  accepted_offset (gin.Query (get {[ "type" := ["Meeting"] ]}) "offset") 0 /\
  accepted_limit (gin.Query (get {[ "type" := ["Meeting"] ]}) "limit") 0 /\
  (exists e w',
      EventService.Start "Status Meeting!" demo_world = (Ok e, w') /\
      Type_ e = "Status Meeting!") /\
  (exists w',
      EventHandler.List_ (get {[ "type" := ["Meeting"] ]}) demo_world =
      (gin.JSON http.StatusOK (gin.EventsJSON []), w')).
Proof.
  assert (Hnone : forall e, In e (docs demo_world) ->
                            ~ (Type_ e = "Status Meeting!" /\ State_ e = Active)).
  { intros e He [Ht _]. cbn in He. destruct He as [<-|[<-|[<-|[]]]]; discriminate. }
  assert (Hk : accepted_offset (gin.Query (get {[ "type" := ["Meeting"] ]}) "offset") 0)
    by (left; split; reflexivity).
  assert (Hm : accepted_limit (gin.Query (get {[ "type" := ["Meeting"] ]}) "limit") 0)
    by (left; split; reflexivity).
  split; [exact demo_world_wf|]. split; [reflexivity|]. split; [reflexivity|].
  split; [exact Hnone|]. split; [exact Hk|]. split; [exact Hm|].
  destruct type_format_only_at_the_handlers as [Hstart Hlist]. split.
  - destruct (Hstart "Status Meeting!" demo_world demo_world_wf eq_refl eq_refl Hnone)
      as (e & w' & H & Ht & _).
    exists e, w'. auto.
  - destruct (Hlist (get {[ "type" := ["Meeting"] ]}) demo_world 0%Z 0%Z
                eq_refl eq_refl Hk Hm) as (w' & H & _).
    exists w'. exact H.
Defined.

(** C10 as stated fails where it says that a filter failing the pattern
    matches no rows: the service stores the type "Meeting" when asked to
    (the first half of the claim), and the listing filtered by "Meeting"
    then returns that row. *)
Lemma bad_filter_can_match_rows :
  ~ (forall (c : gin.Context) (w : World),
        validateEventType (gin.Query c "type") = false ->
        fault_at 0 w = None -> fault_at 1 w = None ->
        (EventHandler.List_ c w).1 = gin.JSON http.StatusOK (gin.EventsJSON [])).
Proof.
  intros H.
  specialize (H (get {[ "type" := ["Meeting"] ]})
                (EventService.Start "Meeting" empty_world).2).
  assert (E : (EventHandler.List_ (get {[ "type" := ["Meeting"] ]})
                 (EventService.Start "Meeting" empty_world).2).1
              = gin.JSON http.StatusOK (gin.EventsJSON [new_row 1%N "Meeting" 0%Z]))
    by (vm_compute; reflexivity).
  rewrite E in H. discriminate H; vm_compute; reflexivity.
Qed.

(* ===================================================================== *)
(** ** The scenario of the specification, run *)
(* ===================================================================== *)

(** Start("meeting"), Start("meeting") again, Finish("meeting"),
    Finish("meeting") again, Start("call"), Start("task") and the full
    listing, with the clock advancing by a millisecond between the
    calls; the first answer carries the clock reading, the second the
    stored date. *)
Example scenario_walkthrough :
  let '(r1, w) := EventService.Start "meeting" (set_env 1000400%Z [] empty_world) in
  let '(r2, w) := EventService.Start "meeting" (set_env 2000000%Z [] w) in
  let '(r3, w) := EventService.Finish "meeting" (set_env 3000000%Z [] w) in
  let '(r4, w) := EventService.Finish "meeting" (set_env 4000000%Z [] w) in
  let '(r5, w) := EventService.Start "call" (set_env 5000000%Z [] w) in
  let '(r6, w) := EventService.Start "task" (set_env 6000000%Z [] w) in
  let '(r7, w) := EventService.List_ 0 0 EmptyString (set_env 7000000%Z [] w) in
  r1 = Ok (mkEvent 1%N "meeting" Active 1000400%Z None) /\
  r2 = Ok (mkEvent 1%N "meeting" Active 1000000%Z None) /\
  r3 = Ok (mkEvent 1%N "meeting" Finished 1000000%Z (Some 3000000%Z)) /\
  r4 = Err ErrNoDocuments /\
  r7 = Ok [ mkEvent 3%N "task" Active 6000000%Z None;
            mkEvent 2%N "call" Active 5000000%Z None;
            mkEvent 1%N "meeting" Finished 1000000%Z (Some 3000000%Z) ].
Proof. vm_compute. repeat split. Qed.

(** The same through the handlers: what is refused never reaches the
    store. *)
Example handlers_refuse :
  gin.status (EventHandler.Start (post "Meeting") demo_world).1 = 400%Z /\
  gin.status (EventHandler.Start (post "meeting 1") demo_world).1 = 400%Z /\
  gin.status (EventHandler.Finish (post "meeting-1") demo_world).1 = 400%Z /\
  gin.status (EventHandler.Finish (post "task") demo_world).1 = 404%Z /\
  gin.status (EventHandler.Start (post "meeting123") demo_world).1 = 200%Z /\
  gin.status (EventHandler.List_ (get {[ "limit" := ["101"] ]}) demo_world).1 = 400%Z /\
  gin.status (EventHandler.List_ (get {[ "offset" := ["-1"] ]}) demo_world).1 = 400%Z /\
  gin.status (EventHandler.List_ (get {[ "limit" := ["ten"] ]}) demo_world).1 = 400%Z /\
  gin.status (EventHandler.List_ (get {[ "limit" := ["100"] ]}) demo_world).1 = 200%Z.
Proof. vm_compute. repeat split. Qed.

(* ===================================================================== *)
(** ** Identifiers on the wire *)
(* ===================================================================== *)

Lemma hex_digits_length k : forall n acc,
  String.length (hex_digits k n acc) = k + String.length acc.
Proof.
  induction k as [|k IH]; intros n acc; cbn [hex_digits]; [reflexivity|].
  rewrite IH. cbn. lia.
Qed.

Lemma hex_digit_is_hex n : is_hex_rune (hex_digit n) = true.
Proof.
  unfold hex_digit.
  repeat (match goal with |- context [match ?x with _ => _ end] => destruct x end);
    reflexivity.
Qed.

Lemma hex_digits_all_hex k : forall n acc,
  all_hex (hex_digits k n acc) = all_hex acc.
Proof.
  induction k as [|k IH]; intros n acc; cbn [hex_digits]; [reflexivity|].
  rewrite IH. cbn [all_hex]. rewrite hex_digit_is_hex. reflexivity.
Qed.

Lemma unhex_hex_digit n : (n < 16)%N -> unhex_digit (hex_digit n) = n.
Proof.
  intros H.
  assert (Hn : In n [0;1;2;3;4;5;6;7;8;9;10;11;12;13;14;15]%N).
  { cbn. lia. }
  cbn in Hn. repeat (destruct Hn as [<-|Hn]; [reflexivity|]). destruct Hn.
Qed.

Lemma unhex_hex_digits k : forall n acc a,
  unhex a (hex_digits k n acc) = unhex (a * 16 ^ N.of_nat k + n mod 16 ^ N.of_nat k)%N acc.
Proof.
  induction k as [|k IH]; intros n acc a.
  - cbn [hex_digits]. f_equal. cbn. rewrite N.mod_1_r. lia.
  - cbn [hex_digits]. rewrite IH. cbn [unhex].
    rewrite unhex_hex_digit by (apply N.mod_lt; lia). f_equal.
    rewrite Nat2N.inj_succ, N.pow_succ_r'.
    rewrite (N.Div0.mod_mul_r n 16 (16 ^ N.of_nat k)). lia.
Qed.

(** Hex read back gives the identifier. *)
Lemma unhex_Hex id : (id < ObjectID_bound)%N -> unhex 0 (Hex id) = id.
Proof.
  intros H. unfold Hex. rewrite unhex_hex_digits. cbn [unhex].
  change (16 ^ N.of_nat 24)%N with ObjectID_bound. rewrite N.mod_small by exact H. lia.
Qed.

(** X1. The id of a response is well formed: for an event whose ObjectID
    fits 12 bytes, [ToResponse] gives an id of 24 characters which the
    test runner's [isValidObjectID] accepts exactly when the ObjectID is
    not the zero ObjectID. *)
Theorem ToResponse_id_valid (e : Event) :
  (ID e < ObjectID_bound)%N ->
  String.length (resp_ID (ToResponse e)) = 24 /\
  isValidObjectID (resp_ID (ToResponse e)) = negb (ID e =? NilObjectID)%N.
Proof.
  intros Hb. cbn [ToResponse resp_ID].
  assert (Hlen : String.length (Hex (ID e)) = 24)
    by (unfold Hex; rewrite hex_digits_length; reflexivity).
  split; [exact Hlen|].
  unfold isValidObjectID. rewrite Hlen. cbn [Nat.eqb negb].
  assert (Hall : all_hex (Hex (ID e)) = true)
    by (unfold Hex; rewrite hex_digits_all_hex; reflexivity).
  rewrite Hall.
  destruct (N.eqb_spec (ID e) NilObjectID) as [E|E].
  - rewrite E. reflexivity.
  - destruct (String.eqb_spec (Hex (ID e)) "000000000000000000000000") as [E0|_];
      [|reflexivity].
    exfalso. apply E. rewrite <- (unhex_Hex (ID e) Hb), E0. reflexivity.
Qed.

Lemma ToResponse_id_valid_witness :
  (ID (new_row 3%N "call" 40%Z) < ObjectID_bound)%N /\
  isValidObjectID (resp_ID (ToResponse (new_row 3%N "call" 40%Z))) = true.
Proof.
  assert (H : (ID (new_row 3%N "call" 40%Z) < ObjectID_bound)%N) by reflexivity.
  split; [exact H|]. exact (proj2 (ToResponse_id_valid _ H)).
Defined.

(** X2. Responses identify rows: two events whose ObjectIDs fit 12 bytes
    and whose responses carry the same id have the same ObjectID. *)
Theorem ToResponse_id_injective (e1 e2 : Event) :
  (ID e1 < ObjectID_bound)%N -> (ID e2 < ObjectID_bound)%N ->
  resp_ID (ToResponse e1) = resp_ID (ToResponse e2) -> ID e1 = ID e2.
Proof.
  intros H1 H2 E. cbn [ToResponse resp_ID] in E.
  rewrite <- (unhex_Hex _ H1), <- (unhex_Hex _ H2), E. reflexivity.
Qed.

Lemma ToResponse_id_injective_witness :
  (2 < ObjectID_bound)%N /\ (2 < ObjectID_bound)%N /\
  ID (new_row 2%N "meeting" 30%Z) = ID (new_row 2%N "call" 40%Z).
Proof.
  split; [reflexivity|]. split; [reflexivity|].
  apply (ToResponse_id_injective (new_row 2%N "meeting" 30%Z) (new_row 2%N "call" 40%Z));
    reflexivity.
Defined.

(* ===================================================================== *)
(** ** The counters of the test runner *)
(* ===================================================================== *)

Lemma wrap_int_small z : (- 2 ^ 63 <= z < 2 ^ 63)%Z -> wrap_int z = z.
Proof. intros H. unfold wrap_int. rewrite Z.mod_small; lia. Qed.

Lemma count_pass_le l : count_pass l <= length l.
Proof. unfold count_pass. apply List.filter_length_le. Qed.

Lemma count_pass_snoc l r :
  count_pass (l ++ [r]) =
  count_pass l + (if String.eqb (tr_Status r) "PASS" then 1 else 0).
Proof.
  unfold count_pass. rewrite List.filter_app, length_app. cbn.
  destruct (String.eqb _ _); reflexivity.
Qed.

Lemma AddResult_keeps_counts r ts :
  (Z.of_nat (length (Results ts)) < 2 ^ 63 - 1)%Z ->
  Passed ts = Z.of_nat (count_pass (Results ts)) ->
  Failed ts = (Z.of_nat (length (Results ts)) - Z.of_nat (count_pass (Results ts)))%Z ->
  Passed (AddResult r ts) = Z.of_nat (count_pass (Results (AddResult r ts))) /\
  Failed (AddResult r ts) =
    (Z.of_nat (length (Results (AddResult r ts)))
     - Z.of_nat (count_pass (Results (AddResult r ts))))%Z.
Proof.
  intros Hlen HP HF. pose proof (count_pass_le (Results ts)) as Hle.
  cbn [AddResult Results Passed Failed].
  rewrite count_pass_snoc, length_app. cbn [length].
  destruct (String.eqb (tr_Status r) "PASS").
  - rewrite wrap_int_small by lia. lia.
  - rewrite wrap_int_small by lia. lia.
Qed.

(** X3. The counters of the test runner are right: after adding the
    results [l] (fewer than 2^63 - 1 of them) to a new suite, one by one,
    the suite holds exactly [l], [Passed] is the number of results with
    status PASS, [Failed] the number of the others, and [Failed] is 0
    exactly when every result has status PASS. *)
Theorem AddResult_counts (l : list TestResult) :
  (Z.of_nat (length l) < 2 ^ 63 - 1)%Z ->
  let ts := fold_left (fun ts r => AddResult r ts) l NewTestSuite in
  Results ts = l /\
  Passed ts = Z.of_nat (count_pass l) /\
  Failed ts = (Z.of_nat (length l) - Z.of_nat (count_pass l))%Z /\
  (Passed ts + Failed ts = Z.of_nat (length l))%Z /\
  (Failed ts = 0%Z <-> Forall (fun r => tr_Status r = "PASS") l).
Proof.
  intros Hlen ts.
  assert (Hgen : forall l0 ts0,
             (Z.of_nat (length (Results ts0) + length l0) < 2 ^ 63 - 1)%Z ->
             Passed ts0 = Z.of_nat (count_pass (Results ts0)) ->
             Failed ts0 = (Z.of_nat (length (Results ts0))
                           - Z.of_nat (count_pass (Results ts0)))%Z ->
             let ts1 := fold_left (fun ts r => AddResult r ts) l0 ts0 in
             Results ts1 = Results ts0 ++ l0 /\
             Passed ts1 = Z.of_nat (count_pass (Results ts1)) /\
             Failed ts1 = (Z.of_nat (length (Results ts1))
                           - Z.of_nat (count_pass (Results ts1)))%Z).
  { clear. induction l0 as [|r l0 IH]; intros ts0 Hlen HP HF; cbn [fold_left].
    - cbv zeta. rewrite app_nil_r. auto.
    - destruct (AddResult_keeps_counts r ts0) as [HP' HF']; [lia | assumption..|].
      specialize (IH (AddResult r ts0)). cbv zeta in IH |- *.
      destruct IH as (HR & HP1 & HF1); [|assumption..|].
      + cbn [AddResult Results]. rewrite length_app. cbn [length] in *. lia.
      + cbn [AddResult Results] in HR. rewrite <- app_assoc in HR. auto. }
  destruct (Hgen l NewTestSuite) as (HR & HP & HF); [cbn; lia | reflexivity..|].
  cbn [NewTestSuite Results app] in HR. fold ts in HR, HP, HF. rewrite HR in HP, HF.
  split; [exact HR|]. split; [exact HP|]. split; [exact HF|]. split; [lia|].
  rewrite HF. pose proof (count_pass_le l) as Hle. unfold count_pass in *.
  split.
  - intros H0. assert (Heq : length (List.filter (fun r => String.eqb (tr_Status r) "PASS") l) = length l) by lia.
    clear - Heq. induction l as [|r l IH]; [constructor|]. cbn in Heq.
    pose proof (List.filter_length_le (fun r => String.eqb (tr_Status r) "PASS") l) as Hle.
    destruct (String.eqb_spec (tr_Status r) "PASS") as [E|E]; cbn in Heq; [|lia].
    constructor; [exact E | apply IH; lia].
  - intros Hall. assert (Heq : List.filter (fun r => String.eqb (tr_Status r) "PASS") l = l).
    { clear - Hall. induction Hall as [|r l Hr _ IH]; [reflexivity|]. cbn.
      rewrite Hr. cbn. rewrite IH. reflexivity. }
    rewrite Heq. lia.
Qed.

Lemma AddResult_counts_witness :
  (Z.of_nat (length [mkTestResult 1 "a" "PASS" EmptyString EmptyString EmptyString 5;
                     mkTestResult 2 "b" "FAIL" EmptyString EmptyString EmptyString 7]) < 2 ^ 63 - 1)%Z /\
  Passed (AddResult (mkTestResult 2 "b" "FAIL" EmptyString EmptyString EmptyString 7)
            (AddResult (mkTestResult 1 "a" "PASS" EmptyString EmptyString EmptyString 5) NewTestSuite)) = 1%Z.
Proof.
  assert (H : (Z.of_nat (length [mkTestResult 1 "a" "PASS" EmptyString EmptyString EmptyString 5;
                                 mkTestResult 2 "b" "FAIL" EmptyString EmptyString EmptyString 7]) < 2 ^ 63 - 1)%Z)
    by (cbn; lia).
  split; [exact H|].
  exact (proj1 (proj2 (AddResult_counts _ H))).
Defined.

(* ===================================================================== *)
(** ** Start and Finish, composed *)
(* ===================================================================== *)

Lemma find_app_none {A} (p : A -> bool) l1 l2 :
  List.find p l1 = None -> List.find p (l1 ++ l2) = List.find p l2.
Proof.
  induction l1 as [|x l1 IH]; cbn; [reflexivity|].
  destruct (p x); [discriminate | exact IH].
Qed.

(** After a successful Start(t) a search for the Active row of type [t]
    finds the row as the store holds it: the row returned itself when
    Start found it, and the stored form of the row returned (its
    startedAt cut to the millisecond) when Start created it. *)
Lemma Start_then_find t w e w' :
  EventService.Start t w = (Ok e, w') ->
  exists r,
    List.find (is_active_of t) (docs w') = Some r /\
    ID r = ID e /\ Type_ r = Type_ e /\ State_ r = State_ e /\
    FinishedAt r = FinishedAt e /\
    (StartedAt e - 1000000 < StartedAt r <= StartedAt e)%Z /\
    (r = e \/ r = bson.stored e).
Proof.
  rewrite Start_eq. cbv zeta.
  destruct (fault_at 0 w); [discriminate|].
  destruct (List.find _ _) as [e0|] eqn:E.
  - intros [= <- <-]. exists e0. split; [exact E|]. repeat split; auto; lia.
  - rewrite Create_eq. cbv zeta. rewrite fault_at_enter.
    destruct (fault_at 1 w); [discriminate|].
    cbn [docs next_oid clock snd enter].
    destruct (has_id _ _); [discriminate|].
    intros [= <- <-]. exists (new_row (next_oid w) t (bson.date (clock w))).
    cbn [docs]. rewrite (find_app_none _ _ _ E). cbn [List.find].
    rewrite is_active_new_row, String.eqb_refl.
    pose proof (date_le (clock w)). pose proof (date_gt (clock w)).
    cbn [new_row ID Type_ State_ StartedAt FinishedAt].
    repeat split; auto.
Qed.

Lemma Start_error t w err w' :
  EventService.Start t w = (Err err, w') ->
  same_store w w' /\
  exists msg, err = ErrDriver msg /\
    (fault_at 0 w = Some msg \/
     (fault_at 0 w = None /\ List.find (is_active_of t) (docs w) = None /\
      (fault_at 1 w = Some msg \/ has_id (next_oid w) (docs w) = true))).
Proof.
  rewrite Start_eq. cbv zeta.
  destruct (fault_at 0 w) as [msg|].
  { intros [= <- <-]. split; [split; reflexivity|]. exists msg. auto. }
  destruct (List.find _ _) as [e0|] eqn:E; [discriminate|].
  rewrite Create_eq. cbv zeta. rewrite fault_at_enter.
  destruct (fault_at 1 w) as [msg|].
  { intros [= <- <-]. split; [split; reflexivity|]. exists msg. auto 6. }
  cbn [docs next_oid clock snd enter].
  destruct (has_id _ _) eqn:Hid; [|discriminate].
  intros [= <- <-]. split; [split; reflexivity|]. eexists. split; [reflexivity|].
  right. auto.
Qed.

(** X4. How Start fails.  On a store with unique ids, Start(t) returns an
    error exactly when its search fails, or there is no Active row of
    type [t] and the insert fails; the error is that storage failure as
    it is (never NotFound), and the collection and the id generator are
    left as they were. *)
Theorem Start_failures (t : string) (w : World) :
  store_wf w ->
  (forall err,
      (EventService.Start t w).1 = Err err <->
      exists msg, err = ErrDriver msg /\
        (fault_at 0 w = Some msg \/
         (fault_at 0 w = None /\
          (forall e, In e (docs w) -> ~ (Type_ e = t /\ State_ e = Active)) /\
          fault_at 1 w = Some msg))) /\
  (forall err, (EventService.Start t w).1 = Err err ->
               same_store w (EventService.Start t w).2).
Proof.
  intros (Hnd & Hlt & Hpos). split.
  - intros err. split.
    + destruct (EventService.Start t w) as [r w'] eqn:E. cbn [fst]. intros ->.
      apply Start_error in E as (_ & msg & -> & [F0 | (F0 & Hnone & [F1 | Hid])]).
      * exists msg. auto.
      * exists msg. split; [reflexivity|]. right.
        split; [assumption|]. split; [apply find_none_active, Hnone | assumption].
      * rewrite (has_id_false _ _ Hlt) in Hid. discriminate.
    + intros (msg & -> & [F0 | (F0 & Hnone & F1)]).
      * rewrite Start_eq. cbv zeta. rewrite F0. reflexivity.
      * apply find_none_active in Hnone.
        rewrite Start_eq. cbv zeta. rewrite F0, Hnone, Create_eq. cbv zeta.
        rewrite fault_at_enter, F1. reflexivity.
  - intros err. destruct (EventService.Start t w) as [r w'] eqn:E. cbn [fst snd].
    intros ->. apply Start_error in E. tauto.
Qed.

Lemma Start_failures_witness :
  store_wf (set_env 60%Z [Some "connection refused"] demo_world) /\
  (EventService.Start "task" (set_env 60%Z [Some "connection refused"] demo_world)).1
  = Err (ErrDriver "connection refused").
Proof.
  assert (H : store_wf (set_env 60%Z [Some "connection refused"] demo_world))
    by exact demo_world_wf.
  split; [exact H|].
  apply (proj1 (Start_failures "task" _ H)). eexists. split; [reflexivity|].
  left. reflexivity.
Defined.

Lemma Start_idempotent_aux (t : string) (w w1 w1' : World) (e : Event) :
  EventService.Start t w = (Ok e, w1) ->
  same_store w1 w1' -> fault_at 0 w1' = None ->
  exists r,
    In r (docs w1') /\
    ID r = ID e /\ Type_ r = Type_ e /\ State_ r = State_ e /\
    FinishedAt r = FinishedAt e /\
    (StartedAt e - 1000000 < StartedAt r <= StartedAt e)%Z /\
    (r = e \/ r = bson.stored e) /\
    (EventRepository.FindActive t w1').1 = Ok (Some r) /\
    (EventService.Start t w1').1 = Ok r /\
    same_store w1' (EventService.Start t w1').2 /\
    List.find (is_active_of t) (docs w1') = Some r.
Proof.
  intros H [Hd Hn] F0.
  apply Start_then_find in H as (r & Hf & Hid & Ht & Hs & Hfin & Hrange & Hr).
  rewrite <- Hd in Hf. exists r.
  split; [apply (find_some _ _ Hf)|].
  rewrite FindActive_eq, Start_eq. cbv zeta. rewrite F0, Hf. cbn [fst snd].
  repeat split; auto; lia.
Qed.

(** X5. Start is idempotent up to the store's resolution.  After a
    successful Start(t) that returned [e], as long as the store is the
    same and the search does not fail, the store holds a row [r] with the
    id, type, state and finishedAt of [e] and a startedAt that is the
    startedAt of [e] or less than a millisecond before it ([r] is [e] as
    the store keeps it: [e] itself when Start found it, [e] with its time
    cut to the millisecond when Start created it); FindActive(t) returns
    [r], and another Start(t) returns [r], without writing. *)
Theorem Start_idempotent (t : string) (w w1 w1' : World) (e : Event) :
  EventService.Start t w = (Ok e, w1) ->
  same_store w1 w1' -> fault_at 0 w1' = None ->
  exists r,
    In r (docs w1') /\
    ID r = ID e /\ Type_ r = Type_ e /\ State_ r = State_ e /\
    FinishedAt r = FinishedAt e /\
    (StartedAt e - 1000000 < StartedAt r <= StartedAt e)%Z /\
    (r = e \/ r = bson.stored e) /\
    (EventRepository.FindActive t w1').1 = Ok (Some r) /\
    (EventService.Start t w1').1 = Ok r /\
    same_store w1' (EventService.Start t w1').2.
Proof.
  intros H Hsame F0.
  destruct (Start_idempotent_aux t w w1 w1' e H Hsame F0)
    as (r & H1 & H2 & H3 & H4 & H5 & H6 & H7 & H8 & H9 & H10 & _).
  exists r. auto 12.
Qed.

Lemma Start_idempotent_witness :
  EventService.Start "task" demo_world =
    (Ok (new_row 4%N "task" 50000250%Z), (EventService.Start "task" demo_world).2) /\
  same_store (EventService.Start "task" demo_world).2
             (EventService.Start "task" demo_world).2 /\
  fault_at 0 (EventService.Start "task" demo_world).2 = None /\
  exists r,
    (EventService.Start "task" (EventService.Start "task" demo_world).2).1 = Ok r /\
    ID r = 4%N /\ (50000250 - 1000000 < StartedAt r <= 50000250)%Z.
Proof.
  assert (H : EventService.Start "task" demo_world =
              (Ok (new_row 4%N "task" 50000250%Z), (EventService.Start "task" demo_world).2))
    by (vm_compute; reflexivity).
  split; [exact H|]. split; [split; reflexivity|]. split; [reflexivity|].
  destruct (Start_idempotent "task" demo_world _ _ _ H (conj eq_refl eq_refl) eq_refl)
    as (r & _ & Hid & _ & _ & _ & Hrange & _ & _ & Hs & _).
  exists r. split; [exact Hs|]. split; [exact Hid | exact Hrange].
Defined.

Lemma active_rows_finish t' now e l1 l2 :
  active_rows t' (l1 ++ finished_at now e :: l2) = active_rows t' l1 ++ active_rows t' l2.
Proof.
  rewrite active_rows_app. unfold active_rows at 2. cbn [List.filter].
  rewrite is_active_finished. reflexivity.
Qed.

Lemma active_rows_middle t' e l1 l2 :
  active_rows t' (l1 ++ e :: l2) =
  active_rows t' l1 ++ (if is_active_of t' e then [e] else []) ++ active_rows t' l2.
Proof.
  rewrite active_rows_app. unfold active_rows at 2. cbn [List.filter].
  destruct (is_active_of t' e); reflexivity.
Qed.

Lemma Finish_active_rows_aux (t : string) (w : World) :
  (forall t', t' <> t ->
     active_rows t' (docs (EventService.Finish t w).2) = active_rows t' (docs w)) /\
  match (EventService.Finish t w).1 with
  | Ok _ => S (length (active_rows t (docs (EventService.Finish t w).2)))
            = length (active_rows t (docs w))
  | Err _ => docs (EventService.Finish t w).2 = docs w
  end.
Proof.
  rewrite Service_Finish_eq, Finish_eq. cbv zeta.
  destruct (fault_at 0 w); [split; reflexivity|].
  destruct (update_first _ _ _) as [[found l]|] eqn:E; [|split; reflexivity].
  apply update_first_Some in E as (l1 & l2 & Hw & -> & Hact & _).
  cbn [fst snd docs set_docs]. rewrite Hw. split.
  - intros t' Hne. rewrite active_rows_finish, active_rows_middle.
    apply is_active_of_spec in Hact as [Ht _].
    replace (is_active_of t' found) with false; [reflexivity|].
    symmetry. unfold is_active_of. rewrite Ht.
    replace (String.eqb t t') with false; [reflexivity|].
    symmetry. apply String.eqb_neq. congruence.
  - rewrite active_rows_finish, active_rows_middle, Hact, !length_app. cbn. lia.
Qed.

(** X6. Finish and the Active rows.  Finish(t) never touches the Active
    rows of another type; when it succeeds the number of Active rows of
    type [t] goes down by exactly one, and when it fails the collection
    is as it was. *)
Theorem Finish_active_rows (t : string) (w : World) :
  (forall t', t' <> t ->
     active_rows t' (docs (EventService.Finish t w).2) = active_rows t' (docs w)) /\
  match (EventService.Finish t w).1 with
  | Ok _ => S (length (active_rows t (docs (EventService.Finish t w).2)))
            = length (active_rows t (docs w))
  | Err _ => docs (EventService.Finish t w).2 = docs w
  end.
Proof. exact (Finish_active_rows_aux t w). Qed.

Lemma Finish_without_active t w :
  fault_at 0 w = None ->
  (forall e, In e (docs w) -> ~ (Type_ e = t /\ State_ e = Active)) ->
  (EventService.Finish t w).1 = Err ErrNoDocuments.
Proof.
  intros F0 Hnone. apply find_none_active in Hnone.
  apply (update_first_None _ (finished_at (bson.date (clock w)))) in Hnone.
  rewrite Service_Finish_eq, Finish_eq. cbv zeta. rewrite F0, Hnone. reflexivity.
Qed.

(** X7. After a Finish.  In a store that satisfies I1, once Finish(t)
    has succeeded no Active row of type [t] is left: as long as the store
    is the same, another Finish(t) whose storage call does not fail
    returns NotFound, and (ids being unique, no storage call failing)
    Start(t) creates a new Active row (the store gets the row returned,
    its time cut to the millisecond), whose id is not the id of the row
    just finished. *)
Theorem after_Finish (t : string) (w w1 w1' : World) (e : Event) :
  I1 (docs w) -> store_wf w ->
  EventService.Finish t w = (Ok e, w1) ->
  same_store w1 w1' -> fault_at 0 w1' = None ->
  (EventService.Finish t w1').1 = Err ErrNoDocuments /\
  (fault_at 1 w1' = None ->
   exists e' w2,
     EventService.Start t w1' = (Ok e', w2) /\
     docs w2 = docs w1' ++ [bson.stored e'] /\
     State_ e' = Active /\ Type_ e' = t /\ ID e' <> ID e /\
     State_ (bson.stored e') = Active /\ Type_ (bson.stored e') = t /\
     ID (bson.stored e') <> ID e).
Proof.
  intros HI1 Hwf H Hsame F0.
  assert (Hwf1 : store_wf w1').
  { apply (store_wf_same w1 w1' Hsame).
    pose proof (Finish_wf t w Hwf) as Hw. rewrite H in Hw. exact Hw. }
  destruct Hsame as [Hd Hn].
  assert (Hnone : forall x, In x (docs w1') -> ~ (Type_ x = t /\ State_ x = Active)).
  { apply find_none_active, find_none_filter.
    pose proof (proj2 (Finish_active_rows_aux t w)) as Hcount. rewrite H in Hcount.
    cbn [fst snd] in Hcount. specialize (HI1 t). rewrite Hd.
    fold (active_rows t (docs w1)).
    destruct (active_rows t (docs w1)); [reflexivity | cbn in Hcount; lia]. }
  assert (He : In e (docs w1') /\ State_ e = Finished).
  { revert H. rewrite Service_Finish_eq, Finish_eq. cbv zeta.
    destruct (fault_at 0 w); [discriminate|].
    destruct (update_first _ _ _) as [[found l]|] eqn:E; [|discriminate].
    intros [= <- <-]. apply update_first_Some in E as (l1 & l2 & _ & -> & _).
    rewrite Hd. cbn. split; [|reflexivity]. apply in_or_app. right. left. reflexivity. }
  split.
  - apply Finish_without_active; assumption.
  - intros F1.
    destruct (Start_appends t w1' Hwf1 F0 F1 Hnone)
      as (e' & w2 & Hs & Hd2 & Ht & Hst & _ & _ & _ & Hfresh).
    exists e', w2. cbn [bson.stored ID Type_ State_].
    assert (Hne : ID e' <> ID e)
      by (intros E; apply (Hfresh e (proj1 He)); symmetry; exact E).
    repeat split; assumption.
Qed.

Lemma after_Finish_witness :
  I1 (docs demo_world) /\ store_wf demo_world /\
  EventService.Finish "call" demo_world =
    (Ok (finished_at 50000000%Z (new_row 3%N "call" 40000000%Z)),
     (EventService.Finish "call" demo_world).2) /\
  fault_at 0 (EventService.Finish "call" demo_world).2 = None /\
  (EventService.Finish "call" (EventService.Finish "call" demo_world).2).1
  = Err ErrNoDocuments.
Proof.
  assert (HI : I1 (docs demo_world)) by (apply I1_check_sound; reflexivity).
  assert (H : EventService.Finish "call" demo_world =
              (Ok (finished_at 50000000%Z (new_row 3%N "call" 40000000%Z)),
               (EventService.Finish "call" demo_world).2))
    by (vm_compute; reflexivity).
  split; [exact HI|]. split; [exact demo_world_wf|]. split; [exact H|].
  split; [reflexivity|].
  exact (proj1 (after_Finish "call" demo_world _ _ _ HI demo_world_wf H
                  (conj eq_refl eq_refl) eq_refl)).
Defined.

(* ===================================================================== *)
(** ** Create on its own, and the race of two starts *)
(* ===================================================================== *)

Lemma FindActive_world t w :
  let w' := (EventRepository.FindActive t w).2 in
  docs w' = docs w /\ next_oid w' = next_oid w /\ clock w' = clock w /\
  forall i, fault_at i w' = fault_at (S i) w.
Proof.
  cbv zeta. rewrite FindActive_eq. cbn [snd].
  repeat split. intros i. apply fault_at_enter.
Qed.

(** [Create] does not look at the rows that are there; it returns its
    own struct and the store gets it with the time cut to the
    millisecond. *)
Lemma Create_ok t w :
  store_wf w -> fault_at 0 w = None ->
  exists w',
    EventRepository.Create t w = (Ok (new_row (next_oid w) t (clock w)), w') /\
    docs w' = docs w ++ [bson.stored (new_row (next_oid w) t (clock w))] /\
    next_oid w' = (next_oid w + 1)%N /\ clock w' = clock w /\
    (forall i, fault_at i w' = fault_at (S i) w) /\
    store_wf w'.
Proof.
  intros Hwf F0. pose proof Hwf as (Hnd & Hlt & Hpos).
  rewrite Create_eq. cbv zeta. rewrite F0, (has_id_false _ _ Hlt).
  eexists. split; [reflexivity|]. cbn [docs next_oid clock].
  split; [reflexivity|]. split; [reflexivity|]. split; [reflexivity|].
  split.
  - intros i. unfold fault_at at 1. cbn [faults].
    apply (fault_at_enter (CInsertOne (new_row NilObjectID t (clock w))) i w).
  - eapply store_wf_insert; [exact Hwf | | reflexivity | reflexivity]. reflexivity.
Qed.

(** X8. The race of two starts.  [Create] enforces no uniqueness, and
    the search and the insert of Start are two separate storage calls:
    when two starts of a type without Active row both search before
    either inserts (ids unique, no storage call failing), both searches
    find nothing, both inserts succeed, and the collection ends with two
    Active rows of that type (the two rows returned, as the store keeps
    them), with distinct ids: I1 is broken. *)
Theorem start_race (t : string) (w : World) :
  store_wf w ->
  (forall i, i < 4 -> fault_at i w = None) ->
  (forall e, In e (docs w) -> ~ (Type_ e = t /\ State_ e = Active)) ->
  exists a b w',
    racing_starts t w = (Ok None, Ok None, Ok a, Ok b, w') /\
    docs w' = docs w ++ [bson.stored a; bson.stored b] /\
    Type_ a = t /\ State_ a = Active /\ Type_ b = t /\ State_ b = Active /\
    ID a <> ID b /\
    Type_ (bson.stored a) = t /\ State_ (bson.stored a) = Active /\
    Type_ (bson.stored b) = t /\ State_ (bson.stored b) = Active /\
    ID (bson.stored a) <> ID (bson.stored b) /\
    ~ I1 (docs w').
Proof.
  intros Hwf F Hnone. apply find_none_active in Hnone.
  unfold racing_starts.
  destruct (EventRepository.FindActive t w) as [a1 w1] eqn:E1.
  pose proof (FindActive_world t w) as H1. rewrite E1 in H1. cbv zeta in H1.
  cbn [snd] in H1. destruct H1 as (Hd1 & Hn1 & Hc1 & Hf1).
  assert (Ea1 : a1 = Ok None).
  { pose proof (f_equal fst E1) as Ha. rewrite FindActive_eq in Ha. cbn [fst] in Ha.
    rewrite (F 0), Hnone in Ha by lia. congruence. }
  destruct (EventRepository.FindActive t w1) as [b1 w2] eqn:E2.
  pose proof (FindActive_world t w1) as H2. rewrite E2 in H2. cbv zeta in H2.
  cbn [snd] in H2. destruct H2 as (Hd2 & Hn2 & Hc2 & Hf2).
  assert (Eb1 : b1 = Ok None).
  { pose proof (f_equal fst E2) as Hb. rewrite FindActive_eq in Hb. cbn [fst] in Hb.
    rewrite Hf1, (F 1), Hd1, Hnone in Hb by lia. congruence. }
  assert (Hwf2 : store_wf w2).
  { apply (store_wf_same w w2); [|exact Hwf]. split; congruence. }
  destruct (Create_ok t w2 Hwf2) as (w3 & E3 & Hd3 & Hn3 & Hc3 & Hf3 & Hwf3).
  { rewrite Hf2, Hf1. apply F. lia. }
  rewrite E3.
  destruct (Create_ok t w3 Hwf3) as (w4 & E4 & Hd4 & Hn4 & _ & _ & _).
  { rewrite Hf3, Hf2, Hf1. apply F. lia. }
  rewrite E4, Ea1, Eb1.
  eexists. eexists. eexists. split; [reflexivity|].
  split; [rewrite Hd4, Hd3, Hd2, Hd1, <- app_assoc; reflexivity|].
  do 4 (split; [reflexivity|]).
  split; [cbn; rewrite Hn3; lia|].
  do 4 (split; [reflexivity|]).
  split; [cbn; rewrite Hn3; lia|].
  intros HI. specialize (HI t). revert HI.
  rewrite Hd4, Hd3, !active_rows_app, !length_app.
  unfold active_rows at 2 3. cbn [List.filter].
  rewrite !stored_new_row, !is_active_new_row, String.eqb_refl. cbn. lia.
Qed.

Lemma start_race_witness :
  store_wf demo_world /\
  (forall i, i < 4 -> fault_at i demo_world = None) /\
  (forall e, In e (docs demo_world) -> ~ (Type_ e = "task" /\ State_ e = Active)) /\
  exists a b w',
    racing_starts "task" demo_world = (Ok None, Ok None, Ok a, Ok b, w') /\
    ~ I1 (docs w').
Proof.
  assert (F : forall i, i < 4 -> fault_at i demo_world = None).
  { intros i _. unfold fault_at. cbn. destruct i; reflexivity. }
  assert (Hnone : forall e, In e (docs demo_world) ->
                            ~ (Type_ e = "task" /\ State_ e = Active)).
  { intros e He [Ht _]. cbn in He. destruct He as [<-|[<-|[<-|[]]]]; discriminate. }
  split; [exact demo_world_wf|]. split; [exact F|]. split; [exact Hnone|].
  destruct (start_race "task" demo_world demo_world_wf F Hnone)
    as (a & b & w' & H & _ & _ & _ & _ & _ & _ & _ & _ & _ & _ & _ & HI).
  exists a, b, w'. auto.
Defined.

(* ===================================================================== *)
(** ** What no operation ever does *)
(* ===================================================================== *)

(** X9. Rows are never deleted, moved or rewritten.  Across any step of
    a sequential execution (Start, Finish, List, or the environment
    moving) the collection does not shrink and the id generator does not
    go back; every row stays at its position with its id, type and
    startedAt; the only change a row can undergo is the transition of an
    Active row to Finished at the current time, so a row that is not
    Active stays as it is. *)
Theorem rows_are_kept (w w' : World) :
  step w w' ->
  length (docs w) <= length (docs w') /\
  (next_oid w <= next_oid w')%N /\
  forall i e, docs w !! i = Some e ->
    exists e', docs w' !! i = Some e' /\
      ID e' = ID e /\ Type_ e' = Type_ e /\ StartedAt e' = StartedAt e /\
      (e' = e \/ (State_ e = Active /\ e' = finished_at (bson.date (clock w)) e)) /\
      (State_ e <> Active -> e' = e).
Proof.
  assert (Hsame : forall l n, docs w' = l -> l = docs w -> next_oid w' = n -> n = next_oid w ->
            length (docs w) <= length (docs w') /\
            (next_oid w <= next_oid w')%N /\
            forall i e, docs w !! i = Some e ->
              exists e', docs w' !! i = Some e' /\
                ID e' = ID e /\ Type_ e' = Type_ e /\ StartedAt e' = StartedAt e /\
                (e' = e \/ (State_ e = Active /\ e' = finished_at (bson.date (clock w)) e)) /\
                (State_ e <> Active -> e' = e)).
  { intros l n -> Hd -> Hn. rewrite Hd, Hn. split; [lia|]. split; [lia|].
    intros i e Hi. exists e. auto 8. }
  intros Hstep. destruct Hstep as [t w | t w | k m f w | now script w Hnow].
  - destruct (Start_store t w) as [[Hd Hn] | (_ & Hd & Hn)].
    + eapply Hsame; eauto.
    + rewrite Hd, Hn, length_app. split; [lia|]. split; [lia|].
      intros i e Hi. exists e. rewrite lookup_app_l by (eapply lookup_lt_Some; eassumption).
      auto 8.
  - destruct (Finish_store t w) as [Hn [Hd | (l1 & e0 & l2 & Hw & Hd & Ht & Hs)]].
    + eapply Hsame; eauto.
    + rewrite Hn, Hd, Hw, !length_app. cbn [length]. split; [lia|]. split; [lia|].
      intros i e Hi. destruct (Nat.eq_dec i (length l1)) as [->|Hne].
      * rewrite list_lookup_middle in Hi by reflexivity. injection Hi as <-.
        exists (finished_at (bson.date (clock w)) e0).
        rewrite list_lookup_middle by reflexivity. cbn.
        repeat split; auto. intros Hna. contradiction.
      * exists e. split; [|auto 8]. rewrite <- Hi.
        destruct (lt_eq_lt_dec i (length l1)) as [[Hlt|Heq]|Hgt]; [|contradiction|].
        -- rewrite !lookup_app_l by assumption. reflexivity.
        -- rewrite !lookup_app_r by lia.
           destruct (i - length l1) as [|n] eqn:En; [lia|]. reflexivity.
  - destruct (List_store k m f w) as [Hd Hn]. eapply Hsame; eauto.
  - eapply Hsame; reflexivity.
Qed.

Lemma rows_are_kept_witness :
  step demo_world (EventService.Finish "call" demo_world).2 /\
  length (docs demo_world) <= length (docs (EventService.Finish "call" demo_world).2).
Proof.
  assert (H : step demo_world (EventService.Finish "call" demo_world).2)
    by apply step_Finish.
  split; [exact H|]. exact (proj1 (rows_are_kept _ _ H)).
Defined.

(** X10. The invariants of sequential executions.  In every state that
    Start, Finish and List, run one at a time from the empty collection
    with the clock never going back, can reach: every type has at most
    one Active row (I1); every row is Active without finishedAt or
    Finished with a finishedAt not before its startedAt (I2, I3); ids are
    unique and below the generator; no row has started after the current
    time; every startedAt is a whole number of milliseconds. *)
Theorem sequential_invariants (w : World) :
  reachable w ->
  I1 (docs w) /\ Forall row_ok (docs w) /\ store_wf w /\ clock_ok w /\
  dates_stored (docs w).
Proof. apply reachable_invariants. Qed.

Lemma sequential_invariants_witness :
  reachable (EventService.Finish "meeting" (EventService.Start "meeting" empty_world).2).2 /\
  I1 (docs (EventService.Finish "meeting" (EventService.Start "meeting" empty_world).2).2).
Proof.
  assert (H : reachable (EventService.Finish "meeting"
                           (EventService.Start "meeting" empty_world).2).2).
  { eapply reachable_step; [|apply step_Finish].
    eapply reachable_step; [|apply step_Start].
    apply (reachable_init 0%Z []). }
  split; [exact H|]. exact (proj1 (sequential_invariants _ H)).
Defined.

Lemma row_ok_response e :
  row_ok e ->
  (resp_State (ToResponse e) = "started" /\ resp_FinishedAt (ToResponse e) = None) \/
  (resp_State (ToResponse e) = "finished" /\
   exists t, resp_FinishedAt (ToResponse e) = Some t /\
             (resp_StartedAt (ToResponse e) <= t)%Z).
Proof.
  intros [[Hs Hf] | [Hs (t & Hf & Ht)]]; cbn [ToResponse resp_State resp_FinishedAt resp_StartedAt];
    rewrite Hs, Hf; [left | right]; split; try reflexivity.
  exists t. auto.
Qed.

(** X11. What a stored event looks like on the wire.  For every row of
    a state reached by a sequential execution, the response built by
    [ToResponse] has state "started" and no finishedAt, or state
    "finished" and a finishedAt that is not before its startedAt; the
    state is never "unknown". *)
Theorem reachable_responses (w : World) (e : Event) :
  reachable w -> In e (docs w) ->
  (resp_State (ToResponse e) = "started" /\ resp_FinishedAt (ToResponse e) = None) \/
  (resp_State (ToResponse e) = "finished" /\
   exists t, resp_FinishedAt (ToResponse e) = Some t /\
             (resp_StartedAt (ToResponse e) <= t)%Z).
Proof.
  intros Hr He. apply row_ok_response.
  destruct (reachable_invariants w Hr) as (_ & Hrows & _).
  rewrite Forall_forall in Hrows. apply Hrows, list_elem_of_In, He.
Qed.

Lemma reachable_responses_witness :
  reachable (EventService.Start "meeting" empty_world).2 /\
  In (new_row 1%N "meeting" 0%Z) (docs (EventService.Start "meeting" empty_world).2) /\
  resp_State (ToResponse (new_row 1%N "meeting" 0%Z)) = "started".
Proof.
  assert (H : reachable (EventService.Start "meeting" empty_world).2).
  { eapply reachable_step; [|apply step_Start]. apply (reachable_init 0%Z []). }
  assert (He : In (new_row 1%N "meeting" 0%Z)
                  (docs (EventService.Start "meeting" empty_world).2))
    by (left; reflexivity).
  split; [exact H|]. split; [exact He|].
  destruct (reachable_responses _ _ H He) as [[Hs _] | [Hs _]]; [exact Hs | discriminate Hs].
Defined.

(* ===================================================================== *)
(** ** The handlers as a whole *)
(* ===================================================================== *)

Lemma Finish_error t w err w' :
  EventService.Finish t w = (Err err, w') -> same_store w w'.
Proof.
  rewrite Service_Finish_eq, Finish_eq. cbv zeta.
  destruct (fault_at 0 w); [intros [= <- <-]; split; reflexivity|].
  destruct (update_first _ _ _) as [[found l]|]; [discriminate|].
  intros [= <- <-]. split; reflexivity.
Qed.

(** The three ways the Start handler can go. *)
Lemma handler_Start_cases c w :
  (gin.status (EventHandler.Start c w).1 = http.StatusBadRequest /\
   (EventHandler.Start c w).2 = w /\
   forall req, gin.json_body c = Some req -> validateEventType (req_Type req) = false) \/
  (exists req,
      gin.json_body c = Some req /\ validateEventType (req_Type req) = true /\
      ((exists e w', EventService.Start (req_Type req) w = (Ok e, w') /\
                     EventHandler.Start c w =
                     (gin.JSON http.StatusOK (gin.EventJSON (ToResponse e)), w')) \/
       (exists err w', EventService.Start (req_Type req) w = (Err err, w') /\
                       gin.status (EventHandler.Start c w).1 = http.StatusInternalServerError /\
                       (EventHandler.Start c w).2 = w'))).
Proof.
  unfold EventHandler.Start, gin.ShouldBindJSON.
  destruct (gin.json_body c) as [req|]; [|left; repeat split; discriminate].
  destruct (String.eqb_spec (req_Type req) EmptyString) as [E|E].
  { left. repeat split. intros req' [= <-]. rewrite E. reflexivity. }
  destruct (validateEventType (req_Type req)) eqn:V; cbn [negb].
  - right. exists req. split; [reflexivity|]. split; [exact V|].
    destruct (EventService.Start (req_Type req) w) as [[e|err] w'].
    + left. exists e, w'. split; reflexivity.
    + right. exists err, w'. repeat split.
  - left. repeat split. intros req' [= <-]. exact V.
Qed.

Lemma handler_Finish_cases c w :
  (gin.status (EventHandler.Finish c w).1 = http.StatusBadRequest /\
   (EventHandler.Finish c w).2 = w /\
   forall req, gin.json_body c = Some req -> validateEventType (req_Type req) = false) \/
  (exists req,
      gin.json_body c = Some req /\ validateEventType (req_Type req) = true /\
      ((exists e w', EventService.Finish (req_Type req) w = (Ok e, w') /\
                     EventHandler.Finish c w =
                     (gin.JSON http.StatusOK (gin.EventJSON (ToResponse e)), w')) \/
       (exists w', EventService.Finish (req_Type req) w = (Err ErrNoDocuments, w') /\
                   gin.status (EventHandler.Finish c w).1 = http.StatusNotFound /\
                   (EventHandler.Finish c w).2 = w') \/
       (exists err w', EventService.Finish (req_Type req) w = (Err err, w') /\
                       err <> ErrNoDocuments /\
                       gin.status (EventHandler.Finish c w).1 = http.StatusInternalServerError /\
                       (EventHandler.Finish c w).2 = w'))).
Proof.
  unfold EventHandler.Finish, gin.ShouldBindJSON.
  destruct (gin.json_body c) as [req|]; [|left; repeat split; discriminate].
  destruct (String.eqb_spec (req_Type req) EmptyString) as [E|E].
  { left. repeat split. intros req' [= <-]. rewrite E. reflexivity. }
  destruct (validateEventType (req_Type req)) eqn:V; cbn [negb].
  - right. exists req. split; [reflexivity|]. split; [exact V|].
    destruct (EventService.Finish (req_Type req) w) as [[e|[]] w'].
    + left. exists e, w'. split; reflexivity.
    + right. left. exists w'. repeat split.
    + right. right. eexists. exists w'. repeat split. discriminate.
    + right. right. eexists. exists w'. repeat split. discriminate.
  - left. repeat split. intros req' [= <-]. exact V.
Qed.

Lemma handler_List_cases c w :
  (gin.status (EventHandler.List_ c w).1 = http.StatusBadRequest /\
   (EventHandler.List_ c w).2 = w) \/
  (exists k m,
      accepted_offset (gin.Query c "offset") k /\
      accepted_limit (gin.Query c "limit") m /\
      EventHandler.List_ c w =
      (list_response (EventService.List_ k m (gin.Query c "type") w).1,
       (EventService.List_ k m (gin.Query c "type") w).2)).
Proof.
  assert (Hoff : (exists k, accepted_offset (gin.Query c "offset") k) \/
                 (gin.Query c "offset" <> EmptyString /\
                  ((strconv.Atoi (gin.Query c "offset")).2 <> None \/
                   ((strconv.Atoi (gin.Query c "offset")).1 < 0)%Z))).
  { destruct (String.eqb_spec (gin.Query c "offset") EmptyString) as [E|E].
    - left. exists 0%Z. left. auto.
    - destruct (strconv.Atoi (gin.Query c "offset")) as [k [err|]] eqn:A.
      + right. split; [exact E|]. left. discriminate.
      + destruct (Z.ltb_spec k 0).
        * right. split; [exact E|]. right. assumption.
        * left. exists k. right. auto. }
  destruct Hoff as [[k Hk] | [Hne Hbad]].
  2:{ left. apply handler_List_bad_offset; assumption. }
  assert (Hlim : (exists m, accepted_limit (gin.Query c "limit") m) \/
                 (gin.Query c "limit" <> EmptyString /\
                  ((strconv.Atoi (gin.Query c "limit")).2 <> None \/
                   ((strconv.Atoi (gin.Query c "limit")).1 < 0)%Z \/
                   (100 < (strconv.Atoi (gin.Query c "limit")).1)%Z))).
  { destruct (String.eqb_spec (gin.Query c "limit") EmptyString) as [E|E].
    - left. exists 0%Z. left. auto.
    - destruct (strconv.Atoi (gin.Query c "limit")) as [m [err|]] eqn:A.
      + right. split; [exact E|]. left. discriminate.
      + destruct (Z.ltb_spec m 0).
        * right. split; [exact E|]. right. left. assumption.
        * destruct (Z.ltb_spec 100 m).
          -- right. split; [exact E|]. right. right. assumption.
          -- left. exists m. right. repeat split; auto. }
  destruct Hlim as [[m Hm] | [Hne Hbad]].
  - right. exists k, m. split; [exact Hk|]. split; [exact Hm|].
    apply handler_List_accepted; assumption.
  - left. eapply handler_List_bad_limit; eassumption.
Qed.

(** X12. The answers of the handlers.  Start answers 200, 400 or 500 and
    never 404; Finish answers 200, 400, 404 or 500; List answers 200, 400
    or 500.  A handler that answers anything but 200 has left the
    collection and the id generator as they were, and List leaves them so
    whatever it answers. *)
Theorem handler_answers (c : gin.Context) (w : World) :
  In (gin.status (EventHandler.Start c w).1) [200; 400; 500]%Z /\
  In (gin.status (EventHandler.Finish c w).1) [200; 400; 404; 500]%Z /\
  In (gin.status (EventHandler.List_ c w).1) [200; 400; 500]%Z /\
  (gin.status (EventHandler.Start c w).1 <> http.StatusOK ->
   same_store w (EventHandler.Start c w).2) /\
  (gin.status (EventHandler.Finish c w).1 <> http.StatusOK ->
   same_store w (EventHandler.Finish c w).2) /\
  same_store w (EventHandler.List_ c w).2.
Proof.
  split; [|split; [|split; [|split; [|split]]]].
  - destruct (handler_Start_cases c w)
      as [(-> & _) | (req & _ & _ & [(e & w' & _ & ->) | (err & w' & _ & -> & _)])];
      cbn; auto.
  - destruct (handler_Finish_cases c w)
      as [(-> & _) | (req & _ & _ & [(e & w' & _ & ->) | [(w' & _ & -> & _)
                                     | (err & w' & _ & _ & -> & _)]])];
      cbn; auto.
  - destruct (handler_List_cases c w) as [(-> & _) | (k & m & _ & _ & ->)];
      [cbn; auto|].
    cbn [fst]. destruct (EventService.List_ k m (gin.Query c "type") w).1; cbn; auto.
  - destruct (handler_Start_cases c w)
      as [(_ & -> & _) | (req & _ & _ & [(e & w' & _ & ->) | (err & w' & Hs & _ & ->)])].
    + intros _. split; reflexivity.
    + intros H. exfalso. apply H. reflexivity.
    + intros _. apply Start_error in Hs. tauto.
  - destruct (handler_Finish_cases c w)
      as [(_ & -> & _) | (req & _ & _ & [(e & w' & _ & ->) | [(w' & Hs & _ & ->)
                                     | (err & w' & Hs & _ & _ & ->)]])].
    + intros _. split; reflexivity.
    + intros H. exfalso. apply H. reflexivity.
    + intros _. eapply Finish_error, Hs.
    + intros _. eapply Finish_error, Hs.
  - destruct (handler_List_cases c w) as [(_ & ->) | (k & m & _ & _ & ->)];
      [split; reflexivity|].
    cbn [snd]. apply List_store.
Qed.

(** X13. When Finish answers 404: exactly when the body binds to a type
    that passes the format check, the storage call does not fail, and the
    store holds no Active row of that type. *)
Theorem handler_Finish_not_found (c : gin.Context) (w : World) :
  gin.status (EventHandler.Finish c w).1 = http.StatusNotFound <->
  exists req,
    gin.json_body c = Some req /\ validateEventType (req_Type req) = true /\
    fault_at 0 w = None /\
    forall e, In e (docs w) -> ~ (Type_ e = req_Type req /\ State_ e = Active).
Proof.
  assert (Hnf : forall t w',
             EventService.Finish t w = (Err ErrNoDocuments, w') ->
             fault_at 0 w = None /\
             forall e, In e (docs w) -> ~ (Type_ e = t /\ State_ e = Active)).
  { intros t w'. rewrite Service_Finish_eq, Finish_eq. cbv zeta.
    destruct (fault_at 0 w); [discriminate|].
    destruct (update_first _ _ _) as [[found l]|] eqn:E; [discriminate|].
    intros _. split; [reflexivity|].
    apply find_none_active, (update_first_None _ (finished_at (bson.date (clock w)))), E. }
  split.
  - destruct (handler_Finish_cases c w)
      as [(-> & _) | (req & Hb & Hv & [(e & w' & _ & ->) | [(w' & Hs & _)
                                     | (err & w' & _ & _ & -> & _)]])];
      try discriminate.
    intros _. exists req. apply Hnf in Hs. tauto.
  - intros (req & Hb & Hv & F0 & Hnone).
    pose proof (Finish_without_active _ _ F0 Hnone) as Hs.
    unfold EventHandler.Finish. rewrite (bind_accepted c req Hb Hv), Hv. cbn [negb].
    destruct (EventService.Finish (req_Type req) w) as [r w']. cbn [fst] in Hs.
    rewrite Hs. reflexivity.
Qed.

Lemma Finish_ok t w e w' :
  EventService.Finish t w = (Ok e, w') ->
  Type_ e = t /\ State_ e = Finished /\ FinishedAt e = Some (bson.date (clock w)) /\
  In e (docs w').
Proof.
  rewrite Service_Finish_eq, Finish_eq. cbv zeta.
  destruct (fault_at 0 w); [discriminate|].
  destruct (update_first _ _ _) as [[found l]|] eqn:E; [|discriminate].
  intros [= <- <-]. apply update_first_Some in E as (l1 & l2 & _ & -> & Hact & _).
  apply is_active_of_spec in Hact as [Ht _]. cbn.
  repeat split; [exact Ht|]. apply in_or_app. right. left. reflexivity.
Qed.

(** X14. What the handlers answer with 200.  A 200 from Start carries
    the response of an event [e] of the requested type, in state
    "started", and the store then holds a row with the id, type, state
    and finishedAt of that response, whose startedAt is the startedAt of
    the response or less than a millisecond before it (the row is [e]
    itself when Start found it, and [e] with its time cut to the
    millisecond when Start created it); a 200 from Finish carries the
    response of a stored row of the requested type, in state "finished",
    with finishedAt the time of the call cut to the millisecond.  In both
    cases the type has passed the format check. *)
Theorem handler_success (c : gin.Context) (w : World) :
  (gin.status (EventHandler.Start c w).1 = http.StatusOK ->
   exists req e r,
     gin.json_body c = Some req /\ well_formed_type (req_Type req) /\
     (EventHandler.Start c w).1 = gin.JSON http.StatusOK (gin.EventJSON (ToResponse e)) /\
     resp_Type (ToResponse e) = req_Type req /\
     resp_State (ToResponse e) = "started" /\
     In r (docs (EventHandler.Start c w).2) /\
     resp_ID (ToResponse r) = resp_ID (ToResponse e) /\
     resp_Type (ToResponse r) = resp_Type (ToResponse e) /\
     resp_State (ToResponse r) = resp_State (ToResponse e) /\
     resp_FinishedAt (ToResponse r) = resp_FinishedAt (ToResponse e) /\
     (resp_StartedAt (ToResponse e) - 1000000 < resp_StartedAt (ToResponse r)
      <= resp_StartedAt (ToResponse e))%Z /\
     (r = e \/ r = bson.stored e)) /\
  (gin.status (EventHandler.Finish c w).1 = http.StatusOK ->
   exists req e,
     gin.json_body c = Some req /\ well_formed_type (req_Type req) /\
     (EventHandler.Finish c w).1 = gin.JSON http.StatusOK (gin.EventJSON (ToResponse e)) /\
     In e (docs (EventHandler.Finish c w).2) /\
     resp_Type (ToResponse e) = req_Type req /\
     resp_State (ToResponse e) = "finished" /\
     resp_FinishedAt (ToResponse e) = Some (bson.date (time_Now w))).
Proof.
  split.
  - destruct (handler_Start_cases c w)
      as [(-> & _) | (req & Hb & Hv & [(e & w' & Hs & ->) | (err & w' & _ & -> & _)])];
      try discriminate.
    intros _.
    destruct (Start_then_find _ _ _ _ Hs) as (r & Hf & Hid & Ht' & Hs' & Hfin & Hrange & Hr).
    apply find_some in Hf as [He _].
    apply Start_result in Hs as (Ht & Hst & _).
    exists req, e, r. split; [exact Hb|].
    split; [apply validateEventType_spec, Hv|]. split; [reflexivity|].
    cbn [snd ToResponse resp_ID resp_Type resp_State resp_StartedAt resp_FinishedAt].
    rewrite Hid, Ht', Hs', Hfin, Hst. auto 12.
  - destruct (handler_Finish_cases c w)
      as [(-> & _) | (req & Hb & Hv & [(e & w' & Hs & ->) | [(w' & _ & -> & _)
                                     | (err & w' & _ & _ & -> & _)]])];
      try discriminate.
    intros _. exists req, e. split; [exact Hb|].
    split; [apply validateEventType_spec, Hv|]. split; [reflexivity|].
    apply Finish_ok in Hs as (Ht & Hst & Hf & He).
    cbn [snd ToResponse resp_Type resp_State resp_FinishedAt]. rewrite Hst. auto.
Qed.

Lemma handler_success_witness :
  gin.status (EventHandler.Finish (post "call") demo_world).1 = http.StatusOK /\
  exists req e,
    gin.json_body (post "call") = Some req /\
    (EventHandler.Finish (post "call") demo_world).1 =
      gin.JSON http.StatusOK (gin.EventJSON (ToResponse e)) /\
    resp_State (ToResponse e) = "finished".
Proof.
  assert (H : gin.status (EventHandler.Finish (post "call") demo_world).1 = http.StatusOK)
    by (vm_compute; reflexivity).
  split; [exact H|].
  destruct (proj2 (handler_success (post "call") demo_world) H)
    as (req & e & Hb & _ & Hr & _ & _ & Hs & _).
  exists req, e. auto.
Defined.

(** X15. Start is idempotent over HTTP, up to the store's resolution:
    when a Start request has been answered with 200 and the response of
    an event [e], the same request, sent again while the store is the
    same and the search does not fail, is answered with 200 and the
    response of a stored row [r] with the same id, type, state and
    finishedAt, whose startedAt is the startedAt of the first answer or
    less than a millisecond before it (the first answer of a Start that
    created the row carries the time as read, the later ones the time as
    stored); it writes nothing, and from then on the answer does not
    change any more. *)
Theorem handler_Start_idempotent (c : gin.Context) (w w1 : World) :
  gin.status (EventHandler.Start c w).1 = http.StatusOK ->
  same_store (EventHandler.Start c w).2 w1 -> fault_at 0 w1 = None ->
  exists e r,
    (EventHandler.Start c w).1 = gin.JSON http.StatusOK (gin.EventJSON (ToResponse e)) /\
    (EventHandler.Start c w1).1 = gin.JSON http.StatusOK (gin.EventJSON (ToResponse r)) /\
    In r (docs w1) /\
    resp_ID (ToResponse r) = resp_ID (ToResponse e) /\
    resp_Type (ToResponse r) = resp_Type (ToResponse e) /\
    resp_State (ToResponse r) = resp_State (ToResponse e) /\
    resp_FinishedAt (ToResponse r) = resp_FinishedAt (ToResponse e) /\
    (resp_StartedAt (ToResponse e) - 1000000 < resp_StartedAt (ToResponse r)
     <= resp_StartedAt (ToResponse e))%Z /\
    (r = e \/ r = bson.stored e) /\
    same_store w1 (EventHandler.Start c w1).2 /\
    (forall w2, same_store w1 w2 -> fault_at 0 w2 = None ->
                (EventHandler.Start c w2).1 = (EventHandler.Start c w1).1).
Proof.
  destruct (handler_Start_cases c w)
    as [(-> & _) | (req & Hb & Hv & [(e & w' & Hs & ->) | (err & w' & _ & -> & _)])];
    try discriminate.
  intros _ Hsame F0. cbn [fst snd] in *.
  destruct (Start_idempotent_aux (req_Type req) w w' w1 e Hs Hsame F0)
    as (r & Hin & Hid & Ht & Hst & Hfin & Hrange & Hr & _ & Hs1 & Hsame1 & Hfind).
  assert (Hagain : forall w2, docs w2 = docs w1 -> fault_at 0 w2 = None ->
            (EventHandler.Start c w2).1 =
            gin.JSON http.StatusOK (gin.EventJSON (ToResponse r))).
  { intros w2 Hd2 F2. unfold EventHandler.Start.
    rewrite (bind_accepted c req Hb Hv), Hv. cbn [negb].
    rewrite Start_eq. cbv zeta. rewrite F2, Hd2, Hfind. reflexivity. }
  exists e, r. split; [reflexivity|].
  split; [apply Hagain; [reflexivity | exact F0]|].
  split; [exact Hin|].
  cbn [ToResponse resp_ID resp_Type resp_State resp_StartedAt resp_FinishedAt].
  rewrite Hid, Ht, Hst, Hfin.
  do 4 (split; [reflexivity|]). split; [exact Hrange|]. split; [exact Hr|].
  split.
  - unfold EventHandler.Start. rewrite (bind_accepted c req Hb Hv), Hv. cbn [negb].
    destruct (EventService.Start (req_Type req) w1) as [[x|x] w2]; exact Hsame1.
  - intros w2 [Hd2 _] F2. rewrite (Hagain w2 Hd2 F2).
    symmetry. apply Hagain; [reflexivity | exact F0].
Qed.

Lemma handler_Start_idempotent_witness :
  gin.status (EventHandler.Start (post "task") demo_world).1 = http.StatusOK /\
  fault_at 0 (EventHandler.Start (post "task") demo_world).2 = None /\
  exists e r,
    (EventHandler.Start (post "task") demo_world).1
    = gin.JSON http.StatusOK (gin.EventJSON (ToResponse e)) /\
    (EventHandler.Start (post "task") (EventHandler.Start (post "task") demo_world).2).1
    = gin.JSON http.StatusOK (gin.EventJSON (ToResponse r)) /\
    resp_ID (ToResponse r) = resp_ID (ToResponse e).
Proof.
  assert (H : gin.status (EventHandler.Start (post "task") demo_world).1 = http.StatusOK)
    by (vm_compute; reflexivity).
  split; [exact H|]. split; [reflexivity|].
  destruct (handler_Start_idempotent (post "task") demo_world _ H
              (conj eq_refl eq_refl) eq_refl)
    as (e & r & H1 & H2 & _ & H3 & _).
  exists e, r. auto.
Defined.

(* ===================================================================== *)
(** ** What the handlers let into the store *)
(* ===================================================================== *)

Lemma hstep_step w w' : hstep w w' -> w' = w \/ step w w'.
Proof.
  intros [c w0 | c w0 | c w0 | now script w0 Hnow].
  - destruct (handler_Start_cases c w0)
      as [(_ & -> & _) | (req & _ & _ & [(e & w1 & Hs & ->) | (err & w1 & Hs & _ & ->)])];
      [left; reflexivity | right | right];
      replace w1 with (EventService.Start (req_Type req) w0).2 by (rewrite Hs; reflexivity);
      apply step_Start.
  - destruct (handler_Finish_cases c w0)
      as [(_ & -> & _) | (req & _ & _ & [(e & w1 & Hs & ->) | [(w1 & Hs & _ & ->)
                                     | (err & w1 & Hs & _ & _ & ->)]])];
      [left; reflexivity | right | right | right];
      replace w1 with (EventService.Finish (req_Type req) w0).2 by (rewrite Hs; reflexivity);
      apply step_Finish.
  - destruct (handler_List_cases c w0) as [(_ & ->) | (k & m & _ & _ & ->)];
      [left; reflexivity | right]. apply step_List.
  - right. apply step_env, Hnow.
Qed.

Lemma hreachable_reachable w : hreachable w -> reachable w.
Proof.
  induction 1 as [now script | w w' _ IH Hstep]; [apply reachable_init|].
  destruct (hstep_step _ _ Hstep) as [-> | Hs]; [exact IH|].
  eapply reachable_step; eassumption.
Qed.

Lemma hstep_types_ok w w' : hstep w w' -> types_ok (docs w) -> types_ok (docs w').
Proof.
  unfold types_ok. intros [c w0 | c w0 | c w0 | now script w0 Hnow] H.
  - destruct (handler_Start_cases c w0)
      as [(_ & -> & _) | (req & _ & Hv & [(e & w1 & Hs & ->) | (err & w1 & Hs & _ & ->)])].
    + exact H.
    + cbn [snd]. apply Start_result in Hs as (Ht & _ & [[_ [-> _]] | (_ & _ & -> & _)]);
        [exact H|].
      apply Forall_app. split; [exact H|]. constructor; [|constructor].
      cbn [bson.stored Type_]. rewrite Ht. exact Hv.
    + apply Start_error in Hs as [[-> _] _]. exact H.
  - assert (Hfin : forall t, types_ok (docs (EventService.Finish t w0).2)).
    { intros t. unfold types_ok.
      destruct (Finish_store t w0) as [_ [-> | (l1 & e & l2 & Hw & -> & _)]]; [exact H|].
      rewrite Hw in H. rewrite !Forall_app, !Forall_cons in *. exact H. }
    destruct (handler_Finish_cases c w0)
      as [(_ & -> & _) | (req & _ & _ & [(e & w1 & Hs & ->) | [(w1 & Hs & _ & ->)
                                     | (err & w1 & Hs & _ & _ & ->)]])];
      [exact H | | |];
      specialize (Hfin (req_Type req)); rewrite Hs in Hfin; exact Hfin.
  - destruct (handler_List_cases c w0) as [(_ & ->) | (k & m & _ & _ & ->)]; [exact H|].
    cbn [snd]. destruct (List_store k m (gin.Query c "type") w0) as [-> _]. exact H.
  - exact H.
Qed.

(** X16. What the handlers let into the store.  In every state reached
    through the HTTP handlers alone, one request at a time from the empty
    collection, every stored type passes the format check, and the
    invariants of sequential executions hold.  In such a state a listing
    (accepted pagination, no storage failure) filtered by a non-empty
    type that fails the format check is answered with 200 and no rows. *)
Theorem handlers_keep_types_valid (w : World) :
  hreachable w ->
  types_ok (docs w) /\ I1 (docs w) /\ Forall row_ok (docs w) /\ store_wf w /\
  forall c k m,
    accepted_offset (gin.Query c "offset") k ->
    accepted_limit (gin.Query c "limit") m ->
    fault_at 0 w = None -> fault_at 1 w = None ->
    gin.Query c "type" <> EmptyString ->
    validateEventType (gin.Query c "type") = false ->
    (EventHandler.List_ c w).1 = gin.JSON http.StatusOK (gin.EventsJSON []).
Proof.
  intros Hr.
  assert (Ht : types_ok (docs w)).
  { induction Hr as [now script | w w' _ IH Hstep]; [constructor|].
    eapply hstep_types_ok; eassumption. }
  destruct (reachable_invariants w (hreachable_reachable w Hr)) as (HI & Hrows & Hwf & _).
  split; [exact Ht|]. split; [exact HI|]. split; [exact Hrows|]. split; [exact Hwf|].
  intros c k m Hk Hm F0 F1 Hne Hbad.
  rewrite (handler_List_accepted c w k m Hk Hm).
  unfold EventService.List_. destruct (List_eq k m (gin.Query c "type") w) as [c0 ->].
  rewrite F0, F1. cbn [fst list_response]. do 2 f_equal.
  destruct (list_spec _ _ _ _) as [|e l] eqn:E; [reflexivity|]. exfalso.
  assert (He : In e (list_spec k m (gin.Query c "type") (docs w)))
    by (rewrite E; left; reflexivity).
  apply list_spec_In, restrict_In in He as [He [Hf|Hf]]; [contradiction|].
  unfold types_ok in Ht. rewrite Forall_forall in Ht.
  apply list_elem_of_In, Ht in He. rewrite Hf in He. congruence.
Qed.

Lemma handlers_keep_types_valid_witness :
  hreachable (EventHandler.Start (post "meeting") empty_world).2 /\
  types_ok (docs (EventHandler.Start (post "meeting") empty_world).2) /\
  (EventHandler.List_ (get {[ "type" := ["Meeting"] ]})
     (EventHandler.Start (post "meeting") empty_world).2).1
  = gin.JSON http.StatusOK (gin.EventsJSON []).
Proof.
  assert (H : hreachable (EventHandler.Start (post "meeting") empty_world).2).
  { eapply hreachable_step; [|apply hstep_Start]. apply (hreachable_init 0%Z []). }
  split; [exact H|].
  destruct (handlers_keep_types_valid _ H) as (Ht & _ & _ & _ & Hlist).
  split; [exact Ht|].
  apply (Hlist (get {[ "type" := ["Meeting"] ]}) 0%Z 0%Z).
  - left. split; reflexivity.
  - left. split; reflexivity.
  - reflexivity.
  - reflexivity.
  - discriminate.
  - reflexivity.
Defined.

(* ===================================================================== *)
(** ** Pages of a listing *)
(* ===================================================================== *)

Lemma StronglySorted_drop {A} (R : A -> A -> Prop) n : forall l,
  StronglySorted R l -> StronglySorted R (drop n l).
Proof.
  induction n as [|n IH]; intros l H; [exact H|].
  destruct H as [|x l Hl _]; [constructor | apply IH, Hl].
Qed.

Lemma StronglySorted_take {A} (R : A -> A -> Prop) n : forall l,
  StronglySorted R l -> StronglySorted R (take n l).
Proof.
  induction n as [|n IH]; intros l H; [constructor|].
  destruct H as [|x l Hl Hx]; [constructor|]. cbn. constructor; [apply IH, Hl|].
  rewrite Forall_forall in Hx |- *. intros y Hy. apply Hx.
  eapply subseteq_take, Hy.
Qed.

Lemma NoDup_ids_filter (p : Event -> bool) l :
  NoDup (map ID l) -> NoDup (map ID (List.filter p l)).
Proof.
  induction l as [|x l IH]; cbn; [auto|].
  rewrite NoDup_cons. intros [Hx Hl]. destruct (p x); [|auto]. cbn.
  apply NoDup_cons. split; [|auto].
  intros Hin. apply Hx. apply list_elem_of_In in Hin. apply list_elem_of_In.
  apply in_map_iff in Hin as (y & Ey & Hy). apply filter_In in Hy as [Hy _].
  apply in_map_iff. eauto.
Qed.

Lemma list_spec_sorted k m f rows :
  StronglySorted (fun a b => (StartedAt b <= StartedAt a)%Z) (list_spec k m f rows).
Proof.
  rewrite list_spec_window, list_spec_all. cbv zeta.
  assert (H : StronglySorted (fun a b => (StartedAt b <= StartedAt a)%Z)
                (stable_sort started_desc (restrict f rows))).
  { eapply StronglySorted_weaken;
      [|apply (stable_sort_sorted started_desc started_desc_total started_desc_trans)].
    intros a b. unfold started_desc. apply Z.leb_le. }
  destruct (m >? 0)%Z.
  - apply StronglySorted_take, StronglySorted_drop, H.
  - apply StronglySorted_drop, H.
Qed.

Lemma list_spec_NoDup k m f rows :
  NoDup (map ID rows) -> NoDup (map ID (list_spec k m f rows)).
Proof.
  intros H. rewrite list_spec_window, list_spec_all. cbv zeta.
  assert (Hs : NoDup (map ID (stable_sort started_desc (restrict f rows)))).
  { rewrite (Permutation_map ID (stable_sort_perm started_desc (restrict f rows))).
    unfold restrict. destruct (String.eqb f EmptyString); [exact H|].
    apply NoDup_ids_filter, H. }
  destruct (m >? 0)%Z.
  - rewrite <- firstn_map, <- skipn_map.
    eapply sublist_NoDup; [|apply sublist_take].
    eapply sublist_NoDup; [exact Hs | apply sublist_drop].
  - rewrite <- skipn_map. eapply sublist_NoDup; [exact Hs | apply sublist_drop].
Qed.

(** What a listing returns when its two storage calls do not fail. *)
Lemma List_ok k m f w :
  fault_at 0 w = None -> fault_at 1 w = None ->
  (EventService.List_ k m f w).1 = Ok (list_spec k m f (docs w)).
Proof.
  intros F0 F1. unfold EventService.List_. destruct (List_eq k m f w) as [c ->].
  rewrite F0, F1. reflexivity.
Qed.

(** X17. Every page of a listing.  Whatever the offset, the limit and
    the filter, a listing whose storage calls do not fail returns rows
    in descending order of startedAt; each of them is a stored row, of
    the filter's type when the filter is not empty; with a positive limit
    it has at most that many rows; and when the stored ids are unique no
    row comes twice. *)
Theorem List_page (w : World) (k m : Z) (f : string) :
  fault_at 0 w = None -> fault_at 1 w = None ->
  exists page,
    (EventService.List_ k m f w).1 = Ok page /\
    StronglySorted (fun a b => (StartedAt b <= StartedAt a)%Z) page /\
    (forall e, In e page -> In e (docs w) /\ (f = EmptyString \/ Type_ e = f)) /\
    ((0 < m)%Z -> Z.of_nat (length page) <= m)%Z /\
    (NoDup (map ID (docs w)) -> NoDup (map ID page)).
Proof.
  intros F0 F1. exists (list_spec k m f (docs w)).
  split; [apply List_ok; assumption|]. split; [apply list_spec_sorted|].
  split; [intros e He; apply list_spec_In, restrict_In in He; exact He|].
  split; [|apply list_spec_NoDup].
  intros Hm. rewrite list_spec_window. cbv zeta.
  replace (m >? 0)%Z with true by (symmetry; apply Z.gtb_lt; lia).
  rewrite length_take. lia.
Qed.

Lemma List_page_witness :
  fault_at 0 demo_world = None /\ fault_at 1 demo_world = None /\
  exists page,
    (EventService.List_ 1 1 "meeting" demo_world).1 = Ok page /\
    (Z.of_nat (length page) <= 1)%Z.
Proof.
  split; [reflexivity|]. split; [reflexivity|].
  destruct (List_page demo_world 1 1 "meeting" eq_refl eq_refl)
    as (page & H & _ & _ & Hlen & _).
  exists page. split; [exact H | apply Hlen; lia].
Defined.



(** X19. Offsets and limits that are not positive.  The service and the
    repository refuse no value: a negative offset is an offset of 0 and a
    negative limit is no limit, down to the storage call that is made. *)
Theorem List_nonpositive (w : World) (k m : Z) (f : string) :
  EventService.List_ k m f w = EventService.List_ (Z.max k 0) (Z.max m 0) f w.
Proof.
  unfold EventService.List_, EventRepository.List_.
  assert (Hk : (if (Z.max k 0 >? 0)%Z
                then SetSkip (Z.max k 0) (SetSort [("started_at", (-1)%Z)] Find_)
                else SetSort [("started_at", (-1)%Z)] Find_)
               = (if (k >? 0)%Z
                  then SetSkip k (SetSort [("started_at", (-1)%Z)] Find_)
                  else SetSort [("started_at", (-1)%Z)] Find_)).
  { destruct (Z.gtb_spec k 0).
    - rewrite Z.max_l by lia. replace (k >? 0)%Z with true; [reflexivity|].
      symmetry. apply Z.gtb_lt. lia.
    - rewrite Z.max_r by lia. reflexivity. }
  rewrite Hk.
  destruct (Z.gtb_spec m 0).
  - rewrite Z.max_l by lia. replace (m >? 0)%Z with true; [reflexivity|].
    symmetry. apply Z.gtb_lt. lia.
  - rewrite Z.max_r by lia. reflexivity.
Qed.

(** X20. How a listing fails.  A listing returns an error exactly when
    its query fails, or the query succeeds and reading the cursor fails;
    the error is that storage failure as it is.  When the query fails
    the cursor is not read: one storage call is made, two otherwise.
    The collection is never changed. *)
Theorem List_failures (w : World) (k m : Z) (f : string) :
  (forall err,
      (EventService.List_ k m f w).1 = Err err <->
      exists msg, err = ErrDriver msg /\
        (fault_at 0 w = Some msg \/ (fault_at 0 w = None /\ fault_at 1 w = Some msg))) /\
  length (trace (EventService.List_ k m f w).2) =
    length (trace w) + match fault_at 0 w with Some _ => 1 | None => 2 end /\
  same_store w (EventService.List_ k m f w).2.
Proof.
  unfold EventService.List_. destruct (List_eq k m f w) as [c ->].
  split; [|split].
  - intros err. destruct (fault_at 0 w) as [msg0|]; [|destruct (fault_at 1 w) as [msg1|]];
      cbn [fst]; split.
    + intros [= <-]. exists msg0. auto.
    + intros (msg & -> & [[= ->] | [[=] _]]). reflexivity.
    + intros [= <-]. exists msg1. auto.
    + intros (msg & -> & [[=] | [_ [= ->]]]). reflexivity.
    + discriminate.
    + intros (msg & _ & [[=] | [_ [=]]]).
  - destruct (fault_at 0 w); [|destruct (fault_at 1 w)]; cbn [snd enter trace];
      rewrite ?length_app; cbn; lia.
  - destruct (fault_at 0 w); [|destruct (fault_at 1 w)]; split; reflexivity.
Qed.

Lemma list_spec_all_In f rows e :
  In e rows -> f = EmptyString \/ Type_ e = f -> In e (list_spec 0 0 f rows).
Proof.
  intros He Hf. rewrite list_spec_all.
  eapply Permutation_in; [symmetry; apply (stable_sort_perm started_desc)|].
  apply restrict_In. auto.
Qed.

(** X21. What Start and Finish return is listed.  After a successful
    Start(t) or Finish(t) that returned [e], as long as the collection
    stays the same and no storage call fails, the full listing and the
    listing filtered by [t] both contain a row [r] with the id, type,
    state and finishedAt of [e], whose startedAt is the startedAt of [e]
    or less than a millisecond before it: [r] is [e] itself after a
    Finish and after a Start that found its row, and [e] with its time
    cut to the millisecond after a Start that created it. *)
Theorem returned_rows_are_listed (t : string) (w w1 w1' : World) (e : Event) :
  EventService.Start t w = (Ok e, w1) \/ EventService.Finish t w = (Ok e, w1) ->
  docs w1' = docs w1 -> fault_at 0 w1' = None -> fault_at 1 w1' = None ->
  exists all mine r,
    (EventService.List_ 0 0 EmptyString w1').1 = Ok all /\ In r all /\
    (EventService.List_ 0 0 t w1').1 = Ok mine /\ In r mine /\
    ID r = ID e /\ Type_ r = Type_ e /\ State_ r = State_ e /\
    FinishedAt r = FinishedAt e /\
    (StartedAt e - 1000000 < StartedAt r <= StartedAt e)%Z /\
    (r = e \/ r = bson.stored e) /\
    (EventService.Finish t w = (Ok e, w1) -> r = e).
Proof.
  intros H Hd F0 F1.
  assert (He : exists r, In r (docs w1') /\ Type_ r = t /\
             ID r = ID e /\ Type_ r = Type_ e /\ State_ r = State_ e /\
             FinishedAt r = FinishedAt e /\
             (StartedAt e - 1000000 < StartedAt r <= StartedAt e)%Z /\
             (r = e \/ r = bson.stored e) /\
             (EventService.Finish t w = (Ok e, w1) -> r = e)).
  { rewrite Hd. destruct H as [H|H].
    - destruct (Start_then_find _ _ _ _ H) as (r & Hf & Hid & Ht & Hs & Hfin & Hrange & Hr).
      apply find_some in Hf as [He Hact]. apply is_active_of_spec in Hact as [Ht' _].
      exists r. repeat split; try assumption; try lia.
      intros H'. apply Finish_ok in H' as (_ & Hfs & _).
      apply Start_result in H as (_ & Hst & _). rewrite Hst in Hfs. discriminate Hfs.
    - pose proof (Finish_ok _ _ _ _ H) as (Ht & _ & _ & Hin).
      exists e. repeat split; auto; lia. }
  destruct He as (r & He & Ht & Hrest).
  exists (list_spec 0 0 EmptyString (docs w1')), (list_spec 0 0 t (docs w1')), r.
  split; [apply List_ok; assumption|].
  split; [apply list_spec_all_In; auto|].
  split; [apply List_ok; assumption|].
  split; [apply list_spec_all_In; auto|].
  exact Hrest.
Qed.

Lemma returned_rows_are_listed_witness :
  (EventService.Start "task" demo_world =
     (Ok (new_row 4%N "task" 50000250%Z), (EventService.Start "task" demo_world).2) \/
   EventService.Finish "task" demo_world =
     (Ok (new_row 4%N "task" 50000250%Z), (EventService.Start "task" demo_world).2)) /\
  fault_at 0 (EventService.Start "task" demo_world).2 = None /\
  fault_at 1 (EventService.Start "task" demo_world).2 = None /\
  exists all mine r,
    (EventService.List_ 0 0 EmptyString (EventService.Start "task" demo_world).2).1 = Ok all /\
    In r all /\
    (EventService.List_ 0 0 "task" (EventService.Start "task" demo_world).2).1 = Ok mine /\
    In r mine /\ ID r = 4%N /\
    (50000250 - 1000000 < StartedAt r <= 50000250)%Z.
Proof.
  assert (H : EventService.Start "task" demo_world =
                (Ok (new_row 4%N "task" 50000250%Z), (EventService.Start "task" demo_world).2) \/
              EventService.Finish "task" demo_world =
                (Ok (new_row 4%N "task" 50000250%Z), (EventService.Start "task" demo_world).2))
    by (left; vm_compute; reflexivity).
  split; [exact H|]. split; [reflexivity|]. split; [reflexivity|].
  destruct (returned_rows_are_listed "task" demo_world _ _ _ H eq_refl eq_refl eq_refl)
    as (all & mine & r & H1 & H2 & H3 & H4 & H5 & _ & _ & _ & H6 & _).
  exists all, mine, r. auto 8.
Defined.

(** X22. What the List handler answers with 200: the rows of a listing
    in descending order of startedAt, each a stored row of the requested
    type when the type parameter is not empty; and when the limit
    parameter is not empty and does not stand for 0, at most that many
    rows, hence at most 100. *)
Theorem handler_List_success (c : gin.Context) (w : World) :
  gin.status (EventHandler.List_ c w).1 = http.StatusOK ->
  exists page,
    (EventHandler.List_ c w).1 = gin.JSON http.StatusOK (gin.EventsJSON page) /\
    StronglySorted (fun a b => (StartedAt b <= StartedAt a)%Z) page /\
    (forall e, In e page ->
               In e (docs w) /\
               (gin.Query c "type" = EmptyString \/ Type_ e = gin.Query c "type")) /\
    (gin.Query c "limit" <> EmptyString ->
     (strconv.Atoi (gin.Query c "limit")).1 <> 0%Z ->
     (Z.of_nat (length page) <= (strconv.Atoi (gin.Query c "limit")).1 <= 100)%Z).
Proof.
  destruct (handler_List_cases c w) as [(-> & _) | (k & m & Hk & Hm & ->)];
    [discriminate|].
  cbn [fst]. unfold EventService.List_.
  destruct (List_eq k m (gin.Query c "type") w) as [c0 ->].
  destruct (fault_at 0 w); [discriminate|]. destruct (fault_at 1 w); [discriminate|].
  cbn [fst list_response]. intros _. eexists. split; [reflexivity|].
  split; [apply list_spec_sorted|].
  split; [intros e He; apply list_spec_In, restrict_In in He; exact He|].
  intros Hne Hnz. destruct Hm as [[E _] | (_ & Hm & Hrange)]; [contradiction|].
  rewrite Hm in *. cbn [fst] in *. split; [|lia].
  rewrite list_spec_window. cbv zeta.
  replace (m >? 0)%Z with true by (symmetry; apply Z.gtb_lt; lia).
  rewrite length_take. lia.
Qed.

Lemma handler_List_success_witness :
  gin.status (EventHandler.List_ (get {[ "limit" := ["2"] ]}) demo_world).1 = http.StatusOK /\
  exists page,
    (EventHandler.List_ (get {[ "limit" := ["2"] ]}) demo_world).1
    = gin.JSON http.StatusOK (gin.EventsJSON page) /\
    (Z.of_nat (length page) <= 2)%Z.
Proof.
  assert (H : gin.status (EventHandler.List_ (get {[ "limit" := ["2"] ]}) demo_world).1
              = http.StatusOK) by (vm_compute; reflexivity).
  split; [exact H|].
  destruct (handler_List_success _ _ H) as (page & Hp & _ & _ & Hlen).
  exists page. split; [exact Hp|].
  apply Hlen; vm_compute; discriminate.
Defined.
